(** * Transaction reconciliation bot: a shallow embedding

    The development follows the Python sources of the repository:

    - [src/recon_engine.py]   : [normalize], [reconcile] (with its inner
      [classify]) and [save_report];
    - [src/analyzer.py]       : [rule_based_reason], [suggested_action],
      [ai_explanation], [enrich_with_analysis];
    - [src/data_loader.py]    : [load_internal_data], [load_gateway_data];
    - [src/notifier/slack_notifier.py] : [send_slack_alert];
    - [src/main.py]           : [main].

    pandas objects are modelled as plain data: a [DataFrame] is an ordered
    list of column labels (labels may repeat, as in pandas) with its rows, and
    the row handed to [classify] or produced by [iterrows] is a [Series], a
    list of labelled values.  Frames always carry the default positional
    index (a RangeIndex), which is what [read_csv], [pd.DataFrame(list)] and
    [pd.merge] produce.  DataFrame objects live in a store and are passed by
    reference, so that in-place updates are visible through every alias.
    Logging and console output are not modelled. *)

From Stdlib Require Import ZArith String Ascii List Bool.
From Stdlib Require Import SpecFloat.
From stdpp Require Import base option list strings gmap sorting pretty.

Local Open Scope string_scope.
Local Open Scope nat_scope.
Local Open Scope list_scope.

(** ** Python values *)

(** Cell values of a frame.  A float64 is an IEEE-754 double, given by the
    standard library's [spec_float]; [S754_nan] is the NaN that pandas uses
    for a missing value. *)
Inductive value :=
| VStr (s : string)
| VInt (z : Z)
| VFloat (f : spec_float)
| VNone.

Definition NaN : value := VFloat S754_nan.

Global Instance spec_float_eq_dec : EqDecision spec_float.
Proof. solve_decision. Defined.
Global Instance value_eq_dec : EqDecision value.
Proof. solve_decision. Defined.

Definition prec64 : Z := 53.
Definition emax64 : Z := 1024.

(** [float(z)] for a Python int: round to nearest even. *)
Definition float_of_int (z : Z) : spec_float :=
  binary_normalize prec64 emax64 z 0 false.

(** Python compares an int with a float by exact numeric value. *)
Definition float_eq_int (f : spec_float) (z : Z) : bool :=
  match f with
  | S754_zero _ => (z =? 0)%Z
  | S754_finite s m e =>
      let v := if s then Z.neg m else Z.pos m in
      (if 0 <=? e then z =? v * 2 ^ e else z * 2 ^ (- e) =? v)%Z
  | S754_infinity _ | S754_nan => false
  end.

(** Python [a == b] on scalars.  NaN is not equal to anything, itself
    included; [None == None] holds; values of unrelated types differ. *)
Definition py_eq (a b : value) : bool :=
  match a, b with
  | VStr s, VStr t => bool_decide (s = t)
  | VInt x, VInt y => (x =? y)%Z
  | VFloat f, VFloat g => SFeqb f g
  | VInt x, VFloat g => float_eq_int g x
  | VFloat f, VInt y => float_eq_int f y
  | VNone, VNone => true
  | _, _ => false
  end.

(** Python [a != b]. *)
Definition py_ne (a b : value) : bool := negb (py_eq a b).

(** ** Exceptions and results *)

Inductive exn :=
| KeyError (k : string)
| ValueError (msg : string)
| OverflowError (msg : string)
| AttributeError (msg : string)
| MergeError (msg : string)
| OSError (msg : string)
| ExternalError (msg : string).

Inductive result (A : Type) :=
| Ok (a : A)
| Raise (e : exn).
Arguments Ok {A} a.
Arguments Raise {A} e.

Definition bind_result {A B : Type} (r : result A) (f : A -> result B) : result B :=
  match r with
  | Ok a => f a
  | Raise e => Raise e
  end.

Notation "'let*' x ':=' r 'in' k" := (bind_result r (fun x => k))
  (at level 10, x name, r at level 100, k at level 200,
   format "'[v' 'let*'  x  ':='  r  'in' '/' k ']'").

(** ** Series: one row with its labels *)

Abbreviation Series := (list (string * value)).

(** What indexing a Series by label gives: a scalar when the label occurs
    once, a sub-Series when it occurs several times. *)
Inductive pyobj :=
| Scalar (v : value)
| SubSeries (vs : list value).

(** The entries of a labelled list that sit under the label [k]. *)
Definition labelled {V : Type} (k : string) (row : list (string * V)) : list V :=
  (filter (λ p, p.1 = k) row).*2.

(** [row[k]]: raises KeyError when the label is absent. *)
Definition getitem (row : Series) (k : string) : result pyobj :=
  match labelled k row with
  | [] => Raise (KeyError k)
  | [v] => Ok (Scalar v)
  | vs => Ok (SubSeries vs)
  end.

(** [row.get(k, default)]: the default replaces the KeyError. *)
Definition get (row : Series) (k : string) (default : value) : pyobj :=
  match getitem row k with
  | Ok o => o
  | Raise _ => Scalar default
  end.

Definition ambiguous : exn :=
  ValueError "The truth value of a Series is ambiguous.".

(** [if a != b:]  A comparison that involves a sub-Series is itself a
    Series, and its truth value raises ValueError. *)
Definition test_ne (a b : pyobj) : result bool :=
  match a, b with
  | Scalar x, Scalar y => Ok (py_ne x y)
  | _, _ => Raise ambiguous
  end.

(** [if a == b:] *)
Definition test_eq (a b : pyobj) : result bool :=
  match a, b with
  | Scalar x, Scalar y => Ok (py_eq x y)
  | _, _ => Raise ambiguous
  end.

(** [row[k] = v] on a Series: overwrites every entry carrying the label, or
    appends a new entry. *)
Definition setitem (row : Series) (k : string) (v : value) : Series :=
  if bool_decide (k ∈ row.*1)
  then (λ p, if bool_decide (p.1 = k) then (k, v) else p) <$> row
  else row ++ [(k, v)].

(** ** The classifier  (recon_engine.py, [classify] inside [reconcile]) *)

Definition classify (row : Series) : result string :=
  let* m := getitem row "_merge" in
  let* left_only := test_eq m (Scalar (VStr "left_only")) in
  if left_only then Ok "missing_in_gateway" else
  let* m := getitem row "_merge" in
  let* right_only := test_eq m (Scalar (VStr "right_only")) in
  if right_only then Ok "missing_in_internal" else
  let* ai := getitem row "amount_internal" in
  let* ag := getitem row "amount_gateway" in
  let* amount_differs := test_ne ai ag in
  if amount_differs then Ok "amount_mismatch" else
  let* si := getitem row "status_internal" in
  let* sg := getitem row "status_gateway" in
  let* status_differs := test_ne si sg in
  if status_differs then Ok "status_mismatch" else
  let* currency_differs := test_ne (get row "currency_internal" VNone)
                                  (get row "currency_gateway" VNone) in
  if currency_differs then Ok "currency_mismatch" else
  Ok "matched".

(** ** Strings *)

(** Text is held as its UTF-8 bytes.  [str.lower] and [str.strip] follow
    the Unicode tables; on text that is pure ASCII they come down to what is
    defined here, and on other text the platform gives their outcome (see
    [str_lower] and [str_strip] in the engine). *)

(** [s.isascii()] *)
Fixpoint isascii (s : string) : bool :=
  match s with
  | EmptyString => true
  | String c s' => (nat_of_ascii c <? 128)%nat && isascii s'
  end.

(** [str.lower] on ASCII text: the capitals A to Z are lowered. *)
Definition lower_ascii (c : ascii) : ascii :=
  let n := nat_of_ascii c in
  if ((65 <=? n) && (n <=? 90))%nat then ascii_of_nat (n + 32) else c.

Fixpoint ascii_lower (s : string) : string :=
  match s with
  | EmptyString => EmptyString
  | String c s' => String (lower_ascii c) (ascii_lower s')
  end.

(** The ASCII characters [str.strip] removes: tab, line feed, vertical
    tab, form feed, carriage return, the four separators and the space. *)
Definition is_py_space (c : ascii) : bool :=
  let n := nat_of_ascii c in
  (((9 <=? n) && (n <=? 13)) || ((28 <=? n) && (n <=? 32)))%nat.

Fixpoint lstrip (s : string) : string :=
  match s with
  | EmptyString => EmptyString
  | String c s' => if is_py_space c then lstrip s' else s
  end.

(** [str.strip] on ASCII text. *)
Definition ascii_strip (s : string) : string :=
  String.rev (lstrip (String.rev (lstrip s))).

(** ** Data frames *)

Record DataFrame := {
  columns : list string;
  rows : list (list value)
}.

(** [pd.DataFrame()] *)
Definition empty_frame : DataFrame := {| columns := []; rows := [] |}.

(** Every row has one cell per column. *)
Definition frame_ok (df : DataFrame) : Prop :=
  Forall (λ r, length r = length (columns df)) (rows df).

(** The row at one position with its labels, as [iterrows] and
    [apply(axis=1)] hand it out. *)
Definition series_of (df : DataFrame) (r : list value) : Series :=
  zip (columns df) r.

Definition count_label (k : string) (df : DataFrame) : nat :=
  length (filter (λ c, c = k) (columns df)).

(** [k in df.columns] *)
Definition in_columns (k : string) (df : DataFrame) : bool :=
  bool_decide (k ∈ columns df).

(** The cells of the columns labelled [k], row by row. *)
Definition cells (k : string) (df : DataFrame) : list value :=
  r ← rows df; labelled k (series_of df r).

(** [df.rename(columns=f)] for a function [f]. *)
Definition rename_with (f : string → string) (df : DataFrame) : DataFrame :=
  {| columns := f <$> columns df; rows := rows df |}.

(** [df.rename(columns={old: new})] *)
Definition rename_label (old new : string) (df : DataFrame) : DataFrame :=
  rename_with (λ c, if bool_decide (c = old) then new else c) df.

(** [df.rename(columns=mapping)] for a dict. *)
Definition rename_by (mapping : list (string * string)) (df : DataFrame) : DataFrame :=
  rename_with (λ c, default c ((λ x, x.2.2) <$> list_find (λ p, p.1 = c) mapping)) df.

(** Apply [f] to the cells under label [k] of one row. *)
Definition map_labelled (k : string) (f : value → value)
    (cols : list string) (r : list value) : list value :=
  zip_with (λ c v, if bool_decide (c = k) then f v else v) cols r.

(** [df[k] = v] for a scalar [v]: overwrites the columns labelled [k], or
    appends a new column. *)
Definition set_scalar (k : string) (v : value) (df : DataFrame) : DataFrame :=
  if in_columns k df
  then {| columns := columns df;
          rows := map_labelled k (λ _, v) (columns df) <$> rows df |}
  else {| columns := columns df ++ [k];
          rows := (λ r, r ++ [v]) <$> rows df |}.

(** [df[k] = col] for a column of values, one per row. *)
Definition set_column (k : string) (col : list value) (df : DataFrame) : DataFrame :=
  if in_columns k df
  then {| columns := columns df;
          rows := zip_with (λ r v, map_labelled k (λ _, v) (columns df) r)
                           (rows df) col |}
  else {| columns := columns df ++ [k];
          rows := zip_with (λ r v, r ++ [v]) (rows df) col |}.

(** [df.drop(columns=[k])]; KeyError when no column has the label. *)
Definition drop_column (k : string) (df : DataFrame) : result DataFrame :=
  if in_columns k df
  then Ok {| columns := filter (λ c, c ≠ k) (columns df);
             rows := (λ r, (filter (λ p, p.1 ≠ k) (series_of df r)).*2) <$> rows df |}
  else Raise (KeyError k).

Fixpoint mapM {A B : Type} (f : A → result B) (l : list A) : result (list B) :=
  match l with
  | [] => Ok []
  | a :: l' =>
      let* b := f a in
      let* bs := mapM f l' in
      Ok (b :: bs)
  end.

(** [df[k] = df[k].op()] for an element-wise, possibly failing [op]:
    KeyError when the label is absent; with a repeated label every column
    that carries it is converted. *)
Definition convert_column (k : string) (op : value → result value)
    (df : DataFrame) : result DataFrame :=
  if in_columns k df then
    let* rs := mapM (λ r, mapM (λ p : string * value,
                         if bool_decide (p.1 = k) then op p.2 else Ok p.2)
                       (series_of df r)) (rows df) in
    Ok {| columns := columns df; rows := rs |}
  else Raise (KeyError k).

(** ** Casts and the outer join *)

Definition is_int64 (v : value) : bool :=
  match v with
  | VInt z => bool_decide (- 2 ^ 63 ≤ z < 2 ^ 63)%Z
  | _ => false
  end.

Definition is_uint64 (v : value) : bool :=
  match v with
  | VInt z => bool_decide (0 ≤ z < 2 ^ 64)%Z
  | _ => false
  end.

Definition is_numeric (v : value) : bool :=
  match v with VInt _ | VFloat _ => true | _ => false end.

(** A column that holds integers only, all of the int64 range or all of
    the uint64 range, is an integer column (larger integers are kept as
    Python objects); when the join has to put NaN into an integer column,
    pandas turns it into a float64 column. *)
Definition int_column (k : string) (df : DataFrame) : bool :=
  match cells k df with
  | [] => false
  | vs => forallb is_int64 vs || forallb is_uint64 vs
  end.

Definition upcast (v : value) : value :=
  match v with VInt z => VFloat (float_of_int z) | _ => v end.

Definition upcast_ints (df : DataFrame) : DataFrame :=
  {| columns := columns df;
     rows := (λ r, zip_with (λ c v, if int_column c df then upcast v else v)
                            (columns df) r) <$> rows df |}.

(** Where the join key sits: KeyError without a [tx_id] column, ValueError
    when the label is not unique. *)
Definition key_position (df : DataFrame) : result nat :=
  match count_label "tx_id" df, list_find (λ c, c = "tx_id") (columns df) with
  | 1, Some (i, _) => Ok i
  | 0, _ | _, None => Raise (KeyError "tx_id")
  | _, _ => Raise (ValueError "The column label 'tx_id' is not unique.")
  end.

(** The key of a row.  [reconcile] only joins frames whose key column
    [normalize] has cast to str; any other key cell is refused. *)
Definition key_of (i : nat) (r : list value) : result string :=
  match r !! i with
  | Some (VStr s) => Ok s
  | _ => Raise (ValueError "You are trying to merge on str and non-str columns.")
  end.

Definition keyed (i : nat) (df : DataFrame) : result (list (string * list value)) :=
  mapM (λ r, let* k := key_of i r in Ok (k, r)) (rows df).

(** [l.duplicated()]: true at every occurrence of a label but the first. *)
Fixpoint duplicated_from (seen l : list string) : list bool :=
  match l with
  | [] => []
  | c :: l' => bool_decide (c ∈ seen) :: duplicated_from (c :: seen) l'
  end.
Definition duplicated (l : list string) : list bool := duplicated_from [] l.

(** Labels that the suffixes turned into duplicates. *)
Definition suffix_clash (old new : list string) : bool :=
  existsb (λ p : bool * bool, p.1 && negb p.2)
          (zip (duplicated new) (duplicated old)).

Definition suffixed (suffix : string) (others : list string) (c : string) : string :=
  if bool_decide (c ∈ others) then c +:+ suffix else c.

(** The joined rows of one key: the cross product of the rows that carry
    it on either side, or the rows of one side padded with NaN. *)
Definition join_key (iL iR nL nR : nat)
    (L R : list (string * list value)) (k : string) : list (list value) :=
  let ls := labelled k L in
  let rs := labelled k R in
  match ls, rs with
  | [], _ =>
      (λ r, <[iL := VStr k]> (replicate nL NaN) ++ delete iR r
              ++ [VStr "right_only"]) <$> rs
  | _, [] =>
      (λ l, l ++ replicate (nR - 1) NaN ++ [VStr "left_only"]) <$> ls
  | _, _ =>
      l ← ls; (λ r, l ++ delete iR r ++ [VStr "both"]) <$> rs
  end.

(** [pd.merge(L, R, on='tx_id', how='outer',
              suffixes=('_internal', '_gateway'), indicator=True)].
    The keys of the result are the union of the keys of both sides, sorted
    lexicographically. *)
Definition merge (L R : DataFrame) : result DataFrame :=
  let* iL := key_position L in
  let* iR := key_position R in
  let* kL := keyed iL L in
  let* kR := keyed iR R in
  let both_columns := columns L ++ columns R in
  if bool_decide ("_left_indicator" ∈ both_columns)
     || bool_decide ("_right_indicator" ∈ both_columns)
  then Raise (ValueError "Cannot use `indicator=True` option when data contains a column named _left_indicator or _right_indicator")
  else if bool_decide ("_merge" ∈ both_columns)
  then Raise (ValueError "Cannot use name of an existing column for indicator column")
  else
    let Lc := columns L in
    let Rc := delete iR (columns R) in
    let llabels := suffixed "_internal" Rc <$> Lc in
    let rlabels := suffixed "_gateway" Lc <$> Rc in
    if suffix_clash Lc llabels || suffix_clash Rc rlabels
    then Raise (MergeError "Passing 'suffixes' which cause duplicate columns is not allowed.")
    else
      let keys := merge_sort String.le (remove_dups (kL.*1 ++ kR.*1)) in
      let left_missing := bool_decide (Exists (λ k, k ∉ kL.*1) kR.*1) in
      let right_missing := bool_decide (Exists (λ k, k ∉ kR.*1) kL.*1) in
      let L' := if left_missing then upcast_ints L else L in
      let R' := if right_missing then upcast_ints R else R in
      let kL' := zip kL.*1 (rows L') in
      let kR' := zip kR.*1 (rows R') in
      Ok {| columns := llabels ++ rlabels ++ ["_merge"];
            rows := k ← keys;
                    join_key iL iR (length Lc) (length (columns R)) kL' kR' k |}.

(** [merged.apply(classify, axis=1)].  On a frame without rows pandas calls
    the function once on an all-NaN row to learn the shape of the result; if
    that call raises, [apply] hands back a copy of the frame, which cannot be
    stored in a single column. *)
Definition apply_classify (df : DataFrame) : result (list value) :=
  match rows df with
  | [] =>
      match classify (series_of df (replicate (length (columns df)) NaN)) with
      | Ok _ => Ok []
      | Raise _ => Raise (ValueError "Cannot set a DataFrame with multiple columns to the single column discrepancy_type")
      end
  | rs => mapM (λ r, let* c := classify (series_of df r) in Ok (VStr c)) rs
  end.

(** [df[df[k] != v]]: the rows whose cell under [k] differs from [v]. *)
Definition select_ne (k : string) (v : value) (df : DataFrame) : result DataFrame :=
  match count_label k df with
  | 0 => Raise (KeyError k)
  | 1 =>
      Ok {| columns := columns df;
            rows := filter (λ r, Exists (λ c, py_ne c v = true)
                                        (labelled k (series_of df r))) (rows df) |}
  | _ => Raise (ValueError "cannot reindex on an axis with duplicate labels")
  end.

(** [df.empty] *)
Definition frame_empty (df : DataFrame) : bool :=
  bool_decide (rows df = []) || bool_decide (columns df = []).

(** [pd.DataFrame(list_of_series)] for Series that all carry the labels of
    the first one, as the rows collected by [enrich_with_analysis] do.  An
    empty list gives a frame without columns; repeated labels cannot be
    aligned. *)
Definition frame_of_series (l : list Series) : result DataFrame :=
  match l with
  | [] => Ok empty_frame
  | s :: _ =>
      if bool_decide (NoDup s.*1)
      then Ok {| columns := s.*1; rows := (λ r : Series, r.*2) <$> l |}
      else Raise (ValueError "Reindexing only valid with uniquely valued Index objects")
  end.

(** ** The world: the object store and the external collaborators *)

(** Slack Block Kit blocks, as far as [send_slack_alert] builds them. *)
Inductive block :=
| Header (text : string)
| SectionBlock (text : string)
| Divider
| Actions (button_text url : string).

(** The two report artifacts. *)
Inductive file :=
| CsvFile (df : DataFrame)
| JsonFile (records : list Series).

Abbreviation ref := nat (only parsing).

Record world := {
  store : list DataFrame;      (* DataFrame objects, addressed by reference *)
  prompts : list string;       (* calls of client.chat.completions.create *)
  uploads : list string;       (* calls of client.files_upload_v2 *)
  posts : list (list block);   (* calls of client.chat_postMessage *)
  files : gmap string file     (* the files written so far *)
}.

(** Computations that read and change the world and may raise.  The world
    is kept when a computation raises, so that what was sent or written before
    the exception stays visible. *)
Definition M (A : Type) : Type := world → result A * world.

Definition ret {A : Type} (a : A) : M A := λ w, (Ok a, w).

Definition bind {A B : Type} (m : M A) (k : A → M B) : M B := λ w,
  match m w with
  | (Ok a, w') => k a w'
  | (Raise e, w') => (Raise e, w')
  end.

Definition raise {A : Type} (e : exn) : M A := λ w, (Raise e, w).

Definition lift {A : Type} (r : result A) : M A := λ w, (r, w).

(** [try: m  except Exception as e: h e] *)
Definition try_except {A : Type} (m : M A) (h : exn → M A) : M A := λ w,
  match m w with
  | (Ok a, w') => (Ok a, w')
  | (Raise e, w') => h e w'
  end.

Notation "x <- m ;; k" := (bind m (fun x => k))
  (at level 20, m at level 99, k at level 200, only parsing).

(** A new DataFrame object. *)
Definition new_frame (df : DataFrame) : M ref := λ w,
  (Ok (length (store w)),
   {| store := store w ++ [df]; prompts := prompts w; uploads := uploads w;
      posts := posts w; files := files w |}).

(** Reading through a reference. *)
Definition deref (r : ref) : M DataFrame := λ w,
  match store w !! r with
  | Some df => (Ok df, w)
  | None => (Raise (ExternalError "no such object"), w)
  end.

(** Updating the object behind a reference in place. *)
Definition assign (r : ref) (df : DataFrame) : M unit := λ w,
  (Ok tt,
   {| store := <[r := df]> (store w); prompts := prompts w;
      uploads := uploads w; posts := posts w; files := files w |}).

Definition modify (r : ref) (f : DataFrame → result DataFrame) : M unit :=
  df <- deref r ;;
  df' <- lift (f df) ;;
  assign r df'.

(** Writing a report; the [reports] directory is taken to be writable. *)
Definition write_file (path : string) (f : file) : M unit := λ w,
  (Ok tt,
   {| store := store w; prompts := prompts w; uploads := uploads w;
      posts := posts w; files := <[path := f]> (files w) |}).

Definition read_file (path : string) : M file := λ w,
  match files w !! path with
  | Some f => (Ok f, w)
  | None => (Raise (OSError "No such file or directory"), w)
  end.

(** ** The platform: library functions and external collaborators

    What the code takes from outside: the conversions between floats and
    text that Python performs, the process environment and the clock, and the
    answers of the external services. *)

(** What [client.chat.completions.create] followed by
    [response.choices[0].message.content] amounts to. *)
Inductive completion :=
| ApiFailure                 (* the call raises: time-out, quota, bad key *)
| NoChoices                  (* malformed response: [choices] is empty *)
| NoContent                  (* malformed response: [content] is None *)
| Content (text : string).

(** What [client.files_upload_v2] answers. *)
Inductive upload_response :=
| UploadFailure
| Uploaded (url_private : option string).

Record platform := {
  float_of_str : string → option spec_float;   (* float(s); None: ValueError *)
  str_of_float : spec_float → string;          (* str(x) for a float x *)
  str_of_series : list value → string;         (* str(s) for a sub-Series *)
  unicode_lower : string → string;   (* s.lower() for a text that is not ASCII *)
  unicode_strip : string → string;   (* s.strip() for a text that is not ASCII *)
  getenv : string → option string;             (* os.environ *)
  now : string;        (* datetime.now().strftime("%Y-%m-%d_%H%M") *)
  today : string;      (* str(datetime.now().date()) *)
  chat_create : list string → string → completion;
                       (* answer to a prompt, given the earlier prompts *)
  files_upload_v2 : string → upload_response;
  chat_postMessage : list block → bool;        (* false: SlackApiError *)
  read_csv : string → result DataFrame;
  mongo_find : list string → result DataFrame;
                       (* pd.DataFrame(list(collection.find({}, projection))) *)
  read_sql : string → result DataFrame;
  requests_get : string → string → result (Z * DataFrame)
                       (* status code and pd.DataFrame(json["data"]) *)
}.

Definition nl : string := String (ascii_of_nat 10) EmptyString.

Section Engine.

Context (P : platform).

(** [os.getenv(name, default)] *)
Definition getenv_default (name fallback : string) : string :=
  default fallback (getenv P name).

(** Python's [str(o)], as an f-string applies it. *)
Definition py_str (o : pyobj) : string :=
  match o with
  | Scalar (VStr s) => s
  | Scalar (VInt z) => pretty z
  | Scalar (VFloat f) => str_of_float P f
  | Scalar VNone => "None"
  | SubSeries vs => str_of_series P vs
  end.

(** [s.lower()] *)
Definition str_lower (s : string) : string :=
  if isascii s then ascii_lower s else unicode_lower P s.

(** [s.strip()] *)
Definition str_strip (s : string) : string :=
  if isascii s then ascii_strip s else unicode_strip P s.

(** [.astype(str)], element-wise. *)
Definition astype_str (v : value) : result value :=
  Ok (VStr (py_str (Scalar v))).

Definition too_large : exn := OverflowError "int too large to convert to float".

(** [.astype(float)], element-wise; a string that is not a number raises
    ValueError, an integer beyond the range of a float64 raises
    OverflowError, None becomes NaN. *)
Definition astype_float (v : value) : result value :=
  match v with
  | VStr s =>
      match float_of_str P s with
      | Some f => Ok (VFloat f)
      | None => Raise (ValueError "could not convert string to float")
      end
  | VInt z =>
      match float_of_int z with
      | S754_infinity _ => Raise too_large
      | f => Ok (VFloat f)
      end
  | VFloat f => Ok (VFloat f)
  | VNone => Ok NaN
  end.

(** [df[k] = df[k].str.lower()].  The [.str] accessor exists on a single
    column of text only: two columns under one label form a DataFrame, and a
    numeric column has no string methods.  In a text column a cell that is not
    a string becomes NaN, a missing cell stays missing. *)
Definition str_lower_column (k : string) (df : DataFrame) : result DataFrame :=
  match count_label k df with
  | 0 => Raise (KeyError k)
  | 1 =>
      match cells k df with
      | [] => Ok df
      | vs =>
          if forallb is_numeric vs
          then Raise (AttributeError "Can only use .str accessor with string values!")
          else convert_column k
                 (λ v, Ok match v with
                          | VStr s => VStr (str_lower s)
                          | VNone => VNone
                          | _ => NaN
                          end) df
      end
  | _ => Raise (AttributeError "'DataFrame' object has no attribute 'str'")
  end.

(** ** The Normalizer  (recon_engine.py, [normalize]) *)

Definition normalize (df : ref) (source_name : string) : M ref :=
  d <- deref df ;;
  df <- new_frame (rename_with str_lower d) ;;
  d <- deref df ;;
  _ <- (if in_columns "reference" d
        then modify df (λ d, Ok (rename_label "reference" "tx_id" d))
        else ret tt) ;;
  d <- deref df ;;
  _ <- (if in_columns "id" d
        then modify df (λ d, Ok (rename_label "id" "tx_id" d))
        else ret tt) ;;
  _ <- modify df (λ d, Ok (set_scalar "source" (VStr source_name) d)) ;;
  _ <- modify df (convert_column "tx_id" astype_str) ;;
  d <- deref df ;;
  _ <- (if in_columns "amount" d
        then modify df (convert_column "amount" astype_float)
        else ret tt) ;;
  d <- deref df ;;
  _ <- (if in_columns "status" d
        then modify df (str_lower_column "status")
        else ret tt) ;;
  ret df.

(** ** The Enricher  (analyzer.py) *)

Definition rule_based_reason (row : Series) : result string :=
  let mismatch := get row "discrepancy_type" (VStr "") in
  let status_int := get row "status_internal" (VStr "") in
  let status_gw := get row "status_gateway" (VStr "") in
  let amt_int := get row "amount_internal" (VInt 0) in
  let amt_gw := get row "amount_gateway" (VInt 0) in
  let* c := test_eq mismatch (Scalar (VStr "missing_in_gateway")) in
  if c then
    Ok ("Internal record exists but not found in gateway. "
        +:+ "Possible cause: failed API callback, unprocessed webhook, or gateway delay.")
  else
  let* c := test_eq mismatch (Scalar (VStr "missing_in_internal")) in
  if c then
    Ok ("Transaction found in gateway but missing internally. "
        +:+ "Possible cause: failed DB write, timeout after payment success, or system crash.")
  else
  let* c := test_eq mismatch (Scalar (VStr "status_mismatch")) in
  if c then
    Ok ("Status differs (Internal: " +:+ py_str status_int
        +:+ ", Gateway: " +:+ py_str status_gw +:+ "). "
        +:+ "Likely due to delayed webhook update or manual override.")
  else
  let* c := test_eq mismatch (Scalar (VStr "amount_mismatch")) in
  if c then
    Ok ("Amounts differ (Internal: " +:+ py_str amt_int
        +:+ ", Gateway: " +:+ py_str amt_gw +:+ "). "
        +:+ "Possible rounding error, currency conversion issue, or duplicate transaction.")
  else
  let* c := test_eq mismatch (Scalar (VStr "currency_mismatch")) in
  if c then
    Ok ("Currency inconsistency between systems. "
        +:+ "Likely config error or wrong payment channel mapping.")
  else Ok "No issue detected.".

Definition suggested_action (row : Series) : result string :=
  let mismatch := get row "discrepancy_type" (VStr "") in
  let* c := test_eq mismatch (Scalar (VStr "missing_in_gateway")) in
  if c then Ok "Verify if gateway webhook/API callback was received; retry if necessary." else
  let* c := test_eq mismatch (Scalar (VStr "missing_in_internal")) in
  if c then Ok "Re-fetch transaction data from gateway and reinsert into DB." else
  let* c := test_eq mismatch (Scalar (VStr "status_mismatch")) in
  if c then Ok "Sync statuses by calling gateway verify endpoint." else
  let* c := test_eq mismatch (Scalar (VStr "amount_mismatch")) in
  if c then Ok "Escalate to finance for manual review." else
  let* c := test_eq mismatch (Scalar (VStr "currency_mismatch")) in
  if c then Ok "Check currency mapping and payment channel configuration." else
  Ok "No action required.".

(** One call of the text-generation collaborator: the prompt is sent, and
    the content of the first choice comes back stripped. *)
Definition chat (prompt : string) : M string := λ w,
  let w' := {| store := store w; prompts := prompts w ++ [prompt];
               uploads := uploads w; posts := posts w; files := files w |} in
  match chat_create P (prompts w) prompt with
  | ApiFailure => (Raise (ExternalError "chat.completions.create failed"), w')
  | NoChoices => (Raise (ExternalError "list index out of range"), w')
  | NoContent => (Raise (AttributeError "'NoneType' object has no attribute 'strip'"), w')
  | Content text => (Ok (str_strip text), w')
  end.

Definition ai_prompt (row : Series) : result string :=
  let* tx_id := getitem row "tx_id" in
  let* discrepancy_type := getitem row "discrepancy_type" in
  Ok ("You are a fintech reconciliation assistant. Analyze the following discrepancy:"
      +:+ nl +:+ nl
      +:+ "Transaction ID: " +:+ py_str tx_id +:+ nl
      +:+ "Discrepancy Type: " +:+ py_str discrepancy_type +:+ nl
      +:+ "Internal Data: amount=" +:+ py_str (get row "amount_internal" VNone)
      +:+ ", status=" +:+ py_str (get row "status_internal" VNone) +:+ nl
      +:+ "Gateway Data: amount=" +:+ py_str (get row "amount_gateway" VNone)
      +:+ ", status=" +:+ py_str (get row "status_gateway" VNone) +:+ nl +:+ nl
      +:+ "Explain clearly why this might have happened and what action should be taken.").

Definition ai_unavailable : string :=
  "AI explanation unavailable (check API key or rate limit).".

Definition ai_explanation (row : Series) : M string :=
  try_except
    (d <- lift (getitem row "discrepancy_type") ;;
     is_matched <- lift (test_eq d (Scalar (VStr "matched"))) ;;
     if is_matched then ret "Transaction is consistent across systems." else
     prompt <- lift (ai_prompt row) ;;
     chat prompt)
    (λ _, ret ai_unavailable).

Definition ai_limit : nat := 5.

(** The flag [use_ai] that [enrich_with_analysis] reads from the
    environment. *)
Definition use_ai : bool :=
  bool_decide (str_lower (getenv_default "USE_AI" "False") = "true").

(** The body of the loop over [df.iterrows()]; [i] is the index label of
    the row, its position under the default index, and [row] is a Series of
    its own, so that writing to it does not reach the frame. *)
Definition enrich_row (i : nat) (row : Series) : M Series :=
  reason <- lift (rule_based_reason row) ;;
  let row := setitem row "probable_reason" (VStr reason) in
  action <- lift (suggested_action row) ;;
  let row := setitem row "suggested_action" (VStr action) in
  if negb use_ai then
    ret (setitem row "ai_explanation" (VStr "AI analysis skipped (USE_AI=False)."))
  else if (ai_limit <=? i) then
    ret (setitem row "ai_explanation" (VStr "Skipped AI analysis (limit reached)."))
  else
    text <- try_except (ai_explanation row)
              (λ _, ret "AI explanation unavailable due to quota or timeout.") ;;
    ret (setitem row "ai_explanation" (VStr text)).

Fixpoint enrich_rows (i : nat) (rs : list Series) : M (list Series) :=
  match rs with
  | [] => ret []
  | row :: rs' =>
      row' <- enrich_row i row ;;
      rest <- enrich_rows (S i) rs' ;;
      ret (row' :: rest)
  end.

Definition enrich_with_analysis (df : ref) : M ref :=
  d <- deref df ;;
  enriched_rows <- enrich_rows 0 (series_of d <$> rows d) ;;
  enriched_df <- lift (frame_of_series enriched_rows) ;;
  new_frame enriched_df.

(** ** The Report Writer  (recon_engine.py, [save_report]) *)

(** [json.loads(df.to_json(orient="records"))]: one object per row; NaN and
    the infinities are written as null.  Records need unique column
    labels.  (The rounding of floats to ten decimals that [to_json] performs
    is left out.) *)
Definition json_value (v : value) : value :=
  match v with
  | VFloat (S754_nan) | VFloat (S754_infinity _) => VNone
  | _ => v
  end.

Definition to_json_records (df : DataFrame) : result (list Series) :=
  if bool_decide (NoDup (columns df))
  then Ok ((λ r, (λ p : string * value, (p.1, json_value p.2)) <$> series_of df r)
             <$> rows df)
  else Raise (ValueError "DataFrame columns must be unique for orient='records'.").

Definition csv_path (timestamp : string) : string :=
  "reports/reconciliation_report_" +:+ timestamp +:+ ".csv".

Definition json_path (timestamp : string) : string :=
  "reports/reconciliation_report_" +:+ timestamp +:+ ".json".

Definition save_report (df : ref) (timestamp : string) : M unit :=
  df <- enrich_with_analysis df ;;
  d <- deref df ;;
  _ <- write_file (csv_path timestamp) (CsvFile d) ;;
  data <- lift (to_json_records d) ;;
  write_file (json_path timestamp) (JsonFile data).

(** ** The notifier  (notifier/slack_notifier.py) *)

(** [d.get(k, default)] on a JSON object. *)
Definition dict_get (d : Series) (k : string) (fallback : value) : value :=
  default fallback ((λ x, x.2.2) <$> list_find (λ p, p.1 = k) d).

(** Python truthiness of an optional string: None and the empty string are
    false. *)
Definition truthy (s : option string) : bool :=
  match s with
  | None | Some EmptyString => false
  | Some _ => true
  end.

(** The flag of slack_notifier.py. *)
Definition notifier_USE_SLACK : bool :=
  bool_decide (str_lower (getenv_default "USE_SLACK" "False") = "true").

Definition upload (path : string) : M (option string) := λ w,
  let w' := {| store := store w; prompts := prompts w;
               uploads := uploads w ++ [path]; posts := posts w;
               files := files w |} in
  match files_upload_v2 P path with
  | UploadFailure => (Raise (ExternalError "SlackApiError"), w')
  | Uploaded url => (Ok url, w')
  end.

Definition post (blocks : list block) : M unit := λ w,
  let w' := {| store := store w; prompts := prompts w; uploads := uploads w;
               posts := posts w ++ [blocks]; files := files w |} in
  if chat_postMessage P blocks then (Ok tt, w')
  else (Raise (ExternalError "SlackApiError"), w').

Definition item_blocks (item : Series) : list block :=
  let tx_id := dict_get item "tx_id" VNone in
  let disc := dict_get item "discrepancy_type" VNone in
  let reason := dict_get item "probable_reason" (VStr "N/A") in
  let suggestion := dict_get item "suggested_action" (VStr "N/A") in
  let internal_status := dict_get item "status_internal" (VStr "N/A") in
  let gateway_status := dict_get item "status_gateway" (VStr "N/A") in
  [SectionBlock
     ("*Transaction:* `" +:+ py_str (Scalar tx_id) +:+ "`" +:+ nl
      +:+ "→ *Type:* " +:+ py_str (Scalar disc) +:+ nl
      +:+ "→ *Internal:* `" +:+ py_str (Scalar internal_status)
      +:+ "` | *Gateway:* `" +:+ py_str (Scalar gateway_status) +:+ "`" +:+ nl
      +:+ "→ *Reason:* " +:+ py_str (Scalar reason) +:+ nl
      +:+ "→ *Suggestion:* " +:+ py_str (Scalar suggestion) +:+ nl);
   Divider].

Definition send_slack_alert (summary : string) (json_path : string) : M unit :=
  if negb notifier_USE_SLACK then ret tt else
  if negb (truthy (getenv P "SLACK_BOT_TOKEN")) then ret tt else
  if negb (truthy (getenv P "SLACK_CHANNEL_ID")) then ret tt else
  try_except
    (f <- read_file json_path ;;
     data <- lift (match f with
                   | JsonFile data => Ok data
                   | CsvFile _ => Raise (ValueError "JSONDecodeError")
                   end) ;;
     let discrepancies :=
       filter (λ d, py_ne (dict_get d "discrepancy_type" VNone) (VStr "matched") = true)
              data in
     match discrepancies with
     | [] => ret tt
     | _ =>
         file_url <- upload json_path ;;
         let blocks :=
           [Header ("🧾 Fintech Reconciliation Report (" +:+ today P +:+ ")");
            SectionBlock ("*⚠️ Discrepancies detected:* "
                          +:+ pretty (length discrepancies));
            Divider]
           ++ (item ← discrepancies; item_blocks item)
           ++ [if truthy file_url
               then Actions "📥 Download Full Report" (default "" file_url)
               else SectionBlock "📎 Full report saved locally in `reports/` folder."] in
         post blocks
     end)
    (λ _, ret tt).

(** ** The engine  (recon_engine.py, [reconcile]) *)

(** The flag of recon_engine.py. *)
Definition USE_SLACK : bool :=
  bool_decide (str_lower (getenv_default "USE_SLACK" "False") ∈ ["true"; "1"; "yes"]).

Definition summary_line (row : Series) : result string :=
  let* tx_id := getitem row "tx_id" in
  let* discrepancy_type := getitem row "discrepancy_type" in
  Ok ("• `" +:+ py_str tx_id +:+ "` → *" +:+ py_str discrepancy_type +:+ "*" +:+ nl
      +:+ "   ├ Reason: " +:+ py_str (get row "probable_reason" (VStr "N/A")) +:+ nl
      +:+ "   ├ Suggestion: " +:+ py_str (get row "suggested_action" (VStr "N/A")) +:+ nl
      +:+ "   └ Status → Internal: " +:+ py_str (get row "status_internal" (VStr "N/A"))
      +:+ " | Gateway: " +:+ py_str (get row "status_gateway" (VStr "N/A"))
      +:+ nl +:+ nl).

Definition reconcile (df_internal df_gateway : ref) : M ref :=
  df_internal <- normalize df_internal "internal" ;;
  df_gateway <- normalize df_gateway "gateway" ;;
  L <- deref df_internal ;;
  R <- deref df_gateway ;;
  m <- lift (merge L R) ;;
  merged <- new_frame m ;;
  _ <- modify merged (λ d, let* col := apply_classify d in
                           Ok (set_column "discrepancy_type" col d)) ;;
  d <- deref merged ;;
  r <- lift (drop_column "_merge" d) ;;
  result <- new_frame r ;;
  let timestamp := now P in
  _ <- save_report result timestamp ;;
  d <- deref result ;;
  disc <- lift (select_ne "discrepancy_type" (VStr "matched") d) ;;
  discrepancies <- new_frame disc ;;
  _ <- (if negb (frame_empty disc) && USE_SLACK then
          let summary :=
            "🧾 *Fintech Reconciliation Report (" +:+ today P +:+ ")*" +:+ nl
            +:+ "⚠️ Discrepancies detected: " +:+ pretty (length (rows disc))
            +:+ nl +:+ nl in
          lines <- lift (mapM (λ r, summary_line (series_of disc r)) (rows disc)) ;;
          let summary := summary +:+ String.concat "" lines in
          let summary := summary +:+ "📎 Full report saved as `"
                         +:+ json_path timestamp +:+ "`" in
          send_slack_alert summary (json_path timestamp)
        else ret tt) ;;
  ret result.

(** ** Configuration  (config.py) *)

Definition INTERNAL_MODE : string := getenv_default "INTERNAL_MODE" "mock".
Definition GATEWAY_MODE : string := getenv_default "GATEWAY_MODE" "mock".
Definition INTERNAL_DATA_PATH : string := "data/internal_transactions.csv".
Definition GATEWAY_DATA_PATH : string := "data/gateway_transactions.csv".
Definition PAYSTACK_API_URL : string :=
  getenv_default "PAYSTACK_API_URL" "https://api.paystack.co/transaction".
Definition PAYSTACK_SECRET : string := getenv_default "PAYSTACK_SECRET" "sk_test_dummy".
Definition STRIPE_API_URL : string :=
  getenv_default "STRIPE_API_URL" "https://api.stripe.com/v1/charges".
Definition STRIPE_SECRET_KEY : string := getenv_default "STRIPE_SECRET_KEY" "sk_test_dummy".

Definition GATEWAY_MAPPINGS : list (string * list (string * string)) :=
  [("paystack", [("id", "tx_id"); ("amount", "amount"); ("status", "status");
                 ("currency", "currency"); ("created_at", "created_at")]);
   ("stripe", [("id", "tx_id"); ("amount", "amount"); ("status", "status");
               ("currency", "currency"); ("created", "created_at")])].

Definition INTERNAL_FIELD_MAPPING : list (string * string) :=
  [("transaction_id", "tx_id"); ("amount_value", "amount"); ("status", "status");
   ("currency_code", "currency"); ("created_on", "created_at")].

(** ** The loaders  (data_loader.py) *)

Definition normalize_internal_data (df : ref) : M ref :=
  match INTERNAL_FIELD_MAPPING with
  | [] => ret df
  | mapping => d <- deref df ;; new_frame (rename_by mapping d)
  end.

Definition load_internal_data : M ref :=
  if bool_decide (INTERNAL_MODE = "mock") then
    d <- lift (read_csv P INTERNAL_DATA_PATH) ;;
    df <- new_frame d ;;
    normalize_internal_data df
  else if bool_decide (INTERNAL_MODE = "mongo") then
    let projection := INTERNAL_FIELD_MAPPING.*1 in
    d <- lift (mongo_find P projection) ;;
    df <- new_frame d ;;
    normalize_internal_data df
  else if bool_decide (INTERNAL_MODE = "sql") then
    let selected_fields := String.concat ", " INTERNAL_FIELD_MAPPING.*1 in
    let query := "SELECT " +:+ selected_fields +:+ " FROM transactions" in
    d <- lift (read_sql P query) ;;
    df <- new_frame d ;;
    normalize_internal_data df
  else
    new_frame empty_frame.

Definition normalize_gateway_data (df : ref) (gateway_name : string) : M ref :=
  match default [] ((λ x, x.2.2) <$> list_find (λ p, p.1 = gateway_name) GATEWAY_MAPPINGS) with
  | [] => ret df
  | mapping => d <- deref df ;; new_frame (rename_by mapping d)
  end.

(** [.astype(float) / 100], element-wise *)
Definition hundredth (v : value) : result value :=
  let* x := astype_float v in
  match x with
  | VFloat f => Ok (VFloat (SFdiv prec64 emax64 f (float_of_int 100)))
  | _ => Ok x
  end.

Definition fetch_gateway (url secret gateway_name : string) : M ref :=
  response <- lift (requests_get P url ("Bearer " +:+ secret)) ;;
  if negb (response.1 =? 200)%Z then new_frame empty_frame else
  df <- new_frame response.2 ;;
  df <- normalize_gateway_data df gateway_name ;;
  d <- deref df ;;
  _ <- (if in_columns "amount" d
        then modify df (convert_column "amount" hundredth)
        else ret tt) ;;
  ret df.

Definition load_gateway_data : M ref :=
  if bool_decide (GATEWAY_MODE = "mock") then
    d <- lift (read_csv P GATEWAY_DATA_PATH) ;;
    new_frame d
  else if bool_decide (GATEWAY_MODE = "paystack") then
    fetch_gateway PAYSTACK_API_URL PAYSTACK_SECRET "paystack"
  else if bool_decide (GATEWAY_MODE = "stripe") then
    fetch_gateway STRIPE_API_URL STRIPE_SECRET_KEY "stripe"
  else
    new_frame empty_frame.

(** ** The entry point  (main.py) *)

(** What a run reports: the totals it prints, or the one-line error. *)
Inductive outcome :=
| Summary (total mismatches : nat)
| Failed (e : exn).

Definition main : M outcome :=
  try_except
    (df_internal <- load_internal_data ;;
     df_gateway <- load_gateway_data ;;
     result <- reconcile df_internal df_gateway ;;
     d <- deref result ;;
     _ <- (if in_columns "discrepancy_type" d then ret tt
           else raise (KeyError "discrepancy_type")) ;;
     let total := length (rows d) in
     let matched :=
       length (filter (λ v, v = VStr "matched") (cells "discrepancy_type" d)) in
     ret (Summary total (total - matched)))
    (λ e, ret (Failed e)).

End Engine.

(** ** The classification rules, as the specification words them *)

Inductive category :=
| MissingInGateway
| MissingInInternal
| AmountMismatch
| StatusMismatch
| CurrencyMismatch
| Matched.

Definition category_name (c : category) : string :=
  match c with
  | MissingInGateway => "missing_in_gateway"
  | MissingInInternal => "missing_in_internal"
  | AmountMismatch => "amount_mismatch"
  | StatusMismatch => "status_mismatch"
  | CurrencyMismatch => "currency_mismatch"
  | Matched => "matched"
  end.

(** The row has exactly one field [k], and it holds [v]. *)
Definition field (row : Series) (k : string) (v : value) : Prop :=
  labelled k row = [v].

Definition has_field (row : Series) (k : string) : Prop :=
  ∃ v, field row k v.

Definition internal_only (row : Series) : Prop := field row "_merge" (VStr "left_only").
Definition gateway_only (row : Series) : Prop := field row "_merge" (VStr "right_only").
Definition both_sides (row : Series) : Prop := field row "_merge" (VStr "both").

(** A joined record: a mapping from distinct field names to values that
    carries its provenance and, when both sides are present, the amount and
    the status of either side. *)
Definition joined_row (row : Series) : Prop :=
  NoDup row.*1 ∧
  (internal_only row ∨ gateway_only row ∨
   (both_sides row ∧
    has_field row "amount_internal" ∧ has_field row "amount_gateway" ∧
    has_field row "status_internal" ∧ has_field row "status_gateway")).

(** The two sides disagree on a field; a field that the record lacks counts
    as None. *)
Definition disagree (row : Series) (name : string) : Prop :=
  ∃ a b, get row (name +:+ "_internal") VNone = Scalar a ∧
         get row (name +:+ "_gateway") VNone = Scalar b ∧
         py_ne a b = true.

(** Modelled after the precedence list of the specification (first match
    wins), to be compared with [classify]. *)
Inductive classified (row : Series) : category → Prop :=
| classified_missing_in_gateway :
    internal_only row → classified row MissingInGateway
| classified_missing_in_internal :
    gateway_only row → classified row MissingInInternal
| classified_amount :
    both_sides row → disagree row "amount" → classified row AmountMismatch
| classified_status :
    both_sides row → ¬ disagree row "amount" → disagree row "status" →
    classified row StatusMismatch
| classified_currency :
    both_sides row → ¬ disagree row "amount" → ¬ disagree row "status" →
    disagree row "currency" → classified row CurrencyMismatch
| classified_matched :
    both_sides row → ¬ disagree row "amount" → ¬ disagree row "status" →
    ¬ disagree row "currency" → classified row Matched.

(** ** Sample data for the examples *)

(** A platform with fixed answers: no text converts to a float, every
    number prints as [1.0], the services accept every call, and no data
    source is reachable. *)
Definition sample_platform (env : list (string * string)) (answer : completion)
    : platform := {|
  float_of_str := λ _, None;
  str_of_float := λ f, match f with S754_nan => "nan" | _ => "1.0" end;
  str_of_series := λ _, "Series";
  unicode_lower := λ s, s;
  unicode_strip := λ s, s;
  getenv := λ k, (λ x, x.2.2) <$> list_find (λ p, p.1 = k) env;
  now := "2025-01-01_0000";
  today := "2025-01-01";
  chat_create := λ _ _, answer;
  files_upload_v2 := λ _, Uploaded (Some "https://files.example/report");
  chat_postMessage := λ _, true;
  read_csv := λ _, Raise (OSError "No such file or directory");
  mongo_find := λ _, Raise (ExternalError "ServerSelectionTimeoutError");
  read_sql := λ _, Raise (ExternalError "OperationalError");
  requests_get := λ _ _, Raise (ExternalError "ConnectionError")
|}.

Definition initial_world (frames : list DataFrame) : world :=
  {| store := frames; prompts := []; uploads := []; posts := []; files := ∅ |}.

(** A record present on both sides whose amount is missing on both. *)
Definition row_without_amounts : Series :=
  [("tx_id", VStr "A");
   ("amount_internal", NaN); ("status_internal", VStr "success");
   ("amount_gateway", NaN); ("status_gateway", VStr "success");
   ("_merge", VStr "both")].

(** A record present on both sides that agrees on every field. *)
Definition row_agreeing : Series :=
  [("tx_id", VStr "A");
   ("amount_internal", VFloat (float_of_int 100)); ("status_internal", VStr "success");
   ("amount_gateway", VFloat (float_of_int 100)); ("status_gateway", VStr "success");
   ("_merge", VStr "both")].

(** ** What the Enricher does to one record, case by case *)

Definition add_prompts (w : world) (ps : list string) : world :=
  {| store := store w; prompts := prompts w ++ ps; uploads := uploads w;
     posts := posts w; files := files w |}.

Definition ai_skipped : string := "AI analysis skipped (USE_AI=False).".
Definition ai_limit_reached : string := "Skipped AI analysis (limit reached).".
Definition ai_consistent : string := "Transaction is consistent across systems.".

(** The record is classified matched. *)
Definition is_matched (row : Series) : Prop :=
  field row "discrepancy_type" (VStr "matched").

(** [ai_step P i row history text ps]: the record at position [i] receives
    the explanation [text], and the prompts [ps] are sent to the collaborator,
    whose earlier prompts were [history].  AI enrichment is off; or the record
    lies beyond the cap; or it is matched; or its prompt cannot be built; or
    the call fails; or the collaborator answers. *)
Inductive ai_step (P : platform) (i : nat) (row : Series) (history : list string)
    : string → list string → Prop :=
| ai_step_disabled :
    use_ai P = false → ai_step P i row history ai_skipped []
| ai_step_capped :
    use_ai P = true → ai_limit ≤ i → ai_step P i row history ai_limit_reached []
| ai_step_matched :
    use_ai P = true → i < ai_limit → is_matched row →
    ai_step P i row history ai_consistent []
| ai_step_no_prompt e :
    use_ai P = true → i < ai_limit → ¬ is_matched row →
    ai_prompt P row = Raise e →
    ai_step P i row history ai_unavailable []
| ai_step_failed prompt :
    use_ai P = true → i < ai_limit → ¬ is_matched row →
    ai_prompt P row = Ok prompt →
    (∀ t, chat_create P history prompt ≠ Content t) →
    ai_step P i row history ai_unavailable [prompt]
| ai_step_answered prompt t :
    use_ai P = true → i < ai_limit → ¬ is_matched row →
    ai_prompt P row = Ok prompt →
    chat_create P history prompt = Content t →
    ai_step P i row history (str_strip P t) [prompt].

(** A record with its three enrichment fields. *)
Definition enriched_row (row : Series) (reason action text : string) : Series :=
  setitem (setitem (setitem row "probable_reason" (VStr reason))
                   "suggested_action" (VStr action))
          "ai_explanation" (VStr text).

(** The loop of [enrich_with_analysis], record by record. *)
Inductive enriched (P : platform) : nat → list Series → list string →
    list Series → list string → Prop :=
| enriched_nil i history : enriched P i [] history [] []
| enriched_cons i row rs history reason action text ps rs' ps' :
    ai_step P i row history text ps →
    enriched P (S i) rs (history ++ ps) rs' ps' →
    enriched P i (row :: rs) history
             (enriched_row row reason action text :: rs') (ps ++ ps').

Global Instance is_matched_dec row : Decision (is_matched row).
Proof. unfold is_matched, field. apply _. Defined.

(** The first [n] records of a frame. *)
Definition head_rows (n : nat) (df : DataFrame) : DataFrame :=
  {| columns := columns df; rows := take n (rows df) |}.

(** Six matched records followed by one amount mismatch, as the Enricher
    receives them. *)
Definition matched_record (tx_id : string) : list value :=
  [VStr tx_id; VFloat (float_of_int 100); VFloat (float_of_int 100); VStr "matched"].

Definition six_matched_one_mismatch : DataFrame :=
  {| columns := ["tx_id"; "amount_internal"; "amount_gateway"; "discrepancy_type"];
     rows := [matched_record "A"; matched_record "B"; matched_record "C";
              matched_record "D"; matched_record "E"; matched_record "F";
              [VStr "G"; VFloat (float_of_int 100); VFloat (float_of_int 95);
               VStr "amount_mismatch"]] |}.

(** A platform with AI enrichment enabled and a collaborator that answers. *)
Definition ai_platform : platform :=
  sample_platform [("USE_AI", "true")] (Content "Please check the webhook log.").

(** A platform with AI enrichment enabled and a collaborator that is down. *)
Definition failing_ai_platform : platform :=
  sample_platform [("USE_AI", "true")] ApiFailure.

(** ** Frame conditions on computations *)

(** [unchanged proj m]: running [m] leaves the part [proj] of the world as
    it is, however the run ends. *)
Definition unchanged {X A : Type} (proj : world → X) (m : M A) : Prop :=
  ∀ w, proj (m w).2 = proj w.

(** What has been handed to Slack. *)
Definition slack_calls (w : world) : list string * list (list block) :=
  (uploads w, posts w).

(** [silent m]: running [m] hands nothing to Slack. *)
Definition silent {A : Type} (m : M A) : Prop := unchanged slack_calls m.

Definition set_store (s : list DataFrame) (w : world) : world :=
  {| store := s; prompts := prompts w; uploads := uploads w;
     posts := posts w; files := files w |}.

(** A part of the world that does not look at the object store. *)
Definition store_blind {X : Type} (proj : world → X) : Prop :=
  ∀ s w, proj (set_store s w) = proj w.

(** [keeps n m]: running [m] leaves the first [n] objects of the store as
    they are. *)
Definition keeps (n : nat) {A : Type} (m : M A) : Prop :=
  ∀ w, n ≤ length (store w) →
       take n (store (m w).2) = take n (store w) ∧ n ≤ length (store (m w).2).



(** The record of the specification's first scenario, before
    normalization. *)
Definition usd_record : DataFrame :=
  {| columns := ["tx_id"; "amount"; "status"; "currency"];
     rows := [[VStr "A"; VInt 100; VStr "success"; VStr "USD"]] |}.

(** A platform with Slack alerts switched on and fully configured. *)
Definition slack_platform : platform :=
  sample_platform [("USE_SLACK", "true"); ("SLACK_BOT_TOKEN", "xoxb-sample");
                   ("SLACK_CHANNEL_ID", "C0SAMPLE")] ApiFailure.

(** ** Record sets ready for the join *)

(** The keys of a record set: the contents of its one [tx_id] column, all
    strings, in row order. *)
Definition keys_of (df : DataFrame) (ks : list string) : Prop :=
  ∃ i kr, key_position df = Ok i ∧ keyed i df = Ok kr ∧ kr.*1 = ks.

(** The columns of the right-hand side that are not the key. *)
Definition other_columns (df : DataFrame) : list string :=
  match key_position df with
  | Ok i => delete i (columns df)
  | Raise _ => columns df
  end.

(** The two record sets do not use the column names that the join reserves,
    and the suffixes do not turn two of their columns into one name. *)
Definition mergeable (L R : DataFrame) : Prop :=
  "_left_indicator" ∉ columns L ++ columns R ∧
  "_right_indicator" ∉ columns L ++ columns R ∧
  "_merge" ∉ columns L ++ columns R ∧
  suffix_clash (columns L)
    (suffixed "_internal" (other_columns R) <$> columns L) = false ∧
  suffix_clash (other_columns R)
    (suffixed "_gateway" (columns L) <$> other_columns R) = false.

(** The rows of one side with their keys: every row has [n] cells and
    shows its key at position [i]. *)
Definition side_ok (i n : nat) (side : list (string * list value)) : Prop :=
  Forall (λ p, p.2 !! i = Some (VStr p.1) ∧ length p.2 = n) side.

(** The record carries the transaction key [k]. *)
Definition has_key (m : DataFrame) (k : string) (r : list value) : Prop :=
  field (series_of m r) "tx_id" (VStr k).

Global Instance has_key_dec m k r : Decision (has_key m k r).
Proof. unfold has_key, field. apply _. Defined.

(** Two normalized record sets: keys B, A on the internal side and C, A on
    the gateway side. *)
Definition normalized_internal : DataFrame :=
  {| columns := ["tx_id"; "amount"; "status"; "source"];
     rows := [[VStr "B"; VFloat (float_of_int 50); VStr "success"; VStr "internal"];
              [VStr "A"; VFloat (float_of_int 100); VStr "success"; VStr "internal"]] |}.

Definition normalized_gateway : DataFrame :=
  {| columns := ["tx_id"; "amount"; "status"; "source"];
     rows := [[VStr "C"; VFloat (float_of_int 95); VStr "success"; VStr "gateway"];
              [VStr "A"; VFloat (float_of_int 100); VStr "pending"; VStr "gateway"]] |}.

(** A gateway record set as the mock CSV delivers it. *)
Definition gateway_csv : DataFrame :=
  {| columns := ["tx_id"; "amount"; "status"];
     rows := [[VStr "B"; VInt 50; VStr "success"]] |}.

(** A platform whose internal mode is not one of mock, mongo, sql, and whose
    gateway CSV holds one record. *)
Definition unsupported_mode_platform : platform := {|
  float_of_str := λ _, None;
  str_of_float := λ _, "1.0";
  str_of_series := λ _, "Series";
  unicode_lower := λ s, s;
  unicode_strip := λ s, s;
  getenv := λ k, if bool_decide (k = "INTERNAL_MODE") then Some "csv" else None;
  now := "2025-01-01_0000";
  today := "2025-01-01";
  chat_create := λ _ _, ApiFailure;
  files_upload_v2 := λ _, UploadFailure;
  chat_postMessage := λ _, false;
  read_csv := λ path, if bool_decide (path = "data/gateway_transactions.csv")
                      then Ok gateway_csv
                      else Raise (OSError "No such file or directory");
  mongo_find := λ _, Raise (ExternalError "ServerSelectionTimeoutError");
  read_sql := λ _, Raise (ExternalError "OperationalError");
  requests_get := λ _ _, Raise (ExternalError "ConnectionError")
|}.

(** A raw record set that has both a [reference] and an [id] field. *)
Definition reference_and_id : DataFrame :=
  {| columns := ["reference"; "id"; "amount"; "status"];
     rows := [[VStr "REF-1"; VInt 17; VInt 100; VStr "success"]] |}.

(** The column labels that [normalize] leaves: lower-cased, [reference]
    renamed to [tx_id], then [id] renamed to [tx_id], and [source] added. *)
Definition normalized_columns (P : platform) (cols : list string) : list string :=
  let c1 := str_lower P <$> cols in
  let c2 := if bool_decide ("reference" ∈ c1)
            then (λ c, if bool_decide (c = "reference") then "tx_id" else c) <$> c1
            else c1 in
  let c3 := if bool_decide ("id" ∈ c2)
            then (λ c, if bool_decide (c = "id") then "tx_id" else c) <$> c2
            else c2 in
  if bool_decide ("source" ∈ c3) then c3 else c3 ++ ["source"].

(** ** Further notions and sample data *)

(** The five categories that the rule tables of analyzer.py test for. *)
Definition mismatch_categories : list value :=
  [VStr "missing_in_gateway"; VStr "missing_in_internal"; VStr "status_mismatch";
   VStr "amount_mismatch"; VStr "currency_mismatch"].

(** A record present on both sides, one of whose compared fields is
    missing (NaN) on either side. *)
Definition missing_value (row : Series) : Prop :=
  ∃ k, k ∈ ["amount_internal"; "amount_gateway"; "status_internal";
            "status_gateway"; "currency_internal"; "currency_gateway"] ∧
       field row k NaN.

(** A record that agrees on amount and status and whose currency cell is
    blank on both sides. *)
Definition row_blank_currency : Series :=
  [("tx_id", VStr "A");
   ("amount_internal", VFloat (float_of_int 100)); ("status_internal", VStr "success");
   ("currency_internal", NaN);
   ("amount_gateway", VFloat (float_of_int 100)); ("status_gateway", VStr "success");
   ("currency_gateway", NaN);
   ("_merge", VStr "both")].

(** A header without records. *)
Definition header_only : DataFrame :=
  {| columns := ["tx_id"; "amount_internal"; "amount_gateway"; "discrepancy_type"];
     rows := [] |}.

(** The non-matched records of a report, as [send_slack_alert] selects
    them. *)
Definition report_discrepancies (data : list Series) : list Series :=
  filter (λ d, py_ne (dict_get d "discrepancy_type" VNone) (VStr "matched") = true)
         data.

(** A report on disk that holds one matched record and one mismatch. *)
Definition report_with_mismatch : list Series :=
  [[("tx_id", VStr "A"); ("discrepancy_type", VStr "matched")];
   [("tx_id", VStr "B"); ("discrepancy_type", VStr "amount_mismatch")]].

(** A world in which that report has been written. *)
Definition world_with_report : world :=
  {| store := []; prompts := []; uploads := []; posts := [];
     files := {["reports/r.json" := JsonFile report_with_mismatch]} |}.

(** The identifier columns that [normalize] knows. *)
Definition has_identifier (P : platform) (d : DataFrame) : Prop :=
  Exists (λ c, c ∈ ["tx_id"; "reference"; "id"]) (str_lower P <$> columns d).

(** A raw record set with capitals in its header and in its statuses. *)
Definition raw_internal : DataFrame :=
  {| columns := ["Reference"; "Amount"; "Status"];
     rows := [[VStr "A"; VInt 100; VStr "SUCCESS"];
              [VInt 17; VFloat (float_of_int 50); VStr "Pending"]] |}.

(** A record set whose identifier column has a name that [normalize]
    does not know. *)
Definition unidentified_records : DataFrame :=
  {| columns := ["Transaction"; "Amount"];
     rows := [[VStr "A"; VInt 100]] |}.

(** [GATEWAY_MAPPINGS.get(gateway_name, {})] *)
Definition gateway_mapping (gateway_name : string) : list (string * string) :=
  default [] ((λ x, x.2.2) <$> list_find (λ p, p.1 = gateway_name) GATEWAY_MAPPINGS).

(** Two charges as the Paystack API delivers them, in kobo. *)
Definition paystack_body : DataFrame :=
  {| columns := ["id"; "amount"; "status"; "currency"];
     rows := [[VInt 1001; VInt 250000; VStr "success"; VStr "NGN"];
              [VInt 1002; VInt 99; VStr "failed"; VStr "NGN"]] |}.

(** A platform in gateway mode paystack whose API answers 200 with these
    charges. *)
Definition paystack_platform : platform := {|
  float_of_str := λ _, None;
  str_of_float := λ _, "1.0";
  str_of_series := λ _, "Series";
  unicode_lower := λ s, s;
  unicode_strip := λ s, s;
  getenv := λ k, if bool_decide (k = "GATEWAY_MODE") then Some "paystack" else None;
  now := "2025-01-01_0000";
  today := "2025-01-01";
  chat_create := λ _ _, ApiFailure;
  files_upload_v2 := λ _, UploadFailure;
  chat_postMessage := λ _, false;
  read_csv := λ _, Raise (OSError "No such file or directory");
  mongo_find := λ _, Raise (ExternalError "ServerSelectionTimeoutError");
  read_sql := λ _, Raise (ExternalError "OperationalError");
  requests_get := λ _ _, Ok (200%Z, paystack_body)
|}.

(** The provenance that the join records for a key. *)
Definition provenance (ksL ksR : list string) (k : string) : string :=
  if bool_decide (k ∈ ksL)
  then if bool_decide (k ∈ ksR) then "both" else "left_only"
  else "right_only".

(** The gateway loader has nothing to hand over: the mode is none of mock,
    paystack, stripe, or the call of the provider's API did not answer
    200. *)
Definition gateway_unavailable (P : platform) : Prop :=
  GATEWAY_MODE P ∉ ["mock"; "paystack"; "stripe"] ∨
  (GATEWAY_MODE P = "paystack" ∧
   ∃ code body, requests_get P (PAYSTACK_API_URL P) ("Bearer " +:+ PAYSTACK_SECRET P)
                = Ok (code, body) ∧ code ≠ 200%Z) ∨
  (GATEWAY_MODE P = "stripe" ∧
   ∃ code body, requests_get P (STRIPE_API_URL P) ("Bearer " +:+ STRIPE_SECRET_KEY P)
                = Ok (code, body) ∧ code ≠ 200%Z).

(** A platform whose internal CSV holds one record and whose Paystack API
    refuses the key. *)
Definition refused_paystack_platform : platform := {|
  float_of_str := λ _, None;
  str_of_float := λ _, "1.0";
  str_of_series := λ _, "Series";
  unicode_lower := λ s, s;
  unicode_strip := λ s, s;
  getenv := λ k, if bool_decide (k = "GATEWAY_MODE") then Some "paystack" else None;
  now := "2025-01-01_0000";
  today := "2025-01-01";
  chat_create := λ _ _, ApiFailure;
  files_upload_v2 := λ _, UploadFailure;
  chat_postMessage := λ _, false;
  read_csv := λ path, if bool_decide (path = "data/internal_transactions.csv")
                      then Ok gateway_csv
                      else Raise (OSError "No such file or directory");
  mongo_find := λ _, Raise (ExternalError "ServerSelectionTimeoutError");
  read_sql := λ _, Raise (ExternalError "OperationalError");
  requests_get := λ _ _, Ok (401%Z, empty_frame)
|}.

(** The six category names, as cell values. *)
Definition category_values : list value :=
  [VStr "missing_in_gateway"; VStr "missing_in_internal"; VStr "amount_mismatch";
   VStr "status_mismatch"; VStr "currency_mismatch"; VStr "matched"].

(** The steps of [main] that may raise: both loaders, then [reconcile]. *)
Definition run_once (P : platform) : M ref :=
  df_internal <- load_internal_data P ;;
  df_gateway <- load_gateway_data P ;;
  reconcile P df_internal df_gateway.

(** What [.str.lower()] makes of one cell of a text column. *)
Definition lower_cell (P : platform) (v : value) : value :=
  match v with
  | VStr s => VStr (str_lower P s)
  | VNone => VNone
  | _ => NaN
  end.

(** The column [c] is carried by both record sets and can be compared
    after the join: it is not the key, the suffixed names are free, and it is
    not an integer column on either side (after [normalize], amounts are
    floats and statuses are text). *)
Definition comparable (c : string) (L R : DataFrame) : Prop :=
  c ≠ "tx_id" ∧ c ∈ columns L ∧ c ∈ columns R ∧
  (c +:+ "_internal") ∉ columns L ++ columns R ∧
  (c +:+ "_gateway") ∉ columns L ++ columns R ∧
  int_column c L = false ∧ int_column c R = false.

(** ** Sample data and notions for the defects *)

(** A record present on both sides of two record sets that have no amount
    column. *)
Definition row_lacking_amounts : Series :=
  [("tx_id", VStr "A");
   ("status_internal", VStr "success"); ("source_internal", VStr "internal");
   ("status_gateway", VStr "pending"); ("source_gateway", VStr "gateway");
   ("_merge", VStr "both")].

(** Two record sets with a key and a status, and no amount. *)
Definition status_only : DataFrame :=
  {| columns := ["tx_id"; "status"];
     rows := [[VStr "A"; VStr "success"]] |}.

(** A classified record set with two columns of one name. *)
Definition repeated_note : DataFrame :=
  {| columns := ["tx_id"; "note"; "note"; "discrepancy_type"];
     rows := [[VStr "A"; VStr "first"; VStr "second"; VStr "amount_mismatch"]] |}.

(** A raw record set whose header has one name in two letter cases. *)
Definition mixed_case_notes : DataFrame :=
  {| columns := ["tx_id"; "Note"; "note"; "amount"; "status"];
     rows := [[VStr "B"; VStr "first"; VStr "second"; VInt 50; VStr "success"]] |}.

(** A classified record set with discrepancies under the cap. *)
Definition mismatches_first : DataFrame :=
  {| columns := ["tx_id"; "amount_internal"; "amount_gateway"; "discrepancy_type"];
     rows := [[VStr "G"; VFloat (float_of_int 100); VFloat (float_of_int 95);
               VStr "amount_mismatch"];
              matched_record "A";
              [VStr "H"; VFloat (float_of_int 100); NaN; VStr "missing_in_gateway"]] |}.






(** * Properties *)

(** Closed decidable facts. *)
Ltac by_computation := apply (bool_decide_unpack _); vm_compute; exact I.

(** ** Rows and fields *)

Lemma labelled_cons {V} k (p : string * V) row :
  labelled k (p :: row) = if decide (p.1 = k) then p.2 :: labelled k row else labelled k row.
Proof.
  unfold labelled. rewrite filter_cons. destruct (decide (p.1 = k)); reflexivity.
Qed.

Lemma labelled_absent {V} k (row : list (string * V)) :
  k ∉ row.*1 → labelled k row = [].
Proof.
  induction row as [|p row IH]; intros Hk; [reflexivity|].
  rewrite labelled_cons. rewrite fmap_cons, not_elem_of_cons in Hk.
  destruct Hk as [Hne Hk]. destruct (decide (p.1 = k)); [congruence|auto].
Qed.

Lemma labelled_present {V} k (row : list (string * V)) :
  k ∈ row.*1 → labelled k row ≠ [].
Proof.
  induction row as [|p row IH]; intros Hk; [inversion Hk|].
  rewrite labelled_cons. destruct (decide (p.1 = k)); [discriminate|].
  rewrite fmap_cons in Hk. apply elem_of_cons in Hk as [Hk|Hk]; [congruence|auto].
Qed.

Lemma labelled_unique {V} k (row : list (string * V)) :
  NoDup row.*1 → labelled k row = [] ∨ ∃ v, labelled k row = [v].
Proof.
  induction row as [|p row IH]; intros Hnd; [left; reflexivity|].
  rewrite fmap_cons in Hnd. apply NoDup_cons in Hnd as [Hp Hnd].
  rewrite labelled_cons. destruct (decide (p.1 = k)) as [<-|]; [|auto].
  right. exists p.2. rewrite labelled_absent; auto.
Qed.

Lemma getitem_field row k v : field row k v → getitem row k = Ok (Scalar v).
Proof. unfold field, getitem. intros ->. reflexivity. Qed.

Lemma get_field row k v d : field row k v → get row k d = Scalar v.
Proof. intros H. unfold get. rewrite (getitem_field _ _ _ H). reflexivity. Qed.

Lemma get_scalar row k d : NoDup row.*1 → ∃ v, get row k d = Scalar v.
Proof.
  intros Hnd. unfold get, getitem.
  destruct (labelled_unique k row Hnd) as [->|[v ->]]; eauto.
Qed.

Lemma field_functional row k v v' : field row k v → field row k v' → v = v'.
Proof. unfold field. congruence. Qed.

Lemma disagree_iff row name a b :
  get row (name +:+ "_internal") VNone = Scalar a →
  get row (name +:+ "_gateway") VNone = Scalar b →
  disagree row name ↔ py_ne a b = true.
Proof.
  intros Ha Hb. split.
  - intros (a' & b' & Ha' & Hb' & Hne). congruence.
  - intros Hne. exists a, b. auto.
Qed.

Lemma category_name_inj c c' : category_name c = category_name c' → c = c'.
Proof. destruct c, c'; simpl; intros H; try reflexivity; discriminate H. Qed.

(** [classify] on a record that is present on both sides and carries the
    compared fields: the three comparisons, in order. *)
Lemma classify_both row ai ag si sg ci cg :
  both_sides row →
  field row "amount_internal" ai → field row "amount_gateway" ag →
  field row "status_internal" si → field row "status_gateway" sg →
  get row "currency_internal" VNone = Scalar ci →
  get row "currency_gateway" VNone = Scalar cg →
  classify row =
    Ok (if py_ne ai ag then "amount_mismatch"
        else if py_ne si sg then "status_mismatch"
        else if py_ne ci cg then "currency_mismatch"
        else "matched").
Proof.
  intros Hm Hai Hag Hsi Hsg Hci Hcg. unfold classify.
  rewrite (getitem_field _ _ _ Hm), (getitem_field _ _ _ Hai),
    (getitem_field _ _ _ Hag), (getitem_field _ _ _ Hsi),
    (getitem_field _ _ _ Hsg), Hci, Hcg.
  simpl. destruct (py_ne ai ag), (py_ne si sg), (py_ne ci cg); reflexivity.
Qed.

Lemma classify_internal_only row :
  internal_only row → classify row = Ok "missing_in_gateway".
Proof. intros H. unfold classify. rewrite (getitem_field _ _ _ H). reflexivity. Qed.

Lemma classify_gateway_only row :
  gateway_only row → classify row = Ok "missing_in_internal".
Proof. intros H. unfold classify. rewrite (getitem_field _ _ _ H). reflexivity. Qed.

Ltac clash_tags :=
  match goal with
  | H1 : internal_only ?r, H2 : gateway_only ?r |- _ =>
      pose proof (field_functional _ _ _ _ H1 H2); discriminate
  | H1 : internal_only ?r, H2 : both_sides ?r |- _ =>
      pose proof (field_functional _ _ _ _ H1 H2); discriminate
  | H1 : gateway_only ?r, H2 : both_sides ?r |- _ =>
      pose proof (field_functional _ _ _ _ H1 H2); discriminate
  end.

(** The classifier and the precedence list agree on every joined record. *)
Lemma classify_refines row c :
  joined_row row → classify row = Ok (category_name c) ↔ classified row c.
Proof.
  intros [Hnd Hcase].
  destruct Hcase as [Hl|[Hr|(Hb & [ai Hai] & [ag Hag] & [si Hsi] & [sg Hsg])]].
  - rewrite (classify_internal_only _ Hl). split.
    + intros H. injection H as H. apply (category_name_inj MissingInGateway) in H.
      subst c. constructor; assumption.
    + intros H. inversion H; subst; try reflexivity; clash_tags.
  - rewrite (classify_gateway_only _ Hr). split.
    + intros H. injection H as H. apply (category_name_inj MissingInInternal) in H.
      subst c. constructor; assumption.
    + intros H. inversion H; subst; try reflexivity; clash_tags.
  - destruct (get_scalar row "currency_internal" VNone Hnd) as [ci Hci].
    destruct (get_scalar row "currency_gateway" VNone Hnd) as [cg Hcg].
    rewrite (classify_both _ _ _ _ _ _ _ Hb Hai Hag Hsi Hsg Hci Hcg).
    pose proof (disagree_iff row "amount" ai ag
                  (get_field _ _ _ _ Hai) (get_field _ _ _ _ Hag)) as Ha.
    pose proof (disagree_iff row "status" si sg
                  (get_field _ _ _ _ Hsi) (get_field _ _ _ _ Hsg)) as Hs.
    pose proof (disagree_iff row "currency" ci cg Hci Hcg) as Hc.
    split.
    + intros H.
      destruct (py_ne ai ag) eqn:Ea; [|destruct (py_ne si sg) eqn:Es;
        [|destruct (py_ne ci cg) eqn:Ec]];
        injection H as H;
        [apply (category_name_inj AmountMismatch) in H
        |apply (category_name_inj StatusMismatch) in H
        |apply (category_name_inj CurrencyMismatch) in H
        |apply (category_name_inj Matched) in H];
        subst c; constructor; try assumption;
        rewrite ?Ha, ?Hs, ?Hc; congruence.
    + intros H. inversion H; subst; try clash_tags;
        repeat match goal with
               | X : disagree _ _ |- _ => first [apply Ha in X | apply Hs in X | apply Hc in X]
               | X : ¬ disagree _ _ |- _ =>
                   first [rewrite Ha in X | rewrite Hs in X | rewrite Hc in X];
                   apply not_true_is_false in X
               end;
        repeat match goal with X : py_ne _ _ = _ |- _ => rewrite X; clear X end;
        reflexivity.
Qed.

(** Classification by precedence: on a joined record that carries the
    amount and the status of both sides when both are present, the
    classifier returns exactly one of the six categories, and it is the one
    that the precedence list selects; a record present on the internal side only is
    missing_in_gateway, one present on the gateway side only is
    missing_in_internal, the four remaining categories occur only for records
    present on both sides, each comparison being reached only when the
    earlier ones found no difference; in particular a record missing on the
    gateway side is never an amount_mismatch. *)
Theorem classify_exactly_one_by_precedence (row : Series) :
  joined_row row →
  (∃ c, classify row = Ok (category_name c) ∧ classified row c ∧
        ∀ c', classified row c' → c' = c) ∧
  (internal_only row → classify row = Ok "missing_in_gateway") ∧
  (gateway_only row → classify row = Ok "missing_in_internal") ∧
  (∀ c, classify row = Ok (category_name c) →
        c ∈ [AmountMismatch; StatusMismatch; CurrencyMismatch; Matched] →
        both_sides row) ∧
  (internal_only row → classify row ≠ Ok "amount_mismatch").
Proof.
  intros Hj.
  assert (Hex : ∃ c, classify row = Ok (category_name c)).
  { destruct Hj as [Hnd Hcase].
    destruct Hcase as [Hl|[Hr|(Hb & [ai Hai] & [ag Hag] & [si Hsi] & [sg Hsg])]].
    - exists MissingInGateway. apply classify_internal_only, Hl.
    - exists MissingInInternal. apply classify_gateway_only, Hr.
    - destruct (get_scalar row "currency_internal" VNone Hnd) as [ci Hci].
      destruct (get_scalar row "currency_gateway" VNone Hnd) as [cg Hcg].
      rewrite (classify_both _ _ _ _ _ _ _ Hb Hai Hag Hsi Hsg Hci Hcg).
      destruct (py_ne ai ag); [exists AmountMismatch; reflexivity|].
      destruct (py_ne si sg); [exists StatusMismatch; reflexivity|].
      destruct (py_ne ci cg); [exists CurrencyMismatch; reflexivity|].
      exists Matched; reflexivity. }
  destruct Hex as [c Hc]. split; [|split; [|split; [|split]]].
  - exists c. split; [exact Hc|]. split; [apply classify_refines; assumption|].
    intros c' Hc'. apply (classify_refines _ _ Hj) in Hc'.
    rewrite Hc in Hc'. injection Hc' as Hc'. symmetry. apply category_name_inj, Hc'.
  - apply classify_internal_only.
  - apply classify_gateway_only.
  - intros c' Hc' Hin. apply (classify_refines _ _ Hj) in Hc'.
    inversion Hc'; subst; try assumption;
      repeat (apply elem_of_cons in Hin as [Hin|Hin]; [discriminate Hin|]);
      inversion Hin.
  - intros Hl. rewrite (classify_internal_only _ Hl). discriminate.
Qed.

(** Classification by precedence at a record that agrees on every field. *)
Lemma classify_exactly_one_by_precedence_witness :
  (∃ c, classify row_agreeing = Ok (category_name c) ∧ classified row_agreeing c ∧
        ∀ c', classified row_agreeing c' → c' = c) ∧
  (internal_only row_agreeing → classify row_agreeing = Ok "missing_in_gateway") ∧
  (gateway_only row_agreeing → classify row_agreeing = Ok "missing_in_internal") ∧
  (∀ c, classify row_agreeing = Ok (category_name c) →
        c ∈ [AmountMismatch; StatusMismatch; CurrencyMismatch; Matched] →
        both_sides row_agreeing) ∧
  (internal_only row_agreeing → classify row_agreeing ≠ Ok "amount_mismatch").
Proof.
  apply (classify_exactly_one_by_precedence row_agreeing).
  split; [by_computation|].
  right; right. repeat split; eexists; reflexivity.
Defined.

Lemma SFeqb_nan_l x : SFeqb S754_nan x = false.
Proof. reflexivity. Qed.

Lemma SFeqb_nan_r x : SFeqb x S754_nan = false.
Proof. destruct x as [| | |[] ? ?]; reflexivity. Qed.

(** C3, as stated, fails: a record present on both sides whose amount is
    missing (NaN) on both sides is classified amount_mismatch, because NaN
    differs from NaN. *)
Lemma classify_both_amounts_absent :
  joined_row row_without_amounts ∧ both_sides row_without_amounts ∧
  field row_without_amounts "amount_internal" NaN ∧
  field row_without_amounts "amount_gateway" NaN ∧
  classify row_without_amounts = Ok "amount_mismatch".
Proof.
  split; [|repeat split].
  split; [by_computation|].
  right; right. repeat split; eexists; reflexivity.
Qed.

(** C3, amended.  On a joined record present on both sides whose amounts
    are floats, the classifier returns amount_mismatch exactly when the two
    amounts are not equal as floats; an amount that is missing (NaN) on
    either side, or on both, is not equal to anything, so the status
    comparison is reached only when both amounts are present and equal. *)
Theorem classify_amount_absent_is_mismatch (row : Series) (x y : spec_float) :
  joined_row row → both_sides row →
  field row "amount_internal" (VFloat x) →
  field row "amount_gateway" (VFloat y) →
  (classify row = Ok "amount_mismatch" ↔ SFeqb x y = false) ∧
  (x = S754_nan ∨ y = S754_nan → classify row = Ok "amount_mismatch") ∧
  (classify row ≠ Ok "amount_mismatch" →
   x ≠ S754_nan ∧ y ≠ S754_nan ∧ SFeqb x y = true).
Proof.
  intros [Hnd Hcase] Hb Hx Hy.
  destruct Hcase as [Hl|[Hr|(_ & _ & _ & [si Hsi] & [sg Hsg])]]; try clash_tags.
  destruct (get_scalar row "currency_internal" VNone Hnd) as [ci Hci].
  destruct (get_scalar row "currency_gateway" VNone Hnd) as [cg Hcg].
  rewrite (classify_both _ _ _ _ _ _ _ Hb Hx Hy Hsi Hsg Hci Hcg).
  unfold py_ne at 1 2 3. simpl py_eq.
  assert (Hiff : Ok (if negb (SFeqb x y) then "amount_mismatch"
                     else if py_ne si sg then "status_mismatch"
                     else if py_ne ci cg then "currency_mismatch" else "matched")
                 = Ok "amount_mismatch" ↔ SFeqb x y = false).
  { destruct (SFeqb x y); simpl; [|tauto].
    split; [|discriminate].
    destruct (py_ne si sg); [discriminate|]. destruct (py_ne ci cg); discriminate. }
  split; [exact Hiff|split].
  - intros [->| ->]; apply Hiff; [apply SFeqb_nan_l|apply SFeqb_nan_r].
  - intros Hne. rewrite Hiff in Hne. apply not_false_is_true in Hne.
    repeat split; [intros -> | intros -> |exact Hne].
    + rewrite SFeqb_nan_l in Hne. discriminate.
    + rewrite SFeqb_nan_r in Hne. discriminate.
Qed.

(** The amended C3 at a record with equal amounts. *)
Lemma classify_amount_absent_is_mismatch_witness :
  (classify row_agreeing = Ok "amount_mismatch"
   ↔ SFeqb (float_of_int 100) (float_of_int 100) = false) ∧
  (float_of_int 100 = S754_nan ∨ float_of_int 100 = S754_nan →
   classify row_agreeing = Ok "amount_mismatch") ∧
  (classify row_agreeing ≠ Ok "amount_mismatch" →
   float_of_int 100 ≠ S754_nan ∧ float_of_int 100 ≠ S754_nan ∧
   SFeqb (float_of_int 100) (float_of_int 100) = true).
Proof.
  apply (classify_amount_absent_is_mismatch row_agreeing).
  - split; [by_computation|].
    right; right. repeat split; eexists; reflexivity.
  - reflexivity.
  - reflexivity.
  - reflexivity.
Defined.

(** ** The Enricher *)

Lemma setitem_labels row k v :
  (setitem row k v).*1 = if bool_decide (k ∈ row.*1) then row.*1 else row.*1 ++ [k].
Proof.
  unfold setitem. destruct (bool_decide (k ∈ row.*1)).
  - rewrite <- list_fmap_compose. apply list_fmap_ext. intros _ p _. simpl.
    destruct (bool_decide (p.1 = k)) eqn:E; [|reflexivity].
    apply bool_decide_eq_true in E. simpl. congruence.
  - rewrite fmap_app. reflexivity.
Qed.

Lemma setitem_NoDup row k v : NoDup row.*1 → NoDup (setitem row k v).*1.
Proof.
  intros Hnd. rewrite setitem_labels.
  destruct (bool_decide (k ∈ row.*1)) eqn:E; [assumption|].
  apply bool_decide_eq_false in E. apply NoDup_app. split; [assumption|].
  split; [|apply NoDup_singleton].
  intros x Hx Hx'. apply list_elem_of_singleton in Hx'. subst x. contradiction.
Qed.

Lemma labelled_app {V} k (row row' : list (string * V)) :
  labelled k (row ++ row') = labelled k row ++ labelled k row'.
Proof. unfold labelled. rewrite filter_app, fmap_app. reflexivity. Qed.

Lemma labelled_overwrite k k' v row :
  labelled k' ((λ p : string * value, if bool_decide (p.1 = k) then (k, v) else p) <$> row)
  = if decide (k' = k) then (λ _, v) <$> labelled k row else labelled k' row.
Proof.
  induction row as [|p row IH]; [destruct (decide (k' = k)); reflexivity|].
  rewrite fmap_cons, !labelled_cons, IH.
  destruct (bool_decide (p.1 = k)) eqn:E.
  - apply bool_decide_eq_true in E. simpl.
    destruct (decide (k' = k)) as [->|Hne].
    + rewrite !decide_True by auto. reflexivity.
    + rewrite !decide_False by congruence. reflexivity.
  - apply bool_decide_eq_false in E.
    destruct (decide (k' = k)) as [->|Hne].
    + rewrite !decide_False by auto. reflexivity.
    + destruct (decide (p.1 = k')); reflexivity.
Qed.

(** Writing a field leaves the other fields as they are. *)
Lemma labelled_setitem_ne row k k' v :
  k' ≠ k → labelled k' (setitem row k v) = labelled k' row.
Proof.
  intros Hne. unfold setitem. destruct (bool_decide (k ∈ row.*1)).
  - rewrite labelled_overwrite, decide_False by assumption. reflexivity.
  - rewrite labelled_app. simpl. rewrite labelled_cons. simpl.
    rewrite decide_False by congruence. apply app_nil_r.
Qed.

(** Writing a field of a record with distinct field names makes it hold
    the value. *)
Lemma field_setitem row k v : NoDup row.*1 → field (setitem row k v) k v.
Proof.
  intros Hnd. unfold field, setitem.
  destruct (bool_decide (k ∈ row.*1)) eqn:E.
  - apply bool_decide_eq_true in E.
    rewrite labelled_overwrite, decide_True by reflexivity.
    destruct (labelled_unique k row Hnd) as [Hn|[x ->]]; [|reflexivity].
    exfalso. clear Hnd. induction row as [|p row IH]; [inversion E|].
    rewrite labelled_cons in Hn. rewrite fmap_cons in E.
    destruct (decide (p.1 = k)); [discriminate|].
    apply elem_of_cons in E as [E|E]; [congruence|auto].
  - apply bool_decide_eq_false in E.
    rewrite labelled_app, (labelled_absent _ _ E). simpl.
    rewrite labelled_cons. simpl. rewrite decide_True by reflexivity. reflexivity.
Qed.

Lemma test_eq_scalar a b : test_eq (Scalar a) (Scalar b) = Ok (py_eq a b).
Proof. reflexivity. Qed.

(** On a record with distinct field names the two rule tables always
    answer. *)
Lemma rule_based_reason_total P row :
  NoDup row.*1 → ∃ reason, rule_based_reason P row = Ok reason.
Proof.
  intros Hnd. unfold rule_based_reason.
  destruct (get_scalar row "discrepancy_type" (VStr "") Hnd) as [m ->].
  rewrite !test_eq_scalar. simpl.
  repeat match goal with |- context [py_eq ?a ?b] => destruct (py_eq a b) end;
    eauto.
Qed.

Lemma suggested_action_total row :
  NoDup row.*1 → ∃ action, suggested_action row = Ok action.
Proof.
  intros Hnd. unfold suggested_action.
  destruct (get_scalar row "discrepancy_type" (VStr "") Hnd) as [m ->].
  rewrite !test_eq_scalar. simpl.
  repeat match goal with |- context [py_eq ?a ?b] => destruct (py_eq a b) end;
    eauto.
Qed.

Lemma py_eq_matched v : py_eq v (VStr "matched") = true ↔ v = VStr "matched".
Proof.
  split; [|intros ->; reflexivity].
  destruct v; simpl; try discriminate.
  intros H. apply bool_decide_eq_true in H. congruence.
Qed.

Lemma add_prompts_nil w : add_prompts w [] = w.
Proof. destruct w. unfold add_prompts. simpl. rewrite app_nil_r. reflexivity. Qed.

Lemma add_prompts_app w ps ps' :
  add_prompts (add_prompts w ps) ps' = add_prompts w (ps ++ ps').
Proof. unfold add_prompts. simpl. rewrite app_assoc. reflexivity. Qed.

(** [ai_explanation] never raises: it answers with one of its fixed
    messages or with the stripped text of the collaborator. *)
Lemma ai_explanation_spec P i row w :
  NoDup row.*1 → use_ai P = true → i < ai_limit →
  ∃ text ps, ai_explanation P row w = (Ok text, add_prompts w ps) ∧
             ai_step P i row (prompts w) text ps.
Proof.
  intros Hnd Hai Hi. unfold ai_explanation, try_except, bind, lift, getitem.
  destruct (labelled_unique "discrepancy_type" row Hnd) as [Hd|[d Hd]]; rewrite Hd.
  - exists ai_unavailable, []. rewrite add_prompts_nil. split; [reflexivity|].
    assert (Hp : ∃ e, ai_prompt P row = Raise e).
    { unfold ai_prompt, getitem. rewrite Hd.
      destruct (labelled "tx_id" row) as [|v [|v' vs]]; eexists; reflexivity. }
    destruct Hp as [e Hp]. apply (ai_step_no_prompt _ _ _ _ e); auto.
    unfold is_matched, field. congruence.
  - rewrite test_eq_scalar. destruct (py_eq d (VStr "matched")) eqn:Em.
    + apply py_eq_matched in Em. subst d.
      exists ai_consistent, []. rewrite add_prompts_nil. split; [reflexivity|].
      apply ai_step_matched; auto.
    + assert (Hnm : ¬ is_matched row).
      { unfold is_matched, field. rewrite Hd. intros [= ->]. discriminate Em. }
      destruct (ai_prompt P row) as [prompt|e] eqn:Hp.
      * unfold chat. destruct (chat_create P (prompts w) prompt) eqn:Ec.
        -- exists ai_unavailable, [prompt]. split; [reflexivity|].
           apply ai_step_failed; auto. congruence.
        -- exists ai_unavailable, [prompt]. split; [reflexivity|].
           apply ai_step_failed; auto. congruence.
        -- exists ai_unavailable, [prompt]. split; [reflexivity|].
           apply ai_step_failed; auto. congruence.
        -- exists (str_strip P text), [prompt]. split; [reflexivity|].
           apply ai_step_answered; auto.
      * exists ai_unavailable, []. rewrite add_prompts_nil. split; [reflexivity|].
        apply (ai_step_no_prompt _ _ _ _ e); auto.
Qed.

Lemma ai_step_ext P i row row' history text ps :
  (is_matched row ↔ is_matched row') →
  ai_prompt P row = ai_prompt P row' →
  ai_step P i row history text ps → ai_step P i row' history text ps.
Proof.
  intros Hm Hp H. destruct H.
  - apply ai_step_disabled; auto.
  - apply ai_step_capped; auto.
  - apply ai_step_matched; auto. apply Hm; assumption.
  - apply (ai_step_no_prompt _ _ _ _ e); auto; [rewrite <- Hm|rewrite <- Hp]; assumption.
  - apply ai_step_failed; auto; [rewrite <- Hm|rewrite <- Hp]; assumption.
  - apply ai_step_answered; auto; [rewrite <- Hm|rewrite <- Hp]; assumption.
Qed.

(** The prompt does not read the enrichment fields. *)
Lemma ai_prompt_setitem P row k v :
  k ∉ ["tx_id"; "discrepancy_type"; "amount_internal"; "status_internal";
       "amount_gateway"; "status_gateway"] →
  ai_prompt P (setitem row k v) = ai_prompt P row.
Proof.
  intros Hk. unfold ai_prompt, get, getitem.
  rewrite !labelled_setitem_ne by (intros <-; apply Hk; set_solver).
  reflexivity.
Qed.

Lemma is_matched_setitem row k v :
  k ≠ "discrepancy_type" → is_matched (setitem row k v) ↔ is_matched row.
Proof.
  intros Hk. unfold is_matched, field.
  rewrite labelled_setitem_ne by congruence. reflexivity.
Qed.

(** The body of the loop: the record comes back with its three fields, and
    at most one prompt is sent. *)
Lemma enrich_row_spec P i row w :
  NoDup row.*1 →
  ∃ reason action text ps,
    enrich_row P i row w
    = (Ok (enriched_row row reason action text), add_prompts w ps) ∧
    ai_step P i row (prompts w) text ps.
Proof.
  intros Hnd. unfold enrich_row, bind, lift.
  destruct (rule_based_reason_total P row Hnd) as [reason ->].
  pose proof (setitem_NoDup row "probable_reason" (VStr reason) Hnd) as Hnd1.
  destruct (suggested_action_total _ Hnd1) as [action ->].
  pose proof (setitem_NoDup _ "suggested_action" (VStr action) Hnd1) as Hnd2.
  exists reason, action.
  destruct (use_ai P) eqn:Hai; cbn [negb].
  - destruct (ai_limit <=? i) eqn:Hi.
    + apply Nat.leb_le in Hi. exists ai_limit_reached, [].
      rewrite add_prompts_nil. split; [reflexivity|]. apply ai_step_capped; auto.
    + apply Nat.leb_gt in Hi.
      destruct (ai_explanation_spec P i _ w Hnd2 Hai Hi) as (text & ps & Hrun & Hstep).
      exists text, ps. unfold try_except. rewrite Hrun. split; [reflexivity|].
      eapply ai_step_ext; [| |exact Hstep].
      * rewrite !is_matched_setitem by discriminate. reflexivity.
      * rewrite !ai_prompt_setitem by by_computation. reflexivity.
  - exists ai_skipped, []. rewrite add_prompts_nil. split; [reflexivity|].
    apply ai_step_disabled; auto.
Qed.

(** The whole loop. *)
Lemma enrich_rows_spec P rs : ∀ i w,
  Forall (λ row : Series, NoDup row.*1) rs →
  ∃ rs' ps,
    enrich_rows P i rs w = (Ok rs', add_prompts w ps) ∧
    enriched P i rs (prompts w) rs' ps.
Proof.
  induction rs as [|row rs IH]; intros i w Hnd.
  - exists [], []. rewrite add_prompts_nil. split; [reflexivity|constructor].
  - apply Forall_cons in Hnd as [Hrow Hrs].
    destruct (enrich_row_spec P i row w Hrow) as (reason & action & text & ps & Hrun & Hstep).
    destruct (IH (S i) (add_prompts w ps) Hrs) as (rs' & ps' & Hrun' & Hrest).
    exists (enriched_row row reason action text :: rs'), (ps ++ ps').
    simpl. unfold bind. rewrite Hrun, Hrun', add_prompts_app.
    split; [reflexivity|]. econstructor; eassumption.
Qed.

Lemma enriched_length P i rs history rs' ps :
  enriched P i rs history rs' ps → length rs' = length rs.
Proof. induction 1; simpl; congruence. Qed.

(** The field names of an enriched record depend on those of the record
    only. *)
Lemma enriched_row_labels row row' reason action text reason' action' text' :
  row.*1 = row'.*1 →
  (enriched_row row reason action text).*1
  = (enriched_row row' reason' action' text').*1.
Proof.
  intros H. unfold enriched_row. rewrite !setitem_labels, H.
  repeat match goal with
         | |- context [bool_decide ?p] => destruct (bool_decide p)
         end; reflexivity.
Qed.

Lemma enriched_row_NoDup row reason action text :
  NoDup row.*1 → NoDup (enriched_row row reason action text).*1.
Proof. intros H. unfold enriched_row. auto using setitem_NoDup. Qed.

Lemma enriched_row_fields row reason action text :
  NoDup row.*1 →
  field (enriched_row row reason action text) "probable_reason" (VStr reason) ∧
  field (enriched_row row reason action text) "suggested_action" (VStr action) ∧
  field (enriched_row row reason action text) "ai_explanation" (VStr text).
Proof.
  intros Hnd. unfold enriched_row.
  pose proof (setitem_NoDup row "probable_reason" (VStr reason) Hnd) as Hnd1.
  pose proof (setitem_NoDup _ "suggested_action" (VStr action) Hnd1) as Hnd2.
  repeat split.
  - unfold field. rewrite !labelled_setitem_ne by discriminate.
    apply field_setitem, Hnd.
  - unfold field. rewrite labelled_setitem_ne by discriminate.
    apply field_setitem, Hnd1.
  - apply field_setitem, Hnd2.
Qed.

Lemma series_of_labels d r :
  length r = length (columns d) → (series_of d r).*1 = columns d.
Proof. intros H. unfold series_of. apply fst_zip. lia. Qed.

Lemma enriched_labels P cols cols' : ∀ i rs history rs' ps,
  (∀ row reason action text, row.*1 = cols →
     (enriched_row row reason action text).*1 = cols') →
  Forall (λ row : Series, row.*1 = cols) rs →
  enriched P i rs history rs' ps →
  Forall (λ row : Series, row.*1 = cols') rs'.
Proof.
  intros i rs history rs' ps Hcols Hrs H.
  induction H as [|i row rs history reason action text ps rs' ps' Hstep Hrest IH];
    [constructor|].
  apply Forall_cons in Hrs as [Hrow Hrs]. constructor; auto.
Qed.

(** [pd.DataFrame(rows)] gives back the records it was built from when they
    share their distinct field names. *)
Lemma frame_of_series_rows cols (rs : list Series) :
  NoDup cols → Forall (λ row : Series, row.*1 = cols) rs →
  ∃ e, frame_of_series rs = Ok e ∧ series_of e <$> rows e = rs ∧
       length (rows e) = length rs.
Proof.
  intros Hnd Hrs. destruct rs as [|row rs].
  - exists empty_frame. repeat split.
  - pose proof Hrs as Hall. apply Forall_cons in Hrs as [Hrow Hrs].
    unfold frame_of_series. rewrite Hrow, bool_decide_eq_true_2 by assumption.
    eexists. split; [reflexivity|]. simpl. split; [|rewrite length_fmap; reflexivity].
    unfold series_of. simpl. rewrite <- Hrow at 1. rewrite zip_fst_snd. f_equal.
    rewrite <- list_fmap_compose. clear Hall Hrow.
    induction Hrs as [|r rs Hr Hrs IH]; [reflexivity|].
    rewrite fmap_cons, IH. simpl. rewrite <- Hr, zip_fst_snd. reflexivity.
Qed.

(** [enrich_with_analysis] on a frame with distinct column labels: it
    returns a new frame that holds the enriched records, and the only other
    effect is the prompts it sends. *)
Lemma enrich_with_analysis_spec P df d w :
  store w !! df = Some d → frame_ok d → NoDup (columns d) →
  ∃ rs' ps e,
    enrich_with_analysis P df w = new_frame e (add_prompts w ps) ∧
    enriched P 0 (series_of d <$> rows d) (prompts w) rs' ps ∧
    series_of e <$> rows e = rs' ∧
    length (rows e) = length (rows d).
Proof.
  intros Hdf Hok Hnd. unfold enrich_with_analysis, bind, deref. rewrite Hdf.
  assert (Hlabels : Forall (λ row : Series, row.*1 = columns d) (series_of d <$> rows d)).
  { apply Forall_fmap. eapply Forall_impl; [exact Hok|].
    intros r Hr. simpl. apply series_of_labels, Hr. }
  assert (Hdistinct : Forall (λ row : Series, NoDup row.*1) (series_of d <$> rows d)).
  { eapply Forall_impl; [exact Hlabels|]. simpl. intros r ->. exact Hnd. }
  destruct (enrich_rows_spec P _ 0 w Hdistinct) as (rs' & ps & Hrun & Hrel).
  rewrite Hrun.
  set (probe := (λ c : string, (c, VNone)) <$> columns d).
  assert (Hprobe : probe.*1 = columns d).
  { unfold probe. rewrite <- list_fmap_compose. apply list_fmap_id. }
  set (cols' := (enriched_row probe "" "" "").*1).
  assert (Hsame : Forall (λ row : Series, row.*1 = cols') rs').
  { eapply enriched_labels; [|exact Hlabels|exact Hrel].
    intros row reason action text Hrow. apply enriched_row_labels. congruence. }
  assert (Hnd' : NoDup cols').
  { apply enriched_row_NoDup. rewrite Hprobe. exact Hnd. }
  destruct (frame_of_series_rows cols' rs' Hnd' Hsame) as (e & He & Hrows & Hlen).
  exists rs', ps, e. unfold lift. rewrite He.
  repeat split; try assumption.
  rewrite Hlen, (enriched_length _ _ _ _ _ _ Hrel), length_fmap. reflexivity.
Qed.

(** Beyond the cap the loop sends nothing. *)
Lemma enriched_capped P : ∀ i rs history rs' ps,
  enriched P i rs history rs' ps → ai_limit ≤ i → ps = [].
Proof.
  intros i rs history rs' ps H.
  induction H as [|i row rs history reason action text ps rs' ps' Hstep Hrest IH];
    intros Hi; [reflexivity|].
  rewrite IH by lia. destruct Hstep; try reflexivity; lia.
Qed.

Lemma enrich_rows_app P l1 : ∀ l2 i w r1 w1,
  enrich_rows P i l1 w = (Ok r1, w1) →
  enrich_rows P i (l1 ++ l2) w
  = match enrich_rows P (i + length l1) l2 w1 with
    | (Ok r2, w2) => (Ok (r1 ++ r2), w2)
    | (Raise e, w2) => (Raise e, w2)
    end.
Proof.
  induction l1 as [|row l1 IH]; intros l2 i w r1 w1 Hrun.
  - simpl in Hrun. injection Hrun as <- <-. simpl. rewrite Nat.add_0_r.
    destruct (enrich_rows P i l2 w) as [[r2|e] w2]; reflexivity.
  - simpl in *. unfold bind in *.
    destruct (enrich_row P i row w) as [[row'|e] w'] eqn:Erow; [|discriminate].
    destruct (enrich_rows P (S i) l1 w') as [[rest|e] w''] eqn:Erest; [|discriminate].
    injection Hrun as <- <-.
    rewrite (IH l2 (S i) w' rest w'' Erest).
    replace (i + S (length l1)) with (S i + length l1) by lia.
    destruct (enrich_rows P (S i + length l1) l2 w'') as [[r2|e] w2]; reflexivity.
Qed.

(** The prompts sent for a list of records are those sent for its first
    five. *)
Lemma enrich_rows_prompts_head P rs w :
  Forall (λ row : Series, NoDup row.*1) rs →
  prompts (enrich_rows P 0 rs w).2
  = prompts (enrich_rows P 0 (take ai_limit rs) w).2.
Proof.
  intros Hnd.
  assert (Hhead : Forall (λ row : Series, NoDup row.*1) (take ai_limit rs))
    by (apply Forall_take, Hnd).
  assert (Htail : Forall (λ row : Series, NoDup row.*1) (drop ai_limit rs))
    by (apply Forall_drop, Hnd).
  destruct (enrich_rows_spec P _ 0 w Hhead) as (r1 & ps1 & Hrun1 & _).
  rewrite <- (take_drop ai_limit rs) at 1.
  rewrite (enrich_rows_app P _ _ _ _ _ _ Hrun1), Hrun1. simpl.
  destruct (enrich_rows_spec P _ (length (take ai_limit rs)) (add_prompts w ps1) Htail)
    as (r2 & ps2 & Hrun2 & Hrel2).
  rewrite Hrun2. simpl.
  destruct (decide (ai_limit ≤ length rs)) as [Hlen|Hlen].
  - rewrite length_take_le in Hrel2 by lia.
    rewrite (enriched_capped _ _ _ _ _ _ Hrel2) by lia. apply app_nil_r.
  - rewrite drop_ge in Hrel2 by lia. inversion Hrel2. apply app_nil_r.
Qed.

(** The number of prompts is bounded by the number of records among the
    first five that are not matched. *)
Lemma enriched_prompts_bound P : ∀ i rs history rs' ps,
  enriched P i rs history rs' ps →
  length ps ≤ length (filter (λ row, ¬ is_matched row) (take (ai_limit - i) rs)).
Proof.
  intros i rs history rs' ps H.
  induction H as [|i row rs history reason action text ps rs' ps' Hstep Hrest IH].
  - rewrite take_nil. simpl. lia.
  - rewrite length_app.
    destruct (decide (ai_limit ≤ i)) as [Hi|Hi].
    + rewrite (enriched_capped _ _ _ _ _ _ Hrest) by lia.
      destruct Hstep; simpl; lia.
    + replace (ai_limit - i) with (S (ai_limit - S i)) by lia.
      rewrite firstn_cons, filter_cons.
      destruct Hstep; destruct (decide (¬ is_matched row));
        cbn [length app]; try lia; contradiction.
Qed.

(** What each record receives, position by position. *)
Lemma enriched_lookup P : ∀ i rs history rs' ps j row,
  enriched P i rs history rs' ps → rs !! j = Some row →
  ∃ reason action text history' ps',
    rs' !! j = Some (enriched_row row reason action text) ∧
    ai_step P (i + j) row history' text ps'.
Proof.
  intros i rs history rs' ps j row H. revert j.
  induction H as [|i row0 rs history reason action text ps rs' ps' Hstep Hrest IH];
    intros j Hj; [rewrite lookup_nil in Hj; discriminate|].
  destruct j as [|j].
  - injection Hj as <-. exists reason, action, text, history, ps.
    rewrite Nat.add_0_r. split; [reflexivity|assumption].
  - simpl in Hj. destruct (IH j Hj) as (r & a & t & h' & p' & Hl & Hs).
    exists r, a, t, h', p'. replace (i + S j) with (S i + j) by lia. auto.
Qed.

Lemma enrich_with_analysis_prompts P df d w :
  store w !! df = Some d →
  prompts (enrich_with_analysis P df w).2
  = prompts (enrich_rows P 0 (series_of d <$> rows d) w).2.
Proof.
  intros Hdf. unfold enrich_with_analysis, bind, deref, lift. rewrite Hdf.
  destruct (enrich_rows P 0 (series_of d <$> rows d) w) as [[rs'|e] w']; [|reflexivity].
  destruct (frame_of_series rs'); reflexivity.
Qed.

Lemma distinct_rows d :
  frame_ok d → NoDup (columns d) →
  Forall (λ row : Series, NoDup row.*1) (series_of d <$> rows d).
Proof.
  intros Hok Hnd. apply Forall_fmap. eapply Forall_impl; [exact Hok|].
  intros r Hr. simpl. rewrite series_of_labels; assumption.
Qed.

(** C7.  AI cap respected: with AI enrichment enabled, the records at
    positions 5 and onward (counting from 0) receive the placeholder
    "Skipped AI analysis (limit reached)." and trigger no call of the
    text-generation collaborator: the prompts sent for the whole record set
    are those sent for its first five records alone, at most five in all. *)
Theorem ai_cap_respected (P : platform) (df : ref) (d : DataFrame) (w : world) :
  store w !! df = Some d → frame_ok d → NoDup (columns d) →
  use_ai P = true →
  ∃ r e w',
    enrich_with_analysis P df w = (Ok r, w') ∧ store w' !! r = Some e ∧
    length (rows e) = length (rows d) ∧
    (∀ j row, 5 ≤ j → (series_of e <$> rows e) !! j = Some row →
       field row "ai_explanation" (VStr "Skipped AI analysis (limit reached).")) ∧
    (∀ df5, store w !! df5 = Some (head_rows 5 d) →
       prompts (enrich_with_analysis P df5 w).2 = prompts w') ∧
    length (prompts w') ≤ length (prompts w) + 5.
Proof.
  intros Hdf Hok Hnd Hai.
  destruct (enrich_with_analysis_spec P df d w Hdf Hok Hnd)
    as (rs' & ps & e & Hrun & Hrel & Hrows & Hlen).
  exists (length (store w)), e, (new_frame e (add_prompts w ps)).2.
  rewrite Hrun. unfold new_frame at 1. simpl.
  split; [reflexivity|]. split; [apply list_lookup_middle; reflexivity|].
  split; [exact Hlen|]. split; [|split].
  - intros j row Hj Hrow. rewrite Hrows in Hrow.
    assert (Hlt : j < length (series_of d <$> rows d)).
    { rewrite <- (enriched_length _ _ _ _ _ _ Hrel). eapply lookup_lt_Some, Hrow. }
    destruct (lookup_lt_is_Some_2 _ _ Hlt) as [row0 Hrow0].
    destruct (enriched_lookup P _ _ _ _ _ _ _ Hrel Hrow0)
      as (reason & action & text & h & p & Hrow' & Hstep).
    rewrite Hrow in Hrow'. injection Hrow' as ->.
    assert (Hnd0 : NoDup row0.*1).
    { pose proof (distinct_rows d Hok Hnd) as Hall.
      rewrite Forall_lookup in Hall. apply (Hall _ _ Hrow0). }
    destruct (enriched_row_fields row0 reason action text Hnd0) as (_ & _ & Hf).
    simpl in Hstep. destruct Hstep; try (unfold ai_limit in *; lia);
      [congruence|exact Hf].
  - intros df5 Hdf5.
    rewrite (enrich_with_analysis_prompts P df5 _ w Hdf5). simpl.
    change (series_of (head_rows 5 d)) with (series_of d).
    rewrite fmap_take.
    pose proof (enrich_rows_prompts_head P _ w (distinct_rows d Hok Hnd)) as Hhead.
    unfold ai_limit in Hhead. rewrite <- Hhead.
    rewrite <- (enrich_with_analysis_prompts P df d w Hdf), Hrun. reflexivity.
  - rewrite length_app.
    pose proof (enriched_prompts_bound _ _ _ _ _ _ Hrel) as Hb.
    pose proof (length_filter (λ row, ¬ is_matched row)
                  (take (ai_limit - 0) (series_of d <$> rows d))) as Hf.
    rewrite length_take in Hf. unfold ai_limit in *. lia.
Qed.

(** C7 at seven records with AI enrichment enabled. *)
Lemma ai_cap_respected_witness :
  ∃ r e w',
    enrich_with_analysis ai_platform 0 (initial_world [six_matched_one_mismatch])
    = (Ok r, w') ∧ store w' !! r = Some e ∧
    length (rows e) = length (rows six_matched_one_mismatch) ∧
    (∀ j row, 5 ≤ j → (series_of e <$> rows e) !! j = Some row →
       field row "ai_explanation" (VStr "Skipped AI analysis (limit reached).")) ∧
    (∀ df5, store (initial_world [six_matched_one_mismatch]) !! df5
            = Some (head_rows 5 six_matched_one_mismatch) →
       prompts (enrich_with_analysis ai_platform df5
                  (initial_world [six_matched_one_mismatch])).2 = prompts w') ∧
    length (prompts w')
    ≤ length (prompts (initial_world [six_matched_one_mismatch])) + 5.
Proof.
  apply (ai_cap_respected ai_platform 0 six_matched_one_mismatch
           (initial_world [six_matched_one_mismatch])).
  - reflexivity.
  - unfold frame_ok. by_computation.
  - by_computation.
  - reflexivity.
Defined.

(** C6, as stated, fails: with AI enrichment enabled, six matched records
    followed by one amount mismatch make no call at all, yet the sixth matched
    record receives the limit placeholder instead of the consistent message,
    and the mismatch behind them is refused for having reached the cap. *)
Lemma matched_records_take_up_the_cap :
  ∃ e w',
    enrich_with_analysis ai_platform 0 (initial_world [six_matched_one_mismatch])
    = (Ok 1, w') ∧ store w' !! 1 = Some e ∧
    cells "discrepancy_type" e
    = [VStr "matched"; VStr "matched"; VStr "matched"; VStr "matched";
       VStr "matched"; VStr "matched"; VStr "amount_mismatch"] ∧
    cells "ai_explanation" e
    = [VStr "Transaction is consistent across systems.";
       VStr "Transaction is consistent across systems.";
       VStr "Transaction is consistent across systems.";
       VStr "Transaction is consistent across systems.";
       VStr "Transaction is consistent across systems.";
       VStr "Skipped AI analysis (limit reached).";
       VStr "Skipped AI analysis (limit reached)."] ∧
    prompts w' = [].
Proof.
  eexists. eexists. split; [vm_compute; reflexivity|].
  split; [reflexivity|]. split; [vm_compute; reflexivity|].
  split; [vm_compute; reflexivity|reflexivity].
Qed.

(** C6, amended.  With AI enrichment enabled no matched record triggers a
    call of the text-generation collaborator: the number of prompts sent is at
    most the number of records among the first five that are not matched.  A
    matched record at one of the first five positions receives the fixed
    consistent-transaction message, a matched record at position 5 or later
    receives the limit placeholder: the cap counts positions, not calls. *)
Theorem matched_records_bypass_collaborator
    (P : platform) (df : ref) (d : DataFrame) (w : world) :
  store w !! df = Some d → frame_ok d → NoDup (columns d) →
  use_ai P = true →
  ∃ r e w',
    enrich_with_analysis P df w = (Ok r, w') ∧ store w' !! r = Some e ∧
    (∀ j row, (series_of d <$> rows d) !! j = Some row → is_matched row →
       ∃ row', (series_of e <$> rows e) !! j = Some row' ∧
         field row' "ai_explanation"
           (VStr (if decide (j < 5)
                  then "Transaction is consistent across systems."
                  else "Skipped AI analysis (limit reached)."))) ∧
    length (prompts w')
    ≤ length (prompts w)
      + length (filter (λ row, ¬ is_matched row)
                       (take 5 (series_of d <$> rows d))).
Proof.
  intros Hdf Hok Hnd Hai.
  destruct (enrich_with_analysis_spec P df d w Hdf Hok Hnd)
    as (rs' & ps & e & Hrun & Hrel & Hrows & Hlen).
  exists (length (store w)), e, (new_frame e (add_prompts w ps)).2.
  rewrite Hrun. unfold new_frame at 1. simpl.
  split; [reflexivity|]. split; [apply list_lookup_middle; reflexivity|]. split.
  - intros j row Hrow Hm. rewrite Hrows.
    destruct (enriched_lookup P _ _ _ _ _ _ _ Hrel Hrow)
      as (reason & action & text & h & p & Hrow' & Hstep).
    eexists. split; [exact Hrow'|].
    assert (Hnd0 : NoDup row.*1).
    { pose proof (distinct_rows d Hok Hnd) as Hall.
      rewrite Forall_lookup in Hall. apply (Hall _ _ Hrow). }
    destruct (enriched_row_fields row reason action text Hnd0) as (_ & _ & Hf).
    simpl in Hstep.
    destruct Hstep; unfold ai_limit in *; try congruence; try contradiction.
    + rewrite decide_False by lia. exact Hf.
    + rewrite decide_True by lia. exact Hf.
  - rewrite length_app.
    pose proof (enriched_prompts_bound _ _ _ _ _ _ Hrel) as Hb.
    unfold ai_limit in Hb. simpl in Hb. lia.
Qed.

(** The amended C6 at six matched records and one mismatch. *)
Lemma matched_records_bypass_collaborator_witness :
  ∃ r e w',
    enrich_with_analysis ai_platform 0 (initial_world [six_matched_one_mismatch])
    = (Ok r, w') ∧ store w' !! r = Some e ∧
    (∀ j row, (series_of six_matched_one_mismatch
                 <$> rows six_matched_one_mismatch) !! j = Some row →
       is_matched row →
       ∃ row', (series_of e <$> rows e) !! j = Some row' ∧
         field row' "ai_explanation"
           (VStr (if decide (j < 5)
                  then "Transaction is consistent across systems."
                  else "Skipped AI analysis (limit reached)."))) ∧
    length (prompts w')
    ≤ length (prompts (initial_world [six_matched_one_mismatch]))
      + length (filter (λ row, ¬ is_matched row)
                       (take 5 (series_of six_matched_one_mismatch
                                  <$> rows six_matched_one_mismatch))).
Proof.
  apply (matched_records_bypass_collaborator ai_platform 0 six_matched_one_mismatch
           (initial_world [six_matched_one_mismatch])).
  - reflexivity.
  - unfold frame_ok. by_computation.
  - by_computation.
  - reflexivity.
Defined.

Lemma ai_step_text P i row history text ps :
  ai_step P i row history text ps →
  text ∈ [ai_skipped; ai_limit_reached; ai_consistent; ai_unavailable] ∨
  ∃ prompt t, chat_create P history prompt = Content t ∧ text = str_strip P t.
Proof. destruct 1; [left; set_solver..|right; eauto]. Qed.

Lemma enriched_populated P : ∀ i rs history rs' ps,
  enriched P i rs history rs' ps →
  Forall (λ row : Series, NoDup row.*1) rs →
  Forall (λ row' : Series, ∃ reason action text,
            field row' "probable_reason" (VStr reason) ∧
            field row' "suggested_action" (VStr action) ∧
            field row' "ai_explanation" (VStr text) ∧
            (text ∈ [ai_skipped; ai_limit_reached; ai_consistent; ai_unavailable] ∨
             ∃ history' prompt t,
               chat_create P history' prompt = Content t ∧ text = str_strip P t)) rs'.
Proof.
  intros i rs history rs' ps H.
  induction H as [|i row rs history reason action text ps rs' ps' Hstep Hrest IH];
    intros Hnd; [constructor|].
  apply Forall_cons in Hnd as [Hrow Hrs]. constructor; [|auto].
  destruct (enriched_row_fields row reason action text Hrow) as (H1 & H2 & H3).
  exists reason, action, text. repeat split; try assumption.
  destruct (ai_step_text _ _ _ _ _ _ Hstep) as [Hfixed|(prompt & t & Hc & Ht)];
    [left; assumption|right; eauto].
Qed.

(** ** Parts of the world that a computation leaves alone *)

Section Unchanged.
Context {X : Type} (proj : world → X).

Lemma unchanged_ret {A} (a : A) : unchanged proj (ret a).
Proof. intros w. reflexivity. Qed.

Lemma unchanged_raise {A} (e : exn) : unchanged proj (raise (A := A) e).
Proof. intros w. reflexivity. Qed.

Lemma unchanged_lift {A} (r : result A) : unchanged proj (lift r).
Proof. intros w. reflexivity. Qed.

Lemma unchanged_bind {A B} (m : M A) (k : A → M B) :
  unchanged proj m → (∀ a, unchanged proj (k a)) → unchanged proj (bind m k).
Proof.
  intros Hm Hk w. unfold bind. specialize (Hm w).
  destruct (m w) as [[a|e] w1]; simpl in *; [|exact Hm].
  rewrite (Hk a w1). exact Hm.
Qed.

Lemma unchanged_try_except {A} (m : M A) (h : exn → M A) :
  unchanged proj m → (∀ e, unchanged proj (h e)) → unchanged proj (try_except m h).
Proof.
  intros Hm Hh w. unfold try_except. specialize (Hm w).
  destruct (m w) as [[a|e] w1]; simpl in *; [exact Hm|].
  rewrite (Hh e w1). exact Hm.
Qed.

Lemma unchanged_deref r : unchanged proj (deref r).
Proof. intros w. unfold deref. destruct (store w !! r); reflexivity. Qed.

Lemma unchanged_read_file path : unchanged proj (read_file path).
Proof. intros w. unfold read_file. destruct (files w !! path); reflexivity. Qed.

Lemma unchanged_new_frame d : store_blind proj → unchanged proj (new_frame d).
Proof. intros Hb w. apply (Hb (store w ++ [d]) w). Qed.

Lemma unchanged_assign r d : store_blind proj → unchanged proj (assign r d).
Proof. intros Hb w. apply (Hb (<[r := d]> (store w)) w). Qed.

End Unchanged.

Lemma store_blind_slack_calls : store_blind slack_calls.
Proof. intros s w. reflexivity. Qed.

Lemma store_blind_files : store_blind files.
Proof. intros s w. reflexivity. Qed.

Lemma silent_write_file path f : silent (write_file path f).
Proof. intros w. reflexivity. Qed.

Lemma silent_chat P prompt : silent (chat P prompt).
Proof.
  intros w. unfold chat. destruct (chat_create P (prompts w) prompt); reflexivity.
Qed.

Ltac unchanged_step :=
  first
    [ apply unchanged_ret | apply unchanged_raise | apply unchanged_lift
    | apply unchanged_deref | apply unchanged_read_file
    | apply unchanged_new_frame; assumption
    | apply unchanged_assign; assumption
    | apply silent_write_file | apply silent_chat
    | apply unchanged_bind; [|intros ?]
    | apply unchanged_try_except; [|intros ?]
    | match goal with
      | |- unchanged _ (if ?b then _ else _) => destruct b
      | |- unchanged _ (match ?x with _ => _ end) => destruct x
      end ].

(** Updating an object, and normalizing a record set, change the object
    store only. *)
Lemma unchanged_modify {X} (proj : world → X) r f :
  store_blind proj → unchanged proj (modify r f).
Proof. intros Hb. unfold modify. repeat unchanged_step. Qed.

Lemma unchanged_normalize {X} (proj : world → X) P r name :
  store_blind proj → unchanged proj (normalize P r name).
Proof.
  intros Hb. unfold normalize.
  repeat first [apply unchanged_modify; assumption | unchanged_step].
Qed.



(** ** The notifier *)

(** [send_slack_alert] contains every failure and leaves the store alone. *)
Lemma send_slack_alert_returns P summary path w :
  (send_slack_alert P summary path w).1 = Ok tt ∧
  store (send_slack_alert P summary path w).2 = store w.
Proof.
  unfold send_slack_alert.
  destruct (notifier_USE_SLACK P); [|split; reflexivity]. cbn [negb].
  destruct (truthy (getenv P "SLACK_BOT_TOKEN")); [|split; reflexivity]. cbn [negb].
  destruct (truthy (getenv P "SLACK_CHANNEL_ID")); [|split; reflexivity]. cbn [negb].
  unfold try_except, bind, read_file, lift, ret.
  destruct (files w !! path) as [[df|data]|]; try (split; reflexivity).
  destruct (filter _ data) as [|item items]; [split; reflexivity|].
  unfold upload. destruct (files_upload_v2 P path); [split; reflexivity|].
  unfold post. match goal with |- context [chat_postMessage P ?b] =>
    destruct (chat_postMessage P b) end; split; reflexivity.
Qed.

(** With its own flag off, [send_slack_alert] does nothing. *)
Lemma send_slack_alert_disabled P summary path w :
  notifier_USE_SLACK P = false → send_slack_alert P summary path w = (Ok tt, w).
Proof. intros H. unfold send_slack_alert. rewrite H. reflexivity. Qed.




(** ** Computations that leave earlier objects alone *)

Section Keeps.
Context {A B : Type} (n : nat).

Lemma keeps_same (m : M A) :
  (∀ w, store (m w).2 = store w) → keeps n m.
Proof. intros H w Hn. rewrite H. auto. Qed.

Lemma keeps_bind (m : M A) (k : A → M B) :
  keeps n m → (∀ a, keeps n (k a)) → keeps n (bind m k).
Proof.
  intros Hm Hk w Hn. unfold bind. destruct (Hm w Hn) as [Ht Hl].
  destruct (m w) as [[a|e] w1]; simpl in *; [|auto].
  destruct (Hk a w1 Hl) as [Ht' Hl']. split; congruence.
Qed.

Lemma keeps_try_except (m : M A) (h : exn → M A) :
  keeps n m → (∀ e, keeps n (h e)) → keeps n (try_except m h).
Proof.
  intros Hm Hh w Hn. unfold try_except. destruct (Hm w Hn) as [Ht Hl].
  destruct (m w) as [[a|e] w1]; simpl in *; [auto|].
  destruct (Hh e w1 Hl) as [Ht' Hl']. split; congruence.
Qed.

(** A new object sits behind the ones that are kept. *)
Lemma keeps_new d (k : ref → M B) :
  (∀ r, n ≤ r → keeps n (k r)) → keeps n (bind (new_frame d) k).
Proof.
  intros Hk w Hn. unfold bind, new_frame.
  set (w1 := {| store := store w ++ [d]; prompts := prompts w;
                uploads := uploads w; posts := posts w; files := files w |}).
  assert (Hl : n ≤ length (store w1)) by (simpl; rewrite length_app; lia).
  destruct (Hk (length (store w)) Hn w1 Hl) as [Ht Hl'].
  split; [|exact Hl']. rewrite Ht. simpl. apply take_app_le, Hn.
Qed.
End Keeps.

Lemma keeps_ret {A} n (a : A) : keeps n (ret a).
Proof. apply keeps_same. reflexivity. Qed.

Lemma keeps_raise {A} n e : keeps n (raise (A := A) e).
Proof. apply keeps_same. reflexivity. Qed.

Lemma keeps_lift {A} n (r : result A) : keeps n (lift r).
Proof. apply keeps_same. reflexivity. Qed.

Lemma keeps_deref n r : keeps n (deref r).
Proof. apply keeps_same. intros w. unfold deref. destruct (store w !! r); reflexivity. Qed.

Lemma keeps_new_frame n d : keeps n (new_frame d).
Proof.
  intros w Hn. simpl. rewrite length_app. split; [apply take_app_le, Hn|lia].
Qed.

Lemma keeps_write_file n path f : keeps n (write_file path f).
Proof. apply keeps_same. reflexivity. Qed.

Lemma keeps_read_file n path : keeps n (read_file path).
Proof.
  apply keeps_same. intros w. unfold read_file. destruct (files w !! path); reflexivity.
Qed.

Lemma keeps_chat n P prompt : keeps n (chat P prompt).
Proof.
  apply keeps_same. intros w. unfold chat.
  destruct (chat_create P (prompts w) prompt); reflexivity.
Qed.

(** Updating an object in place keeps the objects before it. *)
Lemma keeps_assign n r d : n ≤ r → keeps n (assign r d).
Proof.
  intros Hr w Hn. simpl. rewrite length_insert. split; [|exact Hn].
  apply take_insert_ge, Hr.
Qed.

Ltac keeps_step :=
  first
    [ apply keeps_ret | apply keeps_raise | apply keeps_lift
    | apply keeps_deref | apply keeps_write_file | apply keeps_read_file
    | apply keeps_chat
    | apply keeps_assign; assumption
    | apply keeps_new; intros ? ?
    | apply keeps_new_frame
    | apply keeps_bind; [|intros ?]
    | apply keeps_try_except; [|intros ?]
    | match goal with
      | |- keeps _ (if ?b then _ else _) => destruct b
      | |- keeps _ (match ?x with _ => _ end) => destruct x
      end ].

Lemma keeps_modify n r f : n ≤ r → keeps n (modify r f).
Proof. intros Hr. unfold modify. repeat keeps_step. Qed.

Lemma keeps_normalize P n r name : keeps n (normalize P r name).
Proof.
  unfold normalize.
  repeat first [apply keeps_modify; assumption | keeps_step].
Qed.

Lemma keeps_enrich_rows P n rs : ∀ i, keeps n (enrich_rows P i rs).
Proof.
  induction rs as [|row rs IH]; intros i; simpl; [apply keeps_ret|].
  apply keeps_bind; [|intros ?; apply keeps_bind; [apply IH|intros ?; apply keeps_ret]].
  unfold enrich_row, ai_explanation. repeat keeps_step.
Qed.

Lemma keeps_save_report P n r timestamp : keeps n (save_report P r timestamp).
Proof.
  unfold save_report, enrich_with_analysis.
  repeat first [apply keeps_enrich_rows | keeps_step].
Qed.

Lemma keeps_send_slack_alert P n summary path :
  keeps n (send_slack_alert P summary path).
Proof.
  apply keeps_same. intros w. apply send_slack_alert_returns.
Qed.

Lemma keeps_reconcile P n a b : keeps n (reconcile P a b).
Proof.
  unfold reconcile.
  repeat first [ apply keeps_normalize | apply keeps_modify; assumption
               | apply keeps_save_report | apply keeps_send_slack_alert
               | keeps_step ].
Qed.

(** C10.  A reconciliation run never mutates its inputs: whatever the run
    does, and whether it returns or raises, the caller's internal and gateway
    record sets hold afterwards the columns and the rows they held before (as
    does every other object that existed before the call); normalization
    works on copies. *)
Theorem reconcile_never_mutates_inputs
    (P : platform) (df_internal df_gateway : ref) (di dg : DataFrame) (w : world) :
  store w !! df_internal = Some di →
  store w !! df_gateway = Some dg →
  store (reconcile P df_internal df_gateway w).2 !! df_internal = Some di ∧
  store (reconcile P df_internal df_gateway w).2 !! df_gateway = Some dg ∧
  take (length (store w)) (store (reconcile P df_internal df_gateway w).2) = store w.
Proof.
  intros Hi Hg.
  destruct (keeps_reconcile P (length (store w)) df_internal df_gateway w (le_n _))
    as [Htake _].
  rewrite firstn_all in Htake.
  assert (Hkeep : ∀ r d, store w !! r = Some d →
            store (reconcile P df_internal df_gateway w).2 !! r = Some d).
  { intros r d Hr. pose proof (lookup_lt_Some _ _ _ Hr) as Hlt.
    rewrite <- (lookup_take_lt _ (length (store w))) by exact Hlt.
    rewrite Htake. exact Hr. }
  auto.
Qed.

(** C10 at a run with one record on either side, which alerts Slack. *)
Lemma reconcile_never_mutates_inputs_witness :
  store (reconcile slack_platform 0 1
           (initial_world [usd_record; gateway_csv])).2 !! 0
  = Some usd_record ∧
  store (reconcile slack_platform 0 1
           (initial_world [usd_record; gateway_csv])).2 !! 1
  = Some gateway_csv ∧
  take (length (store (initial_world [usd_record; gateway_csv])))
       (store (reconcile slack_platform 0 1
                 (initial_world [usd_record; gateway_csv])).2)
  = store (initial_world [usd_record; gateway_csv]).
Proof.
  apply (reconcile_never_mutates_inputs slack_platform 0 1
           usd_record gateway_csv (initial_world [usd_record; gateway_csv])).
  - reflexivity.
  - reflexivity.
Defined.

(** ** The outer join *)

Lemma string_length_app (s t : string) :
  String.length (s +:+ t) = String.length s + String.length t.
Proof.
  induction s as [|c s IH]; [reflexivity|].
  change (String c s +:+ t) with (String c (s +:+ t)). simpl. rewrite IH. reflexivity.
Qed.

(** A suffix never produces the key label. *)
Lemma suffixed_key suffix others c :
  5 < String.length suffix →
  suffixed suffix others c = "tx_id" ↔ c = "tx_id" ∧ "tx_id" ∉ others.
Proof.
  intros Hlen. unfold suffixed. destruct (bool_decide (c ∈ others)) eqn:E.
  - apply bool_decide_eq_true in E. split.
    + intros H. apply (f_equal String.length) in H.
      rewrite string_length_app in H. simpl in H. lia.
    + intros [-> H]. contradiction.
  - apply bool_decide_eq_false in E. split; [intros ->; auto|intros [-> _]; reflexivity].
Qed.

Lemma labelled_elem {V} k (row : list (string * V)) v :
  v ∈ labelled k row → (k, v) ∈ row.
Proof.
  unfold labelled. intros H. apply list_elem_of_fmap in H as ([k' v'] & -> & H).
  apply list_elem_of_filter in H as [Hk H]. simpl in *. subst k'. exact H.
Qed.

(** Relabelling columns that are not the key does not move the key. *)
Lemma labelled_zip_rename {V} k (f : string → string) cols (r : list V) :
  (∀ c, c ∈ cols → f c = k ↔ c = k) →
  labelled k (zip (f <$> cols) r) = labelled k (zip cols r).
Proof.
  revert r. induction cols as [|c cols IH]; intros r Hf; [reflexivity|].
  destruct r as [|v r]; [reflexivity|].
  rewrite fmap_cons. simpl. rewrite !labelled_cons. simpl.
  rewrite IH by (intros c' Hc'; apply Hf; right; exact Hc').
  pose proof (Hf c ltac:(left)) as Hc.
  destruct (decide (f c = k)), (decide (c = k)); tauto.
Qed.

Lemma labelled_zip_absent {V} k cols (r : list V) :
  k ∉ cols → labelled k (zip cols r) = [].
Proof.
  intros Hk. apply labelled_absent. intros Hin. apply Hk.
  apply list_elem_of_fmap in Hin as ([c v] & -> & Hin).
  apply elem_of_zip_l in Hin. exact Hin.
Qed.

(** Under a label that occurs once, a row shows the cell at its position. *)
Lemma labelled_zip_key {V} k cols : ∀ (r : list V) i c v,
  length (filter (λ c, c = k) cols) = 1 →
  list_find (λ c, c = k) cols = Some (i, c) →
  r !! i = Some v →
  labelled k (zip cols r) = [v].
Proof.
  induction cols as [|c0 cols IH]; intros r i c v Hcount Hfind Hv; [discriminate|].
  destruct r as [|v0 r]; [rewrite lookup_nil in Hv; discriminate|].
  simpl. rewrite labelled_cons. simpl.
  rewrite filter_cons in Hcount. simpl in Hfind.
  destruct (decide (c0 = k)) as [->|Hne].
  - injection Hfind as <- <-. simpl in Hv. injection Hv as ->.
    simpl in Hcount. f_equal. apply labelled_zip_absent.
    intros Hin.
    assert (Hin' : k ∈ filter (λ c, c = k) cols)
      by (apply list_elem_of_filter; auto).
    destruct (filter _ cols); [inversion Hin'|discriminate].
  - destruct (list_find _ cols) as [[i' c']|] eqn:Hf; [|discriminate].
    simpl in Hfind. injection Hfind as <- <-. simpl in Hv.
    eapply IH; eauto.
Qed.

Lemma key_position_spec df i :
  key_position df = Ok i →
  length (filter (λ c, c = "tx_id") (columns df)) = 1 ∧
  list_find (λ c, c = "tx_id") (columns df) = Some (i, "tx_id") ∧
  i < length (columns df).
Proof.
  unfold key_position, count_label. intros H.
  destruct (length (filter _ (columns df))) as [|[|n]] eqn:Hc; try discriminate;
    destruct (list_find _ (columns df)) as [[j c]|] eqn:Hf; try discriminate.
  injection H as ->. pose proof Hf as Hf'.
  apply list_find_Some in Hf' as (Hl & -> & _).
  repeat split. eapply lookup_lt_Some, Hl.
Qed.

Lemma mapM_ok_Forall2 {A B} (f : A → result B) l : ∀ bs,
  mapM f l = Ok bs → Forall2 (λ a b, f a = Ok b) l bs.
Proof.
  induction l as [|a l IH]; intros bs H; simpl in H.
  - injection H as <-. constructor.
  - destruct (f a) as [b|e] eqn:Hfa; [|discriminate]. simpl in H.
    destruct (mapM f l) as [bs0|e]; [|discriminate]. simpl in H.
    injection H as <-. constructor; auto.
Qed.

Lemma keyed_spec i df kr :
  keyed i df = Ok kr →
  kr.*2 = rows df ∧ Forall (λ p, p.2 !! i = Some (VStr p.1)) kr.
Proof.
  unfold keyed. intros H. apply mapM_ok_Forall2 in H.
  induction H as [|r p rs kr Hp Hrest [IH1 IH2]]; [split; [reflexivity|constructor]|].
  unfold key_of in Hp.
  destruct (r !! i) as [[s| | |]|] eqn:Hr; try discriminate.
  injection Hp as <-. simpl. split; [f_equal; exact IH1|].
  constructor; [exact Hr|exact IH2].
Qed.

(** Turning integer columns into float columns keeps the shape of the rows
    and their keys. *)
Lemma upcast_ints_side i df kr :
  frame_ok df → keyed i df = Ok kr → i < length (columns df) →
  side_ok i (length (columns df)) (zip kr.*1 (rows df)) ∧
  side_ok i (length (columns df)) (zip kr.*1 (rows (upcast_ints df))).
Proof.
  intros Hok Hk Hi. destruct (keyed_spec _ _ _ Hk) as [Hrows Hkeys].
  unfold side_ok. rewrite <- Hrows. simpl. rewrite <- Hrows.
  unfold frame_ok in Hok. rewrite <- Hrows in Hok. clear Hk Hrows.
  induction kr as [|[k r] kr IH]; [split; constructor|].
  rewrite !fmap_cons in *. simpl in *.
  apply Forall_cons in Hok as [Hr Hok]. apply Forall_cons in Hkeys as [Hkr Hkeys].
  destruct (IH Hok Hkeys) as [IH1 IH2]. simpl in *.
  split; constructor; simpl; auto.
  split.
  - rewrite lookup_zip_with, Hkr.
    destruct (lookup_lt_is_Some_2 (columns df) i Hi) as [c ->]. simpl.
    destruct (int_column c df); reflexivity.
  - rewrite length_zip_with. lia.
Qed.

Lemma side_ok_labelled i n side k l :
  side_ok i n side → labelled k side = [l] →
  l !! i = Some (VStr k) ∧ length l = n.
Proof.
  intros Hside Hl.
  assert (Hin : (k, l) ∈ side) by (apply labelled_elem; rewrite Hl; left).
  unfold side_ok in Hside. rewrite Forall_forall in Hside.
  apply (Hside _ Hin).
Qed.

(** With unique keys on either side, a key that occurs yields one joined
    row, which shows the key at the position of the left key column. *)
Lemma join_key_single iL iR nL nR SL SR k :
  side_ok iL nL SL → side_ok iR nR SR →
  NoDup SL.*1 → NoDup SR.*1 → iL < nL →
  k ∈ SL.*1 ∨ k ∈ SR.*1 →
  ∃ lpart rpart tag,
    join_key iL iR nL nR SL SR k = [lpart ++ rpart ++ [tag]] ∧
    length lpart = nL ∧ length rpart = nR - 1 ∧ lpart !! iL = Some (VStr k).
Proof.
  intros HL HR HndL HndR Hi Hk. unfold join_key.
  destruct (labelled_unique k SL HndL) as [Hl|[l Hl]];
    destruct (labelled_unique k SR HndR) as [Hr|[r Hr]]; rewrite Hl, Hr.
  - exfalso. destruct Hk as [Hk|Hk];
      [apply (labelled_present _ _ Hk), Hl|apply (labelled_present _ _ Hk), Hr].
  - destruct (side_ok_labelled _ _ _ _ _ HR Hr) as [Hkey Hlen].
    eexists _, _, _. split; [reflexivity|]. repeat split.
    + rewrite length_insert, length_replicate. reflexivity.
    + rewrite length_delete by eauto. lia.
    + apply list_lookup_insert_eq. rewrite length_replicate. exact Hi.
  - destruct (side_ok_labelled _ _ _ _ _ HL Hl) as [Hkey Hlen].
    eexists _, _, _. split; [reflexivity|]. repeat split; auto.
    apply length_replicate.
  - destruct (side_ok_labelled _ _ _ _ _ HL Hl) as [Hkey Hlen].
    destruct (side_ok_labelled _ _ _ _ _ HR Hr) as [Hkey' Hlen'].
    eexists _, _, _. split; [reflexivity|]. repeat split; auto.
    rewrite length_delete by eauto. lia.
Qed.

Lemma key_not_in_others df i :
  key_position df = Ok i → "tx_id" ∉ delete i (columns df).
Proof.
  intros H. destruct (key_position_spec _ _ H) as (Hcount & Hfind & Hi).
  apply list_find_Some in Hfind as (Hl & _ & _).
  rewrite <- (take_drop_middle _ _ _ Hl) in Hcount.
  rewrite filter_app, filter_cons, decide_True, length_app in Hcount by reflexivity.
  simpl in Hcount. rewrite delete_take_drop. intros Hin.
  apply elem_of_app in Hin as [Hin|Hin].
  - assert (Hin' : "tx_id" ∈ filter (λ c, c = "tx_id") (take i (columns df)))
      by (apply list_elem_of_filter; auto).
    destruct (filter _ (take i (columns df))); [inversion Hin'|simpl in Hcount; lia].
  - assert (Hin' : "tx_id" ∈ filter (λ c, c = "tx_id") (drop (S i) (columns df)))
      by (apply list_elem_of_filter; auto).
    destruct (filter _ (drop (S i) (columns df))); [inversion Hin'|simpl in Hcount; lia].
Qed.

(** In a joined row the one [tx_id] field holds the key. *)
Lemma merged_row_key L R iL iR lpart rpart tag k :
  key_position L = Ok iL → key_position R = Ok iR →
  length lpart = length (columns L) →
  length rpart = length (columns R) - 1 →
  lpart !! iL = Some (VStr k) →
  labelled "tx_id"
    (zip ((suffixed "_internal" (delete iR (columns R)) <$> columns L)
          ++ (suffixed "_gateway" (columns L) <$> delete iR (columns R))
          ++ ["_merge"])
         (lpart ++ rpart ++ [tag]))
  = [VStr k].
Proof.
  intros HL HR Hl Hr Hk.
  destruct (key_position_spec _ _ HL) as (HcountL & HfindL & HiL).
  destruct (key_position_spec _ _ HR) as (_ & _ & HiR).
  pose proof (key_not_in_others _ _ HR) as Hother.
  rewrite zip_with_app by (rewrite length_fmap; lia).
  rewrite zip_with_app
    by (rewrite length_fmap, length_delete by (apply lookup_lt_is_Some_2, HiR); lia).
  rewrite !labelled_app.
  rewrite labelled_zip_rename.
  2:{ intros c _. rewrite suffixed_key by (simpl; lia). tauto. }
  rewrite (labelled_zip_key _ _ _ _ _ _ HcountL HfindL Hk).
  rewrite labelled_zip_absent.
  2:{ intros Hin. apply list_elem_of_fmap in Hin as (c & Hc & Hin).
      symmetry in Hc. apply suffixed_key in Hc as [-> _]; [|simpl; lia].
      contradiction. }
  reflexivity.
Qed.

Lemma bind_singletons {A B} (f : A → list B) (Q : A → B → Prop) l :
  (∀ a, a ∈ l → ∃ b, f a = [b] ∧ Q a b) → Forall2 Q l (l ≫= f).
Proof.
  induction l as [|a l IH]; intros H; [constructor|].
  rewrite bind_cons. destruct (H a ltac:(left)) as (b & -> & Hq).
  simpl. constructor; [exact Hq|]. apply IH. intros a' Ha'. apply H. right. exact Ha'.
Qed.

(** One record per key: when records and distinct keys are paired up, the
    records of a key are exactly one. *)
Lemma one_record_per_key {B} (Q : string → B → Prop) `{∀ k b, Decision (Q k b)}
    keys records k :
  Forall2 Q keys records →
  (∀ k1 k2 b, Q k1 b → Q k2 b → k1 = k2) →
  NoDup keys → k ∈ keys →
  length (filter (Q k) records) = 1.
Proof.
  intros HF Hfun. induction HF as [|k0 b0 keys records Hq HF IH]; intros Hnd Hk;
    [inversion Hk|].
  apply NoDup_cons in Hnd as [Hk0 Hnd]. rewrite filter_cons.
  destruct (decide (Q k b0)) as [Hqk|Hqk].
  - assert (k = k0) by (eapply Hfun; eauto). subst k0. simpl. f_equal.
    assert (Hnone : filter (Q k) records = []).
    { destruct (filter (Q k) records) as [|b bs] eqn:Hf; [reflexivity|]. exfalso.
      assert (Hb : b ∈ filter (Q k) records) by (rewrite Hf; left).
      apply list_elem_of_filter in Hb as [Hqb Hb].
      apply list_elem_of_lookup in Hb as [j Hj].
      destruct (Forall2_lookup_r _ _ _ _ _ HF Hj) as (k' & Hk' & Hq').
      assert (k = k') by (eapply Hfun; eauto). subst k'.
      apply Hk0. eapply list_elem_of_lookup_2, Hk'. }
    rewrite Hnone. reflexivity.
  - apply elem_of_cons in Hk as [->|Hk]; [contradiction|]. auto.
Qed.

Lemma has_key_functional m k1 k2 r : has_key m k1 r → has_key m k2 r → k1 = k2.
Proof. unfold has_key, field. congruence. Qed.

(** The joined rows, paired with the sorted keys of both sides. *)
Lemma merge_rows L R iL iR kL kR :
  frame_ok L → frame_ok R →
  key_position L = Ok iL → key_position R = Ok iR →
  keyed iL L = Ok kL → keyed iR R = Ok kR →
  NoDup kL.*1 → NoDup kR.*1 → mergeable L R →
  ∃ m, merge L R = Ok m ∧
       Forall2 (has_key m) (merge_sort String.le (remove_dups (kL.*1 ++ kR.*1)))
               (rows m).
Proof.
  intros HokL HokR HposL HposR HkL HkR HndL HndR (Hres1 & Hres2 & Hres3 & Hcl1 & Hcl2).
  unfold other_columns in Hcl1, Hcl2. rewrite HposR in Hcl1, Hcl2.
  destruct (key_position_spec _ _ HposL) as (_ & _ & HiL).
  destruct (key_position_spec _ _ HposR) as (_ & _ & HiR).
  destruct (upcast_ints_side _ _ _ HokL HkL HiL) as [HsL HsL'].
  destruct (upcast_ints_side _ _ _ HokR HkR HiR) as [HsR HsR'].
  destruct (keyed_spec _ _ _ HkL) as [HrowsL _].
  destruct (keyed_spec _ _ _ HkR) as [HrowsR _].
  unfold merge. rewrite HposL. cbn [bind_result]. rewrite HposR. cbn [bind_result].
  rewrite HkL. cbn [bind_result]. rewrite HkR. cbn [bind_result].
  rewrite (bool_decide_eq_false_2 _ Hres1), (bool_decide_eq_false_2 _ Hres2),
    (bool_decide_eq_false_2 _ Hres3), Hcl1, Hcl2. simpl orb. cbv iota.
  eexists. split; [reflexivity|]. simpl rows.
  apply bind_singletons. intros k Hk.
  apply (elem_of_Permutation_proper _ _ _ (merge_sort_Permutation _ _)) in Hk.
  apply elem_of_remove_dups, elem_of_app in Hk.
  set (SL := zip kL.*1 (rows (if bool_decide (Exists (λ k, k ∉ kL.*1) kR.*1)
                              then upcast_ints L else L))).
  set (SR := zip kR.*1 (rows (if bool_decide (Exists (λ k, k ∉ kR.*1) kL.*1)
                              then upcast_ints R else R))).
  assert (HSL : side_ok iL (length (columns L)) SL)
    by (unfold SL; destruct (bool_decide (Exists _ kR.*1)); assumption).
  assert (HSR : side_ok iR (length (columns R)) SR)
    by (unfold SR; destruct (bool_decide (Exists _ kL.*1)); assumption).
  assert (HlenL : length kL.*1 = length (rows L))
    by (rewrite <- HrowsL, !length_fmap; reflexivity).
  assert (HlenR : length kR.*1 = length (rows R))
    by (rewrite <- HrowsR, !length_fmap; reflexivity).
  assert (HfstL : SL.*1 = kL.*1).
  { unfold SL. apply fst_zip. rewrite HlenL.
    destruct (bool_decide (Exists _ kR.*1)); simpl; rewrite ?length_fmap; lia. }
  assert (HfstR : SR.*1 = kR.*1).
  { unfold SR. apply fst_zip. rewrite HlenR.
    destruct (bool_decide (Exists _ kL.*1)); simpl; rewrite ?length_fmap; lia. }
  destruct (join_key_single iL iR (length (columns L)) (length (columns R)) SL SR k)
    as (lpart & rpart & tag & Hjoin & Hl & Hr & Hkey);
    rewrite ?HfstL, ?HfstR; auto.
  exists (lpart ++ rpart ++ [tag]). split; [exact Hjoin|].
  unfold has_key, field, series_of. simpl columns.
  apply (merged_row_key L R iL iR); assumption.
Qed.

(** Completeness of the join: for two normalized record sets whose [tx_id]
    is unique within each set, the join returns a record set with exactly one
    record for each [tx_id] that appears in either set and no other record, so
    the record count is the size of the union of the two key sets.
    ([reconcile] then adds the discrepancy_type column and drops the
    provenance column, which leaves the records in place.) *)
Theorem join_complete (L R : DataFrame) (ksL ksR : list string) :
  frame_ok L → frame_ok R →
  keys_of L ksL → keys_of R ksR →
  NoDup ksL → NoDup ksR →
  mergeable L R →
  ∃ m, merge L R = Ok m ∧
       (∀ k, k ∈ ksL ∨ k ∈ ksR → length (filter (has_key m k) (rows m)) = 1) ∧
       Forall (λ r, ∃ k, (k ∈ ksL ∨ k ∈ ksR) ∧ has_key m k r) (rows m) ∧
       length (rows m) = size (list_to_set ksL ∪ list_to_set ksR : gset string).
Proof.
  intros HokL HokR (iL & kL & HposL & HkL & <-) (iR & kR & HposR & HkR & <-)
    HndL HndR Hm.
  destruct (merge_rows L R iL iR kL kR) as (m & Hrun & Hpairs); auto.
  set (keys := merge_sort String.le (remove_dups (kL.*1 ++ kR.*1))) in *.
  assert (Hperm : keys ≡ₚ remove_dups (kL.*1 ++ kR.*1))
    by apply merge_sort_Permutation.
  assert (Hnd : NoDup keys) by (rewrite Hperm; apply NoDup_remove_dups).
  assert (Hin : ∀ k, k ∈ keys ↔ k ∈ kL.*1 ∨ k ∈ kR.*1).
  { intros k. rewrite Hperm, elem_of_remove_dups, elem_of_app. reflexivity. }
  exists m. split; [exact Hrun|]. split; [|split].
  - intros k Hk. eapply one_record_per_key; eauto using has_key_functional.
    apply Hin, Hk.
  - apply Forall_forall. intros r Hr. apply list_elem_of_lookup in Hr as [j Hj].
    destruct (Forall2_lookup_r _ _ _ _ _ Hpairs Hj) as (k & Hk & Hq).
    exists k. split; [|exact Hq]. apply Hin. eapply list_elem_of_lookup_2, Hk.
  - rewrite <- (Forall2_length _ _ _ Hpairs), Hperm.
    rewrite <- (size_list_to_set (C := gset string)) by apply NoDup_remove_dups.
    f_equal. apply set_eq. intros k.
    rewrite elem_of_list_to_set, elem_of_remove_dups, elem_of_app, elem_of_union,
      !elem_of_list_to_set. reflexivity.
Qed.

(** Completeness of the join at the keys B, A and C, A. *)
Lemma join_complete_witness :
  ∃ m, merge normalized_internal normalized_gateway = Ok m ∧
       (∀ k, k ∈ ["B"; "A"] ∨ k ∈ ["C"; "A"] →
             length (filter (has_key m k) (rows m)) = 1) ∧
       Forall (λ r, ∃ k, (k ∈ ["B"; "A"] ∨ k ∈ ["C"; "A"]) ∧ has_key m k r) (rows m) ∧
       length (rows m)
       = size (list_to_set ["B"; "A"] ∪ list_to_set ["C"; "A"] : gset string).
Proof.
  apply (join_complete normalized_internal normalized_gateway ["B"; "A"] ["C"; "A"]).
  - unfold frame_ok. by_computation.
  - unfold frame_ok. by_computation.
  - eexists _, _. split; [reflexivity|]. split; reflexivity.
  - eexists _, _. split; [reflexivity|]. split; reflexivity.
  - by_computation.
  - by_computation.
  - unfold mergeable. repeat split; try by_computation; reflexivity.
Defined.

(** ** The defects *)

(** C5 fails on the code.  On a record set that has both a [reference] and
    an [id] field, [normalize] renames both to [tx_id] (two [if]s in a row, not
    an [if]/[elif]): the copy has two [tx_id] columns, and the join then
    refuses it. *)
Lemma normalize_renames_reference_and_id (P : platform) :
  ∃ w',
    normalize P 0 "internal" (initial_world [reference_and_id]) = (Ok 1, w') ∧
    columns <$> store w' !! 1 = Some ["tx_id"; "tx_id"; "amount"; "status"; "source"] ∧
    (reconcile P 0 0 (initial_world [reference_and_id])).1
    = Raise (ValueError "The column label 'tx_id' is not unique.").
Proof.
  eexists. split; [vm_compute; reflexivity|].
  split; [reflexivity|vm_compute; reflexivity].
Qed.

(** C4 fails on the code.  With an unsupported internal mode the loader
    hands over an empty frame, which has no [tx_id] column: [normalize] raises
    KeyError, the run ends with the one-line error of [main], no report is
    written and nothing is classified. *)
Lemma unsupported_mode_aborts_the_run :
  ∃ w',
    load_internal_data unsupported_mode_platform (initial_world [])
    = new_frame empty_frame (initial_world []) ∧
    main unsupported_mode_platform (initial_world [])
    = (Ok (Failed (KeyError "tx_id")), w') ∧
    files w' = ∅ ∧
    Forall (λ d, "discrepancy_type" ∉ columns d) (store w').
Proof.
  eexists. split; [reflexivity|]. split; [vm_compute; reflexivity|].
  split; [reflexivity|by_computation].
Qed.

(** ** Running on a new object *)

Lemma new_frame_fresh d w :
  new_frame d w = (Ok (length (store w)), set_store (store w ++ [d]) w).
Proof. reflexivity. Qed.

Lemma deref_fresh d w :
  deref (length (store w)) (set_store (store w ++ [d]) w)
  = (Ok d, set_store (store w ++ [d]) w).
Proof.
  unfold deref. simpl. rewrite list_lookup_middle by reflexivity. reflexivity.
Qed.

Lemma modify_fresh f d w :
  modify (length (store w)) f (set_store (store w ++ [d]) w)
  = match f d with
    | Ok d' => (Ok tt, set_store (store w ++ [d']) w)
    | Raise e => (Raise e, set_store (store w ++ [d]) w)
    end.
Proof.
  unfold modify, bind. rewrite deref_fresh. unfold lift.
  destruct (f d) as [d'|e]; [|reflexivity].
  unfold assign, set_store. simpl. f_equal. f_equal.
  rewrite insert_app_r_alt by lia. rewrite Nat.sub_diag. reflexivity.
Qed.

(** [normalize] on a frame without columns: the copy gets its [source]
    column, and the cast of [tx_id] raises KeyError. *)
Lemma normalize_empty P r name w :
  store w !! r = Some empty_frame →
  ∃ w', normalize P r name w = (Raise (KeyError "tx_id"), w').
Proof.
  intros Hr. unfold normalize.
  unfold bind at 1. unfold deref at 1. rewrite Hr.
  unfold bind at 1. rewrite new_frame_fresh.
  unfold bind at 1. rewrite deref_fresh.
  change (in_columns "reference" (rename_with (str_lower P) empty_frame)) with false.
  cbv iota. unfold bind at 1. unfold ret at 1.
  unfold bind at 1. rewrite deref_fresh.
  change (in_columns "id" (rename_with (str_lower P) empty_frame)) with false.
  cbv iota. unfold bind at 1. unfold ret at 1.
  unfold bind at 1. rewrite modify_fresh.
  unfold bind at 1. rewrite modify_fresh.
  eexists. reflexivity.
Qed.

(** ** The loaders *)

Lemma unchanged_normalize_gateway_data {X} (proj : world → X) df name :
  store_blind proj → unchanged proj (normalize_gateway_data df name).
Proof.
  intros Hb. unfold normalize_gateway_data.
  destruct (default [] _); repeat unchanged_step.
Qed.

(** Loading the gateway data changes the object store only. *)
Lemma unchanged_load_gateway_data {X} (proj : world → X) P :
  store_blind proj → unchanged proj (load_gateway_data P).
Proof.
  intros Hb. unfold load_gateway_data, fetch_gateway.
  repeat first [ apply unchanged_normalize_gateway_data; assumption
               | apply unchanged_modify; assumption
               | unchanged_step ].
Qed.

Lemma keeps_bind_fresh {A B} n (m : M A) (k : A → M B) (fresh : A → Prop) :
  keeps n m →
  (∀ w a, n ≤ length (store w) → (m w).1 = Ok a → fresh a) →
  (∀ a, fresh a → keeps n (k a)) →
  keeps n (bind m k).
Proof.
  intros Hm Hfresh Hk w Hn. unfold bind. destruct (Hm w Hn) as [Ht Hl].
  pose proof (Hfresh w) as Hf.
  destruct (m w) as [[a|e] w1]; simpl in *; [|auto].
  destruct (Hk a (Hf a Hn eq_refl) w1 Hl) as [Ht' Hl']. split; congruence.
Qed.

Lemma keeps_normalize_gateway_data n df name :
  keeps n (normalize_gateway_data df name).
Proof.
  unfold normalize_gateway_data. destruct (default [] _); repeat keeps_step.
Qed.

Lemma normalize_gateway_data_fresh n df name w r :
  n ≤ df → n ≤ length (store w) →
  (normalize_gateway_data df name w).1 = Ok r → n ≤ r.
Proof.
  intros Hdf Hn. unfold normalize_gateway_data.
  destruct (default [] _); [intros [= <-]; exact Hdf|].
  unfold bind, deref. destruct (store w !! df); [|discriminate].
  simpl. intros [= <-]. exact Hn.
Qed.

(** Loading the gateway data leaves the objects that exist alone. *)
Lemma keeps_load_gateway_data P n : keeps n (load_gateway_data P).
Proof.
  unfold load_gateway_data, fetch_gateway.
  repeat first
    [ match goal with
      | |- keeps n (bind (normalize_gateway_data ?df ?name) _) =>
          apply (keeps_bind_fresh n (normalize_gateway_data df name) _ (λ r, n ≤ r));
          [ apply keeps_normalize_gateway_data
          | intros w' a' Hw' Ha';
            apply (normalize_gateway_data_fresh n df name w' a'); assumption
          | intros ? ? ]
      end
    | apply keeps_modify; assumption
    | keeps_step ].
Qed.

(** C4 fails on the code, for every unsupported internal mode: the loader
    hands over a frame without columns, and the run never completes.  It ends
    with the one-line error of [main], without a report; when the gateway data
    can be loaded the error is the KeyError that [normalize] raises on the
    missing [tx_id] column, so that no record is classified. *)
Theorem unsupported_internal_mode_aborts (P : platform) (w : world) :
  INTERNAL_MODE P ∉ ["mock"; "mongo"; "sql"] →
  ∃ e w',
    main P w = (Ok (Failed e), w') ∧ files w' = files w ∧
    (∀ g w1, load_gateway_data P (new_frame empty_frame w).2 = (Ok g, w1) →
             e = KeyError "tx_id").
Proof.
  intros Hmode.
  assert (Hload : load_internal_data P w = new_frame empty_frame w).
  { unfold load_internal_data.
    rewrite !bool_decide_eq_false_2; [reflexivity|..];
      intros Heq; apply Hmode; rewrite Heq; set_solver. }
  unfold main, try_except. unfold bind at 1. rewrite Hload, new_frame_fresh.
  set (w0 := set_store (store w ++ [empty_frame]) w).
  assert (Hn : S (length (store w)) ≤ length (store w0))
    by (simpl; rewrite length_app; simpl; lia).
  destruct (keeps_load_gateway_data P _ w0 Hn) as [Htake _].
  pose proof (unchanged_load_gateway_data files P store_blind_files w0) as Hfiles.
  unfold bind at 1. simpl snd.
  destruct (load_gateway_data P w0) as [[g|e] w1] eqn:Hgw; simpl in Htake, Hfiles.
  - assert (Hempty : store w1 !! length (store w) = Some empty_frame).
    { rewrite <- (lookup_take_lt _ (S (length (store w)))) by lia.
      rewrite Htake. rewrite lookup_take_lt by lia.
      simpl. apply list_lookup_middle. reflexivity. }
    destruct (normalize_empty P _ "internal" w1 Hempty) as [w2 Hnorm].
    pose proof (unchanged_normalize files P (length (store w)) "internal"
                  store_blind_files w1) as Hfiles2.
    rewrite Hnorm in Hfiles2. simpl in Hfiles2.
    unfold reconcile. unfold bind at 1 2. rewrite Hnorm.
    exists (KeyError "tx_id"), w2. split; [reflexivity|].
    split; [congruence|]. intros g' w1' _. reflexivity.
  - exists e, w1. split; [reflexivity|]. split; [exact Hfiles|].
    intros g' w1' Hok. simpl in Hok. discriminate Hok.
Qed.

(** C4 at an internal mode [csv], with one record in the gateway CSV. *)
Lemma unsupported_internal_mode_aborts_witness :
  ∃ e w',
    main unsupported_mode_platform (initial_world [])
    = (Ok (Failed e), w') ∧ files w' = files (initial_world []) ∧
    (∀ g w1, load_gateway_data unsupported_mode_platform
               (new_frame empty_frame (initial_world [])).2 = (Ok g, w1) →
             e = KeyError "tx_id").
Proof.
  apply (unsupported_internal_mode_aborts unsupported_mode_platform (initial_world [])).
  by_computation.
Defined.

(** ** The Normalizer *)

Lemma cond_modify_fresh (b : bool) f d w :
  (if b then modify (length (store w)) f else ret tt) (set_store (store w ++ [d]) w)
  = match (if b then f d else Ok d) with
    | Ok d' => (Ok tt, set_store (store w ++ [d']) w)
    | Raise e => (Raise e, set_store (store w ++ [d]) w)
    end.
Proof. destruct b; [apply modify_fresh|reflexivity]. Qed.

(** A cast changes cells, not column labels. *)
Lemma convert_column_columns k op d d' :
  convert_column k op d = Ok d' → columns d' = columns d.
Proof.
  unfold convert_column. destruct (in_columns k d); [|discriminate].
  destruct (mapM _ (rows d)); [|discriminate]. intros [= <-]. reflexivity.
Qed.

Lemma str_lower_column_columns P k d d' :
  str_lower_column P k d = Ok d' → columns d' = columns d.
Proof.
  unfold str_lower_column. destruct (count_label k d) as [|[|n]]; try discriminate.
  destruct (cells k d) as [|v vs]; [intros [= <-]; reflexivity|].
  destruct (forallb is_numeric (v :: vs)); [discriminate|].
  apply convert_column_columns.
Qed.

(** The field names after normalization: lower-cased, [reference] renamed,
    then [id] renamed, and [source] added. *)
Lemma normalize_columns P r name d w r' w' :
  store w !! r = Some d →
  normalize P r name w = (Ok r', w') →
  ∃ d', store w' !! r' = Some d' ∧ columns d' = normalized_columns P (columns d).
Proof.
  intros Hr. unfold normalize.
  unfold bind at 1. unfold deref at 1. rewrite Hr.
  unfold bind at 1. rewrite new_frame_fresh.
  unfold bind at 1. rewrite deref_fresh.
  unfold bind at 1. rewrite cond_modify_fresh.
  set (d2 := if in_columns "reference" (rename_with (str_lower P) d)
             then rename_label "reference" "tx_id" (rename_with (str_lower P) d)
             else rename_with (str_lower P) d).
  replace (if in_columns "reference" (rename_with (str_lower P) d)
           then Ok (rename_label "reference" "tx_id" (rename_with (str_lower P) d))
           else Ok (rename_with (str_lower P) d)) with (Ok d2)
    by (unfold d2; destruct (in_columns "reference" (rename_with (str_lower P) d));
        reflexivity).
  unfold bind at 1. rewrite deref_fresh.
  unfold bind at 1. rewrite cond_modify_fresh.
  set (d3 := if in_columns "id" d2 then rename_label "id" "tx_id" d2 else d2).
  replace (if in_columns "id" d2 then Ok (rename_label "id" "tx_id" d2) else Ok d2)
    with (Ok d3) by (unfold d3; destruct (in_columns "id" d2); reflexivity).
  unfold bind at 1. rewrite modify_fresh.
  set (d4 := set_scalar "source" (VStr name) d3).
  unfold bind at 1. rewrite modify_fresh.
  destruct (convert_column "tx_id" (astype_str P) d4) as [d5|e] eqn:H5; [|discriminate].
  unfold bind at 1. rewrite deref_fresh.
  unfold bind at 1. rewrite cond_modify_fresh.
  destruct (if in_columns "amount" d5
            then convert_column "amount" (astype_float P) d5 else Ok d5)
    as [d6|e] eqn:H6; [|discriminate].
  unfold bind at 1. rewrite deref_fresh.
  unfold bind at 1. rewrite cond_modify_fresh.
  destruct (if in_columns "status" d6 then str_lower_column P "status" d6 else Ok d6)
    as [d7|e] eqn:H7; [|discriminate].
  unfold ret. intros [= <- <-]. exists d7.
  split; [simpl; apply list_lookup_middle; reflexivity|].
  assert (H76 : columns d7 = columns d6).
  { destruct (in_columns "status" d6);
      [eapply str_lower_column_columns, H7|injection H7 as <-; reflexivity]. }
  assert (H65 : columns d6 = columns d5).
  { destruct (in_columns "amount" d5);
      [eapply convert_column_columns, H6|injection H6 as <-; reflexivity]. }
  rewrite H76, H65, (convert_column_columns _ _ _ _ H5).
  unfold d4, d3, d2, normalized_columns, set_scalar, rename_label, rename_with, in_columns.
  simpl.
  destruct (bool_decide ("reference" ∈ str_lower P <$> columns d)); simpl;
    (destruct (bool_decide ("id" ∈ _)); simpl);
    (destruct (bool_decide ("source" ∈ _)); reflexivity).
Qed.

Lemma count_image_1 (g : string → string) k y l :
  y ∈ l → g y = k → 1 ≤ length (filter (λ c, c = k) (g <$> l)).
Proof.
  intros Hy Hg.
  assert (Hin : k ∈ filter (λ c, c = k) (g <$> l)).
  { apply list_elem_of_filter. split; [reflexivity|].
    apply list_elem_of_fmap. exists y. auto. }
  destruct (filter _ (g <$> l)); [inversion Hin|simpl; lia].
Qed.

(** Two different labels with the same image give two columns of that
    name. *)
Lemma count_image_2 (g : string → string) k x y l :
  x ∈ l → y ∈ l → x ≠ y → g x = k → g y = k →
  2 ≤ length (filter (λ c, c = k) (g <$> l)).
Proof.
  intros Hx Hy Hne Hgx Hgy. induction l as [|a l IH]; [inversion Hx|].
  rewrite fmap_cons, filter_cons.
  apply elem_of_cons in Hx as [->|Hx]; apply elem_of_cons in Hy as [->|Hy].
  - contradiction.
  - rewrite decide_True by assumption. simpl.
    pose proof (count_image_1 g k y l Hy Hgy). lia.
  - rewrite decide_True by assumption. simpl.
    pose proof (count_image_1 g k x l Hx Hgx). lia.
  - specialize (IH Hx Hy). destruct (decide (g a = k)); simpl; lia.
Qed.

Lemma normalized_columns_both P cols :
  "reference" ∈ str_lower P <$> cols → "id" ∈ str_lower P <$> cols →
  "id" ∉ normalized_columns P cols ∧
  2 ≤ length (filter (λ c, c = "tx_id") (normalized_columns P cols)).
Proof.
  intros Href Hid. unfold normalized_columns.
  set (f1 := λ c : string, if bool_decide (c = "reference") then "tx_id" else c).
  set (f2 := λ c : string, if bool_decide (c = "id") then "tx_id" else c).
  set (c1 := str_lower P <$> cols) in *.
  rewrite (bool_decide_eq_true_2 _ Href).
  assert (Hid2 : "id" ∈ f1 <$> c1).
  { apply list_elem_of_fmap. exists "id". split; [reflexivity|exact Hid]. }
  rewrite (bool_decide_eq_true_2 _ Hid2).
  assert (Hno : "id" ∉ f2 <$> (f1 <$> c1)).
  { intros Hin. apply list_elem_of_fmap in Hin as (x & Hx & _).
    unfold f2 in Hx. destruct (bool_decide (x = "id")) eqn:E; [discriminate|].
    apply bool_decide_eq_false in E. congruence. }
  assert (Hcount : 2 ≤ length (filter (λ c, c = "tx_id") (f2 <$> (f1 <$> c1)))).
  { rewrite <- list_fmap_compose.
    apply (count_image_2 _ "tx_id" "reference" "id"); auto; discriminate. }
  destruct (bool_decide ("source" ∈ f2 <$> (f1 <$> c1))); [auto|].
  split.
  - intros Hin. apply elem_of_app in Hin as [Hin|Hin]; [contradiction|].
    apply list_elem_of_singleton in Hin. discriminate.
  - rewrite filter_app, length_app. lia.
Qed.

(** A frame with two key columns cannot be joined. *)
Lemma merge_duplicate_key L R :
  2 ≤ count_label "tx_id" L → ∃ e, merge L R = Raise e.
Proof.
  intros H. unfold merge, key_position.
  destruct (count_label "tx_id" L) as [|[|n]]; [lia|lia|].
  destruct (list_find _ (columns L)) as [[i c]|]; eexists; reflexivity.
Qed.

(** C5 fails on the code, for every record set that has both fields: when
    the lower-cased field names contain both [reference] and [id],
    [normalize] renames both, so that its result has no [id] field left and
    at least two [tx_id] columns, and [reconcile] cannot return, the join
    refusing the duplicated key column. *)
Theorem both_identifier_fields_are_renamed
    (P : platform) (a b : ref) (d : DataFrame) (w : world) :
  store w !! a = Some d →
  "reference" ∈ str_lower P <$> columns d →
  "id" ∈ str_lower P <$> columns d →
  (∀ name r w', normalize P a name w = (Ok r, w') →
     ∃ d', store w' !! r = Some d' ∧ "id" ∉ columns d' ∧
           2 ≤ count_label "tx_id" d') ∧
  (∀ r, (reconcile P a b w).1 ≠ Ok r).
Proof.
  intros Ha Href Hid.
  assert (Hnorm : ∀ name r w', normalize P a name w = (Ok r, w') →
            ∃ d', store w' !! r = Some d' ∧ "id" ∉ columns d' ∧
                  2 ≤ count_label "tx_id" d').
  { intros name r w' Hrun.
    destruct (normalize_columns P a name d w r w' Ha Hrun) as (d' & Hd' & Hcols).
    destruct (normalized_columns_both P (columns d) Href Hid) as [Hno Hcount].
    exists d'. unfold count_label. rewrite Hcols. auto. }
  split; [exact Hnorm|].
  intros r. unfold reconcile. unfold bind at 1.
  destruct (normalize P a "internal" w) as [[r1|e] w1] eqn:H1; [|discriminate].
  destruct (Hnorm _ _ _ H1) as (d1 & Hd1 & _ & Hcount).
  unfold bind at 1.
  pose proof (keeps_normalize P (S r1) b "gateway" w1
                (lookup_lt_Some _ _ _ Hd1)) as [Htake _].
  destruct (normalize P b "gateway" w1) as [[r2|e] w2] eqn:H2; [|discriminate].
  simpl in Htake.
  assert (Hd1' : store w2 !! r1 = Some d1).
  { rewrite <- (lookup_take_lt _ (S r1)) by lia. rewrite Htake.
    rewrite lookup_take_lt by lia. exact Hd1. }
  unfold bind at 1. unfold deref at 1. rewrite Hd1'.
  unfold bind at 1. unfold deref at 1.
  destruct (store w2 !! r2) as [d2|]; [|discriminate].
  unfold bind at 1. unfold lift at 1.
  destruct (merge_duplicate_key d1 d2 Hcount) as [e ->]. discriminate.
Qed.

(** C5 at a record set with the fields reference, id, amount, status. *)
Lemma both_identifier_fields_are_renamed_witness :
  (∀ name r w', normalize ai_platform 0 name (initial_world [reference_and_id])
                = (Ok r, w') →
     ∃ d', store w' !! r = Some d' ∧ "id" ∉ columns d' ∧
           2 ≤ count_label "tx_id" d') ∧
  (∀ r, (reconcile ai_platform 0 0 (initial_world [reference_and_id])).1 ≠ Ok r).
Proof.
  apply (both_identifier_fields_are_renamed ai_platform 0 0 reference_and_id
           (initial_world [reference_and_id])).
  - reflexivity.
  - by_computation.
  - by_computation.
Defined.

(** * Further properties of the code *)

(** ** The rule tables and the classifier *)

Lemma py_eq_str v s : py_eq v (VStr s) = true ↔ v = VStr s.
Proof.
  destruct v as [t| | |]; simpl; try (split; [discriminate|intros [=]]).
  rewrite bool_decide_eq_true. split; congruence.
Qed.

Lemma py_eq_str_false v s : py_eq v (VStr s) = false ↔ v ≠ VStr s.
Proof. rewrite <- py_eq_str. destruct (py_eq v (VStr s)); split; congruence. Qed.

Lemma classify_range row c :
  classify row = Ok c →
  c ∈ ["missing_in_gateway"; "missing_in_internal"; "amount_mismatch";
       "status_mismatch"; "currency_mismatch"; "matched"].
Proof.
  unfold classify.
  repeat match goal with
         | |- context [bind_result ?r _] =>
             destruct r as [?|?]; simpl; [|discriminate]
         | |- context [if ?b then _ else _] => destruct b
         end; intros [= <-]; set_solver.
Qed.

Lemma rule_based_reason_default P row :
  rule_based_reason P row = Ok "No issue detected." ↔
  ∃ m, get row "discrepancy_type" (VStr "") = Scalar m ∧ m ∉ mismatch_categories.
Proof.
  unfold rule_based_reason, mismatch_categories.
  destruct (get row "discrepancy_type" (VStr "")) as [m|vs].
  - rewrite !test_eq_scalar. simpl.
    destruct (py_eq m (VStr "missing_in_gateway")) eqn:E1.
    { apply py_eq_str in E1. subst m. split; [discriminate|].
      intros (m & [= <-] & Hm). exfalso. apply Hm. set_solver. }
    destruct (py_eq m (VStr "missing_in_internal")) eqn:E2.
    { apply py_eq_str in E2. subst m. split; [discriminate|].
      intros (m & [= <-] & Hm). exfalso. apply Hm. set_solver. }
    destruct (py_eq m (VStr "status_mismatch")) eqn:E3.
    { apply py_eq_str in E3. subst m. split; [discriminate|].
      intros (m & [= <-] & Hm). exfalso. apply Hm. set_solver. }
    destruct (py_eq m (VStr "amount_mismatch")) eqn:E4.
    { apply py_eq_str in E4. subst m. split; [discriminate|].
      intros (m & [= <-] & Hm). exfalso. apply Hm. set_solver. }
    destruct (py_eq m (VStr "currency_mismatch")) eqn:E5.
    { apply py_eq_str in E5. subst m. split; [discriminate|].
      intros (m & [= <-] & Hm). exfalso. apply Hm. set_solver. }
    apply py_eq_str_false in E1, E2, E3, E4, E5.
    split; [intros _|reflexivity]. exists m. split; [reflexivity|].
    rewrite !not_elem_of_cons. repeat split; try assumption. apply not_elem_of_nil.
  - simpl. split; [discriminate|]. intros (m & [=] & _).
Qed.

Lemma suggested_action_default row :
  suggested_action row = Ok "No action required." ↔
  ∃ m, get row "discrepancy_type" (VStr "") = Scalar m ∧ m ∉ mismatch_categories.
Proof.
  unfold suggested_action, mismatch_categories.
  destruct (get row "discrepancy_type" (VStr "")) as [m|vs].
  - rewrite !test_eq_scalar. simpl.
    destruct (py_eq m (VStr "missing_in_gateway")) eqn:E1.
    { apply py_eq_str in E1. subst m. split; [discriminate|].
      intros (m & [= <-] & Hm). exfalso. apply Hm. set_solver. }
    destruct (py_eq m (VStr "missing_in_internal")) eqn:E2.
    { apply py_eq_str in E2. subst m. split; [discriminate|].
      intros (m & [= <-] & Hm). exfalso. apply Hm. set_solver. }
    destruct (py_eq m (VStr "status_mismatch")) eqn:E3.
    { apply py_eq_str in E3. subst m. split; [discriminate|].
      intros (m & [= <-] & Hm). exfalso. apply Hm. set_solver. }
    destruct (py_eq m (VStr "amount_mismatch")) eqn:E4.
    { apply py_eq_str in E4. subst m. split; [discriminate|].
      intros (m & [= <-] & Hm). exfalso. apply Hm. set_solver. }
    destruct (py_eq m (VStr "currency_mismatch")) eqn:E5.
    { apply py_eq_str in E5. subst m. split; [discriminate|].
      intros (m & [= <-] & Hm). exfalso. apply Hm. set_solver. }
    apply py_eq_str_false in E1, E2, E3, E4, E5.
    split; [intros _|reflexivity]. exists m. split; [reflexivity|].
    rewrite !not_elem_of_cons. repeat split; try assumption. apply not_elem_of_nil.
  - simpl. split; [discriminate|]. intros (m & [=] & _).
Qed.

(** X1.  The two rule tables know the same five categories.  A record is told
    "No action required." exactly when it is told "No issue detected.", and
    that is when its discrepancy_type is none of the five mismatch
    categories: matched, an unknown text, or no field at all (the default of
    [row.get] is the empty text). *)
Theorem rule_tables_agree (P : platform) (row : Series) :
  (rule_based_reason P row = Ok "No issue detected."
   ↔ suggested_action row = Ok "No action required.") ∧
  (suggested_action row = Ok "No action required."
   ↔ ∃ m, get row "discrepancy_type" (VStr "") = Scalar m ∧
          m ∉ mismatch_categories) ∧
  ("discrepancy_type" ∉ row.*1 →
   rule_based_reason P row = Ok "No issue detected." ∧
   suggested_action row = Ok "No action required.").
Proof.
  split; [|split].
  - rewrite rule_based_reason_default, suggested_action_default. reflexivity.
  - apply suggested_action_default.
  - intros Habs. rewrite rule_based_reason_default, suggested_action_default.
    assert (Hget : get row "discrepancy_type" (VStr "") = Scalar (VStr "")).
    { unfold get, getitem. rewrite labelled_absent by exact Habs. reflexivity. }
    split; exists (VStr ""); (split; [exact Hget|by_computation]).
Qed.

(** X2.  Every category that the classifier can assign has its rules: a
    record carrying the category that [classify] returned falls through to
    the defaults of the rule tables only when that category is matched. *)
Theorem classified_records_have_rules
    (P : platform) (row row' : Series) (c : string) :
  classify row = Ok c → field row' "discrepancy_type" (VStr c) →
  (rule_based_reason P row' = Ok "No issue detected." ↔ c = "matched") ∧
  (suggested_action row' = Ok "No action required." ↔ c = "matched").
Proof.
  intros Hc Hf. apply classify_range in Hc.
  rewrite rule_based_reason_default, suggested_action_default.
  rewrite (get_field _ _ _ (VStr "") Hf).
  assert (Hiff : (∃ m, Scalar (VStr c) = Scalar m ∧ m ∉ mismatch_categories)
                 ↔ c = "matched").
  { split.
    - intros (m & [= <-] & Hm). unfold mismatch_categories in Hm.
      rewrite !not_elem_of_cons in Hm.
      repeat (apply elem_of_cons in Hc as [->|Hc]; [try reflexivity; exfalso; tauto|]).
      inversion Hc.
    - intros ->. exists (VStr "matched"). split; [reflexivity|by_computation]. }
  split; exact Hiff.
Qed.

(** X2 at a record classified matched. *)
Lemma classified_records_have_rules_witness :
  (rule_based_reason ai_platform
     (setitem row_agreeing "discrepancy_type" (VStr "matched"))
   = Ok "No issue detected." ↔ "matched" = "matched") ∧
  (suggested_action (setitem row_agreeing "discrepancy_type" (VStr "matched"))
   = Ok "No action required." ↔ "matched" = "matched").
Proof.
  apply (classified_records_have_rules ai_platform row_agreeing).
  - reflexivity.
  - reflexivity.
Defined.

Lemma py_ne_nan_l v : py_ne NaN v = true.
Proof. destruct v; reflexivity. Qed.

Lemma py_ne_nan_r v : py_ne v NaN = true.
Proof.
  destruct v as [| |f|]; try reflexivity.
  unfold py_ne, NaN. simpl. rewrite SFeqb_nan_r. reflexivity.
Qed.

(** X3.  A missing value never compares equal, whatever the other side holds:
    a record present on both sides whose amount, status or currency is NaN on
    either side (or on both) is never matched; it takes the category of the
    first comparison that meets a NaN, unless an earlier one already
    differs. *)
Theorem missing_values_never_match (row : Series) :
  joined_row row → both_sides row → missing_value row →
  ∃ c, classify row = Ok c ∧
       c ∈ ["amount_mismatch"; "status_mismatch"; "currency_mismatch"] ∧
       ((field row "amount_internal" NaN ∨ field row "amount_gateway" NaN) →
        c = "amount_mismatch").
Proof.
  intros [Hnd Hcase] Hb (k & Hk & Hnan).
  destruct Hcase as [Hl|[Hr|(_ & [ai Hai] & [ag Hag] & [si Hsi] & [sg Hsg])]];
    try clash_tags.
  destruct (get_scalar row "currency_internal" VNone Hnd) as [ci Hci].
  destruct (get_scalar row "currency_gateway" VNone Hnd) as [cg Hcg].
  rewrite (classify_both _ _ _ _ _ _ _ Hb Hai Hag Hsi Hsg Hci Hcg).
  assert (Hsome : py_ne ai ag = true ∨ py_ne si sg = true ∨ py_ne ci cg = true).
  { repeat (apply elem_of_cons in Hk as [->|Hk]).
    - rewrite (field_functional _ _ _ _ Hai Hnan). left. apply py_ne_nan_l.
    - rewrite (field_functional _ _ _ _ Hag Hnan). left. apply py_ne_nan_r.
    - rewrite (field_functional _ _ _ _ Hsi Hnan). right; left. apply py_ne_nan_l.
    - rewrite (field_functional _ _ _ _ Hsg Hnan). right; left. apply py_ne_nan_r.
    - rewrite (get_field _ _ _ VNone Hnan) in Hci. injection Hci as <-.
      right; right. apply py_ne_nan_l.
    - rewrite (get_field _ _ _ VNone Hnan) in Hcg. injection Hcg as <-.
      right; right. apply py_ne_nan_r.
    - inversion Hk. }
  eexists. split; [reflexivity|]. split.
  - destruct (py_ne ai ag); [set_solver|].
    destruct (py_ne si sg); [set_solver|].
    destruct (py_ne ci cg); [set_solver|].
    destruct Hsome as [H|[H|H]]; discriminate H.
  - intros [H|H].
    + rewrite (field_functional _ _ _ _ Hai H), py_ne_nan_l. reflexivity.
    + rewrite (field_functional _ _ _ _ Hag H), py_ne_nan_r. reflexivity.
Qed.

(** X3 at a record whose currency is blank on both sides. *)
Lemma missing_values_never_match_witness :
  ∃ c, classify row_blank_currency = Ok c ∧
       c ∈ ["amount_mismatch"; "status_mismatch"; "currency_mismatch"] ∧
       ((field row_blank_currency "amount_internal" NaN ∨
         field row_blank_currency "amount_gateway" NaN) →
        c = "amount_mismatch").
Proof.
  apply (missing_values_never_match row_blank_currency).
  - split; [by_computation|].
    right; right. repeat split; eexists; reflexivity.
  - reflexivity.
  - exists "currency_internal". split; [by_computation|reflexivity].
Defined.

(** X4.  The currency is optional, the amount and the status are not.  On a
    record present on both sides, a missing amount or status field makes the
    classifier raise KeyError; without currency fields the currencies are
    not compared, and the record is matched exactly when amounts and statuses
    agree. *)
Theorem currency_is_optional (row : Series) (ai ag si sg : value) :
  both_sides row →
  "currency_internal" ∉ row.*1 → "currency_gateway" ∉ row.*1 →
  (field row "amount_internal" ai → field row "amount_gateway" ag →
   field row "status_internal" si → field row "status_gateway" sg →
   classify row = Ok (if py_ne ai ag then "amount_mismatch"
                      else if py_ne si sg then "status_mismatch" else "matched")) ∧
  ("amount_internal" ∉ row.*1 → classify row = Raise (KeyError "amount_internal")) ∧
  (field row "amount_internal" ai → "amount_gateway" ∉ row.*1 →
   classify row = Raise (KeyError "amount_gateway")) ∧
  (field row "amount_internal" ai → field row "amount_gateway" ag →
   py_ne ai ag = false → "status_internal" ∉ row.*1 →
   classify row = Raise (KeyError "status_internal")).
Proof.
  intros Hb Hci Hcg.
  assert (Hgi : get row "currency_internal" VNone = Scalar VNone).
  { unfold get, getitem. rewrite labelled_absent by exact Hci. reflexivity. }
  assert (Hgg : get row "currency_gateway" VNone = Scalar VNone).
  { unfold get, getitem. rewrite labelled_absent by exact Hcg. reflexivity. }
  split; [|split; [|split]].
  - intros Hai Hag Hsi Hsg.
    rewrite (classify_both _ _ _ _ _ _ _ Hb Hai Hag Hsi Hsg Hgi Hgg). reflexivity.
  - intros Habs. unfold classify. rewrite (getitem_field _ _ _ Hb). simpl.
    unfold getitem at 1. rewrite labelled_absent by exact Habs. reflexivity.
  - intros Hai Habs. unfold classify.
    rewrite (getitem_field _ _ _ Hb), (getitem_field _ _ _ Hai). simpl.
    unfold getitem at 1. rewrite labelled_absent by exact Habs. reflexivity.
  - intros Hai Hag Heq Habs. unfold classify.
    rewrite (getitem_field _ _ _ Hb), (getitem_field _ _ _ Hai),
      (getitem_field _ _ _ Hag). simpl. rewrite Heq.
    unfold getitem at 1. rewrite labelled_absent by exact Habs. reflexivity.
Qed.

(** X4 at a record without currency fields. *)
Lemma currency_is_optional_witness :
  (field row_agreeing "amount_internal" (VFloat (float_of_int 100)) →
   field row_agreeing "amount_gateway" (VFloat (float_of_int 100)) →
   field row_agreeing "status_internal" (VStr "success") →
   field row_agreeing "status_gateway" (VStr "success") →
   classify row_agreeing
   = Ok (if py_ne (VFloat (float_of_int 100)) (VFloat (float_of_int 100))
         then "amount_mismatch"
         else if py_ne (VStr "success") (VStr "success")
              then "status_mismatch" else "matched")) ∧
  ("amount_internal" ∉ row_agreeing.*1 →
   classify row_agreeing = Raise (KeyError "amount_internal")) ∧
  (field row_agreeing "amount_internal" (VFloat (float_of_int 100)) →
   "amount_gateway" ∉ row_agreeing.*1 →
   classify row_agreeing = Raise (KeyError "amount_gateway")) ∧
  (field row_agreeing "amount_internal" (VFloat (float_of_int 100)) →
   field row_agreeing "amount_gateway" (VFloat (float_of_int 100)) →
   py_ne (VFloat (float_of_int 100)) (VFloat (float_of_int 100)) = false →
   "status_internal" ∉ row_agreeing.*1 →
   classify row_agreeing = Raise (KeyError "status_internal")).
Proof.
  apply (currency_is_optional row_agreeing).
  - reflexivity.
  - by_computation.
  - by_computation.
Defined.

(** ** The Enricher, field by field *)

(** The rule tables read the category and the compared fields of a record,
    not its enrichment fields. *)
Lemma get_setitem_ne row k k' v d :
  k' ≠ k → get (setitem row k v) k' d = get row k' d.
Proof.
  intros Hne. unfold get, getitem. rewrite labelled_setitem_ne by exact Hne.
  reflexivity.
Qed.

Lemma suggested_action_setitem row k v :
  k ≠ "discrepancy_type" → suggested_action (setitem row k v) = suggested_action row.
Proof.
  intros Hne. unfold suggested_action.
  rewrite get_setitem_ne by congruence. reflexivity.
Qed.

(** One turn of the loop that succeeds has applied both rule tables to the
    record as it came in. *)
Lemma enrich_row_tables P i row w row' w' :
  enrich_row P i row w = (Ok row', w') →
  ∃ reason action text,
    row' = enriched_row row reason action text ∧
    rule_based_reason P row = Ok reason ∧ suggested_action row = Ok action.
Proof.
  unfold enrich_row, bind, lift.
  destruct (rule_based_reason P row) as [reason|e] eqn:Hr; [|discriminate].
  rewrite suggested_action_setitem by discriminate.
  destruct (suggested_action row) as [action|e] eqn:Ha; [|discriminate].
  intros Hrun. exists reason, action.
  destruct (negb (use_ai P)).
  { injection Hrun as <- <-. eexists. split; [reflexivity|auto]. }
  destruct (ai_limit <=? i).
  { injection Hrun as <- <-. eexists. split; [reflexivity|auto]. }
  match type of Hrun with
  | context [try_except ?m ?h ?w] => destruct (try_except m h w) as [[text|e] w1]
  end; [|discriminate].
  injection Hrun as <- <-. exists text. split; [reflexivity|auto].
Qed.

Lemma enrich_rows_tables P rs : ∀ i w rs' w',
  enrich_rows P i rs w = (Ok rs', w') →
  Forall2 (λ row row' : Series, ∃ reason action text,
             row' = enriched_row row reason action text ∧
             rule_based_reason P row = Ok reason ∧
             suggested_action row = Ok action) rs rs'.
Proof.
  induction rs as [|row rs IH]; intros i w rs' w' Hrun; simpl in Hrun.
  - injection Hrun as <- <-. constructor.
  - unfold bind in Hrun.
    destruct (enrich_row P i row w) as [[row'|e] w1] eqn:Hrow; [|discriminate].
    destruct (enrich_rows P (S i) rs w1) as [[rest|e] w2] eqn:Hrest; [|discriminate].
    injection Hrun as <- <-. constructor; [|eapply IH, Hrest].
    eapply enrich_row_tables, Hrow.
Qed.


Lemma frame_of_series_frame_ok cols (rs : list Series) e :
  Forall (λ row : Series, row.*1 = cols) rs →
  frame_of_series rs = Ok e → frame_ok e.
Proof.
  intros Hrs. unfold frame_of_series. destruct rs as [|s rs].
  - intros [= <-]. constructor.
  - destruct (bool_decide (NoDup s.*1)); [|discriminate]. intros [= <-].
    unfold frame_ok. cbn [columns rows].
    change (Forall (λ r : list value, length r = length s.*1)
                   ((λ r : Series, r.*2) <$> (s :: rs))).
    pose proof Hrs as Hall. apply Forall_cons in Hrs as [Hs _].
    apply Forall_fmap. eapply Forall_impl; [exact Hall|].
    intros r Hr. simpl in *. rewrite !length_fmap.
    apply (f_equal length) in Hr, Hs. rewrite !length_fmap in Hr, Hs. lia.
Qed.

(** [enrich_with_analysis] on a frame with distinct column labels, with
    the loop and the frame it builds laid open. *)
Lemma enrich_with_analysis_run P df d w :
  store w !! df = Some d → frame_ok d → NoDup (columns d) →
  ∃ rs' ps e,
    enrich_rows P 0 (series_of d <$> rows d) w = (Ok rs', add_prompts w ps) ∧
    frame_of_series rs' = Ok e ∧
    enrich_with_analysis P df w = new_frame e (add_prompts w ps) ∧
    enriched P 0 (series_of d <$> rows d) (prompts w) rs' ps ∧
    series_of e <$> rows e = rs' ∧
    length (rows e) = length (rows d) ∧ frame_ok e.
Proof.
  intros Hdf Hok Hnd.
  assert (Hlabels : Forall (λ row : Series, row.*1 = columns d) (series_of d <$> rows d)).
  { apply Forall_fmap. eapply Forall_impl; [exact Hok|].
    intros r Hr. simpl. apply series_of_labels, Hr. }
  destruct (enrich_rows_spec P _ 0 w (distinct_rows d Hok Hnd))
    as (rs' & ps & Hrun & Hrel).
  set (probe := (λ c : string, (c, VNone)) <$> columns d).
  assert (Hprobe : probe.*1 = columns d).
  { unfold probe. rewrite <- list_fmap_compose. apply list_fmap_id. }
  set (cols' := (enriched_row probe "" "" "").*1).
  assert (Hsame : Forall (λ row : Series, row.*1 = cols') rs').
  { eapply enriched_labels; [|exact Hlabels|exact Hrel].
    intros row reason action text Hrow. apply enriched_row_labels. congruence. }
  assert (Hnd' : NoDup cols').
  { apply enriched_row_NoDup. rewrite Hprobe. exact Hnd. }
  destruct (frame_of_series_rows cols' rs' Hnd' Hsame) as (e & He & Hrows & Hlen).
  exists rs', ps, e. repeat split; try assumption.
  - unfold enrich_with_analysis, bind, deref. rewrite Hdf, Hrun. unfold lift.
    rewrite He. reflexivity.
  - rewrite Hlen, (enriched_length _ _ _ _ _ _ Hrel), length_fmap. reflexivity.
  - eapply frame_of_series_frame_ok; eassumption.
Qed.




Lemma enriched_rows_show_tables P (rs rs' : list Series) :
  Forall (λ row : Series, NoDup row.*1) rs →
  Forall2 (λ row row' : Series, ∃ reason action text,
             row' = enriched_row row reason action text ∧
             rule_based_reason P row = Ok reason ∧
             suggested_action row = Ok action) rs rs' →
  Forall2 (λ row row' : Series, ∃ reason action,
             rule_based_reason P row = Ok reason ∧
             suggested_action row = Ok action ∧
             field row' "probable_reason" (VStr reason) ∧
             field row' "suggested_action" (VStr action)) rs rs'.
Proof.
  intros Hdist Htab.
  induction Htab as [|row row' rs rs' (reason & action & text & -> & Hr & Ha) Hrest IH];
    [constructor|].
  apply Forall_cons in Hdist as [Hrow Hdist]. constructor; [|auto].
  destruct (enriched_row_fields row reason action text Hrow) as (H1 & H2 & _).
  exists reason, action. auto.
Qed.

(** X6.  The rule-based fields of the report are the answers of the two rule
    tables on the record as it came in: probable_reason holds
    [rule_based_reason] of the record and suggested_action holds
    [suggested_action] of it, record by record. *)
Theorem enrichment_applies_rule_tables
    (P : platform) (df : ref) (d : DataFrame) (w : world) :
  store w !! df = Some d → frame_ok d → NoDup (columns d) →
  ∃ r e w',
    enrich_with_analysis P df w = (Ok r, w') ∧ store w' !! r = Some e ∧
    Forall2 (λ row row' : Series, ∃ reason action,
               rule_based_reason P row = Ok reason ∧
               suggested_action row = Ok action ∧
               field row' "probable_reason" (VStr reason) ∧
               field row' "suggested_action" (VStr action))
            (series_of d <$> rows d) (series_of e <$> rows e).
Proof.
  intros Hdf Hok Hnd.
  destruct (enrich_with_analysis_run P df d w Hdf Hok Hnd)
    as (rs' & ps & e & Hloop & He & Hrun & Hrel & Hrows & Hlen & Hoke).
  exists (length (store w)), e, (new_frame e (add_prompts w ps)).2.
  rewrite Hrun. unfold new_frame at 1. simpl.
  split; [reflexivity|]. split; [apply list_lookup_middle; reflexivity|].
  rewrite Hrows.
  apply enriched_rows_show_tables; [apply distinct_rows; assumption|].
  eapply enrich_rows_tables, Hloop.
Qed.

(** X6 at seven records with AI enrichment enabled. *)
Lemma enrichment_applies_rule_tables_witness :
  ∃ r e w',
    enrich_with_analysis ai_platform 0 (initial_world [six_matched_one_mismatch])
    = (Ok r, w') ∧ store w' !! r = Some e ∧
    Forall2 (λ row row' : Series, ∃ reason action,
               rule_based_reason ai_platform row = Ok reason ∧
               suggested_action row = Ok action ∧
               field row' "probable_reason" (VStr reason) ∧
               field row' "suggested_action" (VStr action))
            (series_of six_matched_one_mismatch <$> rows six_matched_one_mismatch)
            (series_of e <$> rows e).
Proof.
  apply (enrichment_applies_rule_tables ai_platform 0 six_matched_one_mismatch
           (initial_world [six_matched_one_mismatch])).
  - reflexivity.
  - unfold frame_ok. by_computation.
  - by_computation.
Defined.

(** With AI enrichment off nothing is sent. *)
Lemma enriched_disabled P : ∀ i rs history rs' ps,
  use_ai P = false → enriched P i rs history rs' ps →
  ps = [] ∧
  Forall2 (λ row row' : Series, ∃ reason action,
             row' = enriched_row row reason action ai_skipped) rs rs'.
Proof.
  intros i rs history rs' ps Hoff H.
  induction H as [|i row rs history reason action text ps rs' ps' Hstep Hrest [IH1 IH2]];
    [split; [reflexivity|constructor]|].
  destruct Hstep; try congruence.
  split; [exact IH1|]. constructor; [eauto|exact IH2].
Qed.

Lemma skipped_rows_show_message (rs rs' : list Series) :
  Forall (λ row : Series, NoDup row.*1) rs →
  Forall2 (λ row row' : Series, ∃ reason action,
             row' = enriched_row row reason action ai_skipped) rs rs' →
  Forall (λ row : Series, field row "ai_explanation" (VStr ai_skipped)) rs'.
Proof.
  intros Hdist Hall.
  induction Hall as [|row row' rs rs' (reason & action & ->) Hrest IH];
    [constructor|].
  apply Forall_cons in Hdist as [Hrow Hdist]. constructor; [|auto].
  apply (enriched_row_fields row reason action ai_skipped Hrow).
Qed.

(** X7.  With AI enrichment switched off (USE_AI unset, or anything but
    "true"), the Enricher never calls the text-generation collaborator, and
    every record receives the skip message as its ai_explanation. *)
Theorem ai_disabled_sends_nothing (P : platform) (df : ref) (d : DataFrame) (w : world) :
  store w !! df = Some d → frame_ok d → NoDup (columns d) →
  use_ai P = false →
  ∃ r e w',
    enrich_with_analysis P df w = (Ok r, w') ∧ store w' !! r = Some e ∧
    prompts w' = prompts w ∧
    Forall (λ row : Series,
              field row "ai_explanation" (VStr "AI analysis skipped (USE_AI=False)."))
           (series_of e <$> rows e).
Proof.
  intros Hdf Hok Hnd Hoff.
  destruct (enrich_with_analysis_run P df d w Hdf Hok Hnd)
    as (rs' & ps & e & Hloop & He & Hrun & Hrel & Hrows & Hlen & Hoke).
  destruct (enriched_disabled P _ _ _ _ _ Hoff Hrel) as [-> Hall].
  exists (length (store w)), e, (new_frame e (add_prompts w [])).2.
  rewrite Hrun. unfold new_frame at 1. simpl.
  split; [reflexivity|]. split; [apply list_lookup_middle; reflexivity|].
  split; [apply app_nil_r|].
  rewrite Hrows.
  eapply skipped_rows_show_message; [exact (distinct_rows d Hok Hnd)|exact Hall].
Qed.

(** X7 at seven records with USE_AI unset. *)
Lemma ai_disabled_sends_nothing_witness :
  ∃ r e w',
    enrich_with_analysis (sample_platform [] ApiFailure) 0
      (initial_world [six_matched_one_mismatch]) = (Ok r, w') ∧
    store w' !! r = Some e ∧
    prompts w' = prompts (initial_world [six_matched_one_mismatch]) ∧
    Forall (λ row : Series,
              field row "ai_explanation" (VStr "AI analysis skipped (USE_AI=False)."))
           (series_of e <$> rows e).
Proof.
  apply (ai_disabled_sends_nothing (sample_platform [] ApiFailure) 0
           six_matched_one_mismatch (initial_world [six_matched_one_mismatch])).
  - reflexivity.
  - unfold frame_ok. by_computation.
  - by_computation.
  - reflexivity.
Defined.

(** A scalar field that compares equal to the text matched is that text. *)
Lemma getitem_matched row d :
  getitem row "discrepancy_type" = Ok d →
  test_eq d (Scalar (VStr "matched")) = Ok true → is_matched row.
Proof.
  unfold getitem, is_matched, field.
  destruct (labelled "discrepancy_type" row) as [|v [|v' vs]]; try discriminate.
  - intros [= <-]. simpl. intros [= H]. apply py_eq_matched in H. subst v.
    reflexivity.
  - intros [= <-]. discriminate.
Qed.

(** X8.  [ai_explanation] contains its failures, for every record, also one with
    repeated or missing field names: it always returns a text and calls the
    collaborator at most once.  A matched record gets the fixed
    consistent-transaction message without a call, and no other record gets
    a text without a call except the unavailability placeholder (the
    category could not be read or the prompt could not be built).  When the
    call is made, the record is not matched, the prompt is the one built
    from the record, and the text is what [strip] leaves of the answer, or
    the unavailability placeholder when the call fails or has no content. *)
Theorem ai_explanation_contains_failures (P : platform) (row : Series) (w : world) :
  ∃ text ps,
    ai_explanation P row w = (Ok text, add_prompts w ps) ∧
    length ps ≤ 1 ∧
    (is_matched row → ps = [] ∧ text = "Transaction is consistent across systems.") ∧
    (¬ is_matched row → ps = [] → text = ai_unavailable) ∧
    (∀ prompt, ps = [prompt] →
       ¬ is_matched row ∧ ai_prompt P row = Ok prompt ∧
       match chat_create P (prompts w) prompt with
       | Content t => text = str_strip P t
       | _ => text = ai_unavailable
       end).
Proof.
  unfold ai_explanation, try_except, bind, lift.
  destruct (getitem row "discrepancy_type") as [d|e] eqn:Hd.
  2:{ exists ai_unavailable, []. rewrite add_prompts_nil.
      split; [reflexivity|]. split; [simpl; lia|]. split; [|split].
      - intros Hm. rewrite (getitem_field _ _ _ Hm) in Hd. discriminate.
      - reflexivity.
      - intros prompt [=]. }
  destruct (test_eq d (Scalar (VStr "matched"))) as [b|e] eqn:Ht.
  2:{ exists ai_unavailable, []. rewrite add_prompts_nil.
      split; [reflexivity|]. split; [simpl; lia|]. split; [|split].
      - intros Hm. rewrite (getitem_field _ _ _ Hm) in Hd. injection Hd as <-.
        discriminate.
      - reflexivity.
      - intros prompt [=]. }
  destruct b.
  { pose proof (getitem_matched _ _ Hd Ht) as Hm.
    exists "Transaction is consistent across systems.", [].
    rewrite add_prompts_nil.
    split; [reflexivity|]. split; [simpl; lia|]. split; [auto|].
    split; [intros Hn; contradiction|]. intros prompt [=]. }
  assert (Hnm : ¬ is_matched row).
  { intros Hm. rewrite (getitem_field _ _ _ Hm) in Hd. injection Hd as <-.
    discriminate. }
  destruct (ai_prompt P row) as [prompt|e] eqn:Hp.
  2:{ exists ai_unavailable, []. rewrite add_prompts_nil.
      split; [reflexivity|]. split; [simpl; lia|]. split; [tauto|].
      split; [reflexivity|]. intros prompt [=]. }
  unfold chat.
  destruct (chat_create P (prompts w) prompt) as [| | |t] eqn:Hc.
  1-3: exists ai_unavailable, [prompt]; split; [reflexivity|]; split; [simpl; lia|];
       split; [tauto|]; split; [discriminate|]; intros p [= <-]; rewrite Hc; auto.
  exists (str_strip P t), [prompt]. split; [reflexivity|]. split; [simpl; lia|].
  split; [tauto|]. split; [discriminate|]. intros p [= <-]. rewrite Hc. auto.
Qed.

(** ** The Report Writer *)

Lemma csv_json_paths_differ timestamp : csv_path timestamp ≠ json_path timestamp.
Proof.
  unfold csv_path, json_path. intros H.
  apply (f_equal String.length) in H. rewrite !string_length_app in H.
  simpl in H. lia.
Qed.




(** X10.  A record set without records gives a report without a header.  The
    Enricher collects no record, the frame built from the empty collection
    has no columns, and both report files are written from it: the CSV holds
    a frame without columns, whatever columns the record set had, and the
    JSON holds the empty list.  No call of the text-generation collaborator
    is made. *)
Theorem report_of_no_records_has_no_header
    (P : platform) (df : ref) (d : DataFrame) (timestamp : string) (w : world) :
  store w !! df = Some d → rows d = [] →
  ∃ w',
    save_report P df timestamp w = (Ok tt, w') ∧
    files w' !! csv_path timestamp = Some (CsvFile empty_frame) ∧
    files w' !! json_path timestamp = Some (JsonFile []) ∧
    prompts w' = prompts w ∧ store w' = store w ++ [empty_frame].
Proof.
  intros Hdf Hrows.
  assert (He : enrich_with_analysis P df w = new_frame empty_frame w).
  { unfold enrich_with_analysis, bind, deref. rewrite Hdf, Hrows. reflexivity. }
  unfold save_report. unfold bind at 1. rewrite He, new_frame_fresh.
  unfold bind at 1. rewrite deref_fresh.
  unfold bind at 1. unfold write_file at 1.
  unfold bind at 1. unfold lift at 1.
  eexists. split; [reflexivity|]. simpl.
  split; [rewrite lookup_insert_ne by (apply not_eq_sym, csv_json_paths_differ);
          apply lookup_insert_eq|].
  split; [apply lookup_insert_eq|]. split; reflexivity.
Qed.

(** X10 at a header of four columns. *)
Lemma report_of_no_records_has_no_header_witness :
  ∃ w',
    save_report ai_platform 0 "2025-01-01_0000" (initial_world [header_only])
    = (Ok tt, w') ∧
    files w' !! csv_path "2025-01-01_0000" = Some (CsvFile empty_frame) ∧
    files w' !! json_path "2025-01-01_0000" = Some (JsonFile []) ∧
    prompts w' = prompts (initial_world [header_only]) ∧
    store w' = store (initial_world [header_only]) ++ [empty_frame].
Proof.
  apply (report_of_no_records_has_no_header ai_platform 0 header_only
           "2025-01-01_0000" (initial_world [header_only])).
  - reflexivity.
  - reflexivity.
Defined.

(** ** The notifier, call by call *)

(** X11.  [send_slack_alert] contains every failure: it always returns, touches
    neither the object store nor the files nor the text-generation
    collaborator, uploads the report at most once and posts at most one
    message, and it posts only after the upload has succeeded. *)
Theorem send_slack_alert_contains_failures
    (P : platform) (summary path : string) (w : world) :
  ∃ w',
    send_slack_alert P summary path w = (Ok tt, w') ∧
    store w' = store w ∧ files w' = files w ∧ prompts w' = prompts w ∧
    (uploads w' = uploads w ∨ uploads w' = uploads w ++ [path]) ∧
    (posts w' = posts w ∨
     ∃ blocks url, posts w' = posts w ++ [blocks] ∧
                   uploads w' = uploads w ++ [path] ∧
                   files_upload_v2 P path = Uploaded url).
Proof.
  unfold send_slack_alert.
  destruct (notifier_USE_SLACK P); cbn [negb];
    [|exists w; repeat split; auto].
  destruct (truthy (getenv P "SLACK_BOT_TOKEN")); cbn [negb];
    [|exists w; repeat split; auto].
  destruct (truthy (getenv P "SLACK_CHANNEL_ID")); cbn [negb];
    [|exists w; repeat split; auto].
  unfold try_except, bind, read_file, lift, ret.
  destruct (files w !! path) as [[df|data]|];
    try (exists w; repeat split; auto; fail).
  destruct (filter _ data) as [|item items];
    [exists w; repeat split; auto|].
  unfold upload. destruct (files_upload_v2 P path) as [|url] eqn:Hup.
  { eexists. split; [reflexivity|]. simpl. repeat split; auto. }
  unfold post.
  match goal with |- context [chat_postMessage P ?b] =>
    destruct (chat_postMessage P b) end;
    (eexists; split; [reflexivity|]; simpl; repeat split; auto;
     right; eexists _, url; repeat split; reflexivity).
Qed.

Lemma length_item_blocks P item : length (item_blocks P item) = 2.
Proof. reflexivity. Qed.

Lemma length_bind_const {A B} (f : A → list B) n l :
  (∀ a, length (f a) = n) → length (l ≫= f) = n * length l.
Proof.
  intros Hf. induction l as [|a l IH]; [simpl; lia|].
  rewrite bind_cons, length_app, Hf, IH. simpl. lia.
Qed.

(** X12.  With the notifier switched on and configured, a report that holds at
    least one record that is not matched and whose upload succeeds leads to
    exactly one upload and one message.  The message opens with the header,
    the count of non-matched records and a divider, shows two blocks for each
    non-matched record of the report and for no other record, and closes with
    the download button or the note on the local copy. *)
Theorem alert_lists_every_discrepancy
    (P : platform) (summary path : string) (w : world)
    (data : list Series) (url : option string) :
  notifier_USE_SLACK P = true →
  truthy (getenv P "SLACK_BOT_TOKEN") = true →
  truthy (getenv P "SLACK_CHANNEL_ID") = true →
  files w !! path = Some (JsonFile data) →
  report_discrepancies data ≠ [] →
  files_upload_v2 P path = Uploaded url →
  ∃ w' message,
    send_slack_alert P summary path w = (Ok tt, w') ∧
    uploads w' = uploads w ++ [path] ∧
    posts w' = posts w ++ [message] ∧
    message
    = [Header ("🧾 Fintech Reconciliation Report (" +:+ today P +:+ ")");
       SectionBlock ("*⚠️ Discrepancies detected:* "
                     +:+ pretty (length (report_discrepancies data)));
       Divider]
      ++ (report_discrepancies data ≫= item_blocks P)
      ++ [if truthy url
          then Actions "📥 Download Full Report" (default "" url)
          else SectionBlock "📎 Full report saved locally in `reports/` folder."] ∧
    length message = 2 * length (report_discrepancies data) + 4.
Proof.
  intros Hflag Htoken Hchannel Hfile Hne Hup.
  unfold send_slack_alert. rewrite Hflag, Htoken, Hchannel. cbn [negb].
  unfold try_except, bind, read_file, lift, ret. rewrite Hfile.
  fold (report_discrepancies data).
  destruct (report_discrepancies data) as [|item items] eqn:Hd; [contradiction|].
  rewrite <- Hd. unfold upload. rewrite Hup. unfold post.
  match goal with |- context [chat_postMessage P ?b] =>
    destruct (chat_postMessage P b) end;
    (eexists _, _; split; [reflexivity|]; cbn [uploads posts];
     split; [reflexivity|]; split; [reflexivity|]; split; [reflexivity|];
     rewrite !length_app, (length_bind_const _ 2) by apply length_item_blocks;
     simpl; lia).
Qed.

(** X12 at a report with one mismatch among two records. *)
Lemma alert_lists_every_discrepancy_witness :
  ∃ w' message,
    send_slack_alert slack_platform "" "reports/r.json" world_with_report = (Ok tt, w') ∧
    uploads w' = uploads world_with_report ++ ["reports/r.json"] ∧
    posts w' = posts world_with_report ++ [message] ∧
    message
    = [Header ("🧾 Fintech Reconciliation Report (" +:+ today slack_platform +:+ ")");
       SectionBlock ("*⚠️ Discrepancies detected:* "
                     +:+ pretty (length (report_discrepancies report_with_mismatch)));
       Divider]
      ++ (report_discrepancies report_with_mismatch ≫= item_blocks slack_platform)
      ++ [if truthy (Some "https://files.example/report")
          then Actions "📥 Download Full Report"
                 (default "" (Some "https://files.example/report"))
          else SectionBlock "📎 Full report saved locally in `reports/` folder."] ∧
    length message = 2 * length (report_discrepancies report_with_mismatch) + 4.
Proof.
  apply (alert_lists_every_discrepancy slack_platform "" "reports/r.json"
           world_with_report report_with_mismatch
           (Some "https://files.example/report")).
  - reflexivity.
  - reflexivity.
  - reflexivity.
  - reflexivity.
  - vm_compute. discriminate.
  - reflexivity.
Defined.

(** X13.  The two notification flags read the same variable with different
    tests.  Whatever enables the notifier enables the engine; the values "1"
    and "yes" (in any letter case) enable the trigger of the engine but not
    the notifier, which then returns at once: with these values no alert is
    ever sent. *)
Theorem slack_flags_disagree (P : platform) :
  (notifier_USE_SLACK P = true → USE_SLACK P = true) ∧
  (USE_SLACK P = true ∧ notifier_USE_SLACK P = false
   ↔ str_lower P (getenv_default P "USE_SLACK" "False") ∈ ["1"; "yes"]) ∧
  (str_lower P (getenv_default P "USE_SLACK" "False") ∈ ["1"; "yes"] →
   ∀ summary path w, send_slack_alert P summary path w = (Ok tt, w)).
Proof.
  unfold USE_SLACK, notifier_USE_SLACK.
  set (v := str_lower P (getenv_default P "USE_SLACK" "False")).
  assert (Hiff : bool_decide (v ∈ ["true"; "1"; "yes"]) = true
                 ∧ bool_decide (v = "true") = false ↔ v ∈ ["1"; "yes"]).
  { rewrite bool_decide_eq_true, bool_decide_eq_false.
    rewrite !elem_of_cons, !elem_of_nil. split.
    - intros [[H|[H|[H|[]]]] Hne]; auto; contradiction.
    - intros [->|[->|[]]]; split; auto; discriminate. }
  split; [|split].
  - rewrite !bool_decide_eq_true. intros ->. set_solver.
  - exact Hiff.
  - intros Hv summary path w. apply Hiff in Hv as [_ Hoff].
    apply send_slack_alert_disabled. exact Hoff.
Qed.

(** ** The Normalizer, step by step *)

(** The whole of [normalize] as one equation: the copy is renamed, gets its
    [source], and is cast column by column; an exception leaves the copy as
    far as it got. *)
Lemma normalize_run P r name d w :
  store w !! r = Some d →
  let d1 := rename_with (str_lower P) d in
  let d2 := if in_columns "reference" d1
            then rename_label "reference" "tx_id" d1 else d1 in
  let d3 := if in_columns "id" d2 then rename_label "id" "tx_id" d2 else d2 in
  let d4 := set_scalar "source" (VStr name) d3 in
  normalize P r name w =
  match convert_column "tx_id" (astype_str P) d4 with
  | Raise e => (Raise e, set_store (store w ++ [d4]) w)
  | Ok d5 =>
      match (if in_columns "amount" d5
             then convert_column "amount" (astype_float P) d5 else Ok d5) with
      | Raise e => (Raise e, set_store (store w ++ [d5]) w)
      | Ok d6 =>
          match (if in_columns "status" d6
                 then str_lower_column P "status" d6 else Ok d6) with
          | Raise e => (Raise e, set_store (store w ++ [d6]) w)
          | Ok d7 => (Ok (length (store w)), set_store (store w ++ [d7]) w)
          end
      end
  end.
Proof.
  intros Hr d1 d2 d3 d4. unfold normalize.
  unfold bind at 1. unfold deref at 1. rewrite Hr.
  unfold bind at 1. rewrite new_frame_fresh.
  unfold bind at 1. rewrite deref_fresh.
  unfold bind at 1. rewrite cond_modify_fresh.
  fold d1.
  replace (if in_columns "reference" d1
           then Ok (rename_label "reference" "tx_id" d1) else Ok d1) with (Ok d2)
    by (unfold d2; destruct (in_columns "reference" d1); reflexivity).
  unfold bind at 1. rewrite deref_fresh.
  unfold bind at 1. rewrite cond_modify_fresh.
  replace (if in_columns "id" d2 then Ok (rename_label "id" "tx_id" d2) else Ok d2)
    with (Ok d3) by (unfold d3; destruct (in_columns "id" d2); reflexivity).
  unfold bind at 1. rewrite modify_fresh. fold d4.
  unfold bind at 1. rewrite modify_fresh.
  destruct (convert_column "tx_id" (astype_str P) d4) as [d5|e]; [|reflexivity].
  unfold bind at 1. rewrite deref_fresh.
  unfold bind at 1. rewrite cond_modify_fresh.
  destruct (if in_columns "amount" d5
            then convert_column "amount" (astype_float P) d5 else Ok d5)
    as [d6|e]; [|reflexivity].
  unfold bind at 1. rewrite deref_fresh.
  unfold bind at 1. rewrite cond_modify_fresh.
  destruct (if in_columns "status" d6 then str_lower_column P "status" d6 else Ok d6)
    as [d7|e]; reflexivity.
Qed.

Lemma mapM_total {A B} (f : A → result B) l :
  (∀ a, a ∈ l → ∃ b, f a = Ok b) → ∃ bs, mapM f l = Ok bs.
Proof.
  induction l as [|a l IH]; intros H; [exists []; reflexivity|].
  destruct (H a ltac:(left)) as [b Hb].
  destruct IH as [bs Hbs]; [intros a' Ha'; apply H; right; exact Ha'|].
  exists (b :: bs). simpl. rewrite Hb. simpl. rewrite Hbs. reflexivity.
Qed.

Lemma mapM_raise {A B} (f : A → result B) l e :
  mapM f l = Raise e → ∃ a, a ∈ l ∧ f a = Raise e.
Proof.
  induction l as [|a l IH]; [discriminate|]. simpl.
  destruct (f a) as [b|e'] eqn:Hfa; simpl.
  - destruct (mapM f l) as [bs|e'] eqn:Hl; simpl; [discriminate|].
    intros [= ->]. destruct (IH eq_refl) as (a' & Ha' & Hf).
    exists a'. split; [right; exact Ha'|exact Hf].
  - intros [= ->]. exists a. split; [left|exact Hfa].
Qed.

(** A cast raises what its element-wise operation raises, or KeyError when
    the column is missing. *)
Lemma convert_column_raise k op d e :
  convert_column k op d = Raise e →
  (in_columns k d = false ∧ e = KeyError k) ∨ (∃ v, op v = Raise e).
Proof.
  unfold convert_column. destruct (in_columns k d); [|intros [= <-]; auto].
  destruct (mapM _ (rows d)) as [rs|e'] eqn:Hrows; [discriminate|].
  intros [= ->]. right.
  apply mapM_raise in Hrows as (r & _ & Hr).
  apply mapM_raise in Hr as (p & _ & Hp).
  destruct (bool_decide (p.1 = k)); [eauto|discriminate].
Qed.

Lemma convert_column_total k op d :
  in_columns k d = true → (∀ v, ∃ v', op v = Ok v') →
  ∃ d', convert_column k op d = Ok d'.
Proof.
  intros Hin Hop. unfold convert_column. rewrite Hin.
  destruct (mapM_total (λ r, mapM (λ p : string * value,
                           if bool_decide (p.1 = k) then op p.2 else Ok p.2)
                         (series_of d r)) (rows d)) as [rs ->]; [|eauto].
  intros r _. apply mapM_total. intros p _.
  destruct (bool_decide (p.1 = k)); eauto.
Qed.

Lemma astype_float_raise P v e :
  astype_float P v = Raise e →
  e = ValueError "could not convert string to float" ∨ e = too_large.
Proof.
  destruct v as [s|z| |]; simpl; try discriminate.
  - destruct (float_of_str P s); [discriminate|]. intros [= <-]. left. reflexivity.
  - destruct (float_of_int z); try discriminate. intros [= <-]. right. reflexivity.
Qed.

Lemma count_label_zero k d : count_label k d = 0 → in_columns k d = false.
Proof.
  unfold count_label, in_columns. intros H. apply bool_decide_eq_false. intros Hin.
  assert (Hk : k ∈ filter (λ c, c = k) (columns d))
    by (apply list_elem_of_filter; auto).
  destruct (filter _ (columns d)); [inversion Hk|discriminate].
Qed.

Lemma str_lower_column_raise P k d e :
  in_columns k d = true → str_lower_column P k d = Raise e →
  ∃ msg, e = AttributeError msg.
Proof.
  intros Hin. unfold str_lower_column.
  destruct (count_label k d) as [|[|n]] eqn:Hc.
  - apply count_label_zero in Hc. congruence.
  - destruct (cells k d) as [|v vs]; [discriminate|].
    destruct (forallb is_numeric (v :: vs)); [intros [= <-]; eauto|].
    intros H. apply convert_column_raise in H as [[Hf _]|[v' Hv']]; [congruence|].
    discriminate.
  - intros [= <-]. eauto.
Qed.

Lemma renamed_key_columns cols :
  let c2 := if bool_decide ("reference" ∈ cols)
            then (λ c, if bool_decide (c = "reference") then "tx_id" else c) <$> cols
            else cols in
  let c3 := if bool_decide ("id" ∈ c2)
            then (λ c, if bool_decide (c = "id") then "tx_id" else c) <$> c2
            else c2 in
  "tx_id" ∈ c3 ↔ Exists (λ c, c ∈ ["tx_id"; "reference"; "id"]) cols.
Proof.
  intros c2 c3. rewrite Exists_exists.
  assert (H2 : ∀ x, x ∈ c2 ↔ (x ∈ cols ∧ x ≠ "reference")
                              ∨ (x = "tx_id" ∧ "reference" ∈ cols)).
  { intros x. unfold c2. destruct (bool_decide ("reference" ∈ cols)) eqn:E.
    - apply bool_decide_eq_true in E. rewrite list_elem_of_fmap. split.
      + intros (y & -> & Hy). destruct (bool_decide (y = "reference")) eqn:Ey.
        * right. auto.
        * apply bool_decide_eq_false in Ey. left. auto.
      + intros [[Hx Hne]|[-> _]].
        * exists x. rewrite bool_decide_eq_false_2 by exact Hne. auto.
        * exists "reference". split; [reflexivity|exact E].
    - apply bool_decide_eq_false in E. split; [|intros [[? ?]|[_ ?]]; tauto].
      intros Hx. left. split; [exact Hx|]. intros ->. contradiction. }
  assert (H3 : ∀ x, x ∈ c3 ↔ (x ∈ c2 ∧ x ≠ "id") ∨ (x = "tx_id" ∧ "id" ∈ c2)).
  { intros x. unfold c3. destruct (bool_decide ("id" ∈ c2)) eqn:E.
    - apply bool_decide_eq_true in E. rewrite list_elem_of_fmap. split.
      + intros (y & -> & Hy). destruct (bool_decide (y = "id")) eqn:Ey.
        * right. auto.
        * apply bool_decide_eq_false in Ey. left. auto.
      + intros [[Hx Hne]|[-> _]].
        * exists x. rewrite bool_decide_eq_false_2 by exact Hne. auto.
        * exists "id". split; [reflexivity|exact E].
    - apply bool_decide_eq_false in E. split; [|intros [[? ?]|[_ ?]]; tauto].
      intros Hx. left. split; [exact Hx|]. intros ->. contradiction. }
  rewrite H3, !H2. split.
  - intros [[[[Hx _]|[_ Hr]] _]|[_ [[Hi _]|[[=] _]]]].
    + exists "tx_id". split; [exact Hx|set_solver].
    + exists "reference". split; [exact Hr|set_solver].
    + exists "id". split; [exact Hi|set_solver].
  - intros (x & Hx & Hin).
    repeat (apply elem_of_cons in Hin as [->|Hin]).
    + left. split; [|discriminate]. left. split; [exact Hx|discriminate].
    + left. split; [|discriminate]. right. auto.
    + right. split; [reflexivity|]. left. split; [exact Hx|discriminate].
    + inversion Hin.
Qed.

Lemma set_scalar_columns k v d :
  columns (set_scalar k v d)
  = if in_columns k d then columns d else columns d ++ [k].
Proof. unfold set_scalar. destruct (in_columns k d); reflexivity. Qed.

(** After the renames and the [source] column, the copy has a [tx_id]
    column exactly when the record set had an identifier column. *)
Lemma key_column_iff P name d :
  let d1 := rename_with (str_lower P) d in
  let d2 := if in_columns "reference" d1
            then rename_label "reference" "tx_id" d1 else d1 in
  let d3 := if in_columns "id" d2 then rename_label "id" "tx_id" d2 else d2 in
  in_columns "tx_id" (set_scalar "source" (VStr name) d3) = true ↔ has_identifier P d.
Proof.
  intros d1 d2 d3. unfold has_identifier.
  rewrite <- (renamed_key_columns (str_lower P <$> columns d)).
  unfold in_columns at 1. rewrite bool_decide_eq_true, set_scalar_columns.
  assert (Hcols : columns d3
    = let cols := str_lower P <$> columns d in
      let c2 := if bool_decide ("reference" ∈ cols)
                then (λ c, if bool_decide (c = "reference") then "tx_id" else c) <$> cols
                else cols in
      if bool_decide ("id" ∈ c2)
      then (λ c, if bool_decide (c = "id") then "tx_id" else c) <$> c2
      else c2).
  { unfold d3, d2, d1, in_columns, rename_label, rename_with. simpl.
    destruct (bool_decide ("reference" ∈ str_lower P <$> columns d)); simpl;
      destruct (bool_decide ("id" ∈ _)); reflexivity. }
  simpl in Hcols. rewrite <- Hcols.
  destruct (in_columns "source" d3); [reflexivity|].
  rewrite elem_of_app, list_elem_of_singleton. split; [intros [H|[=]]; exact H|auto].
Qed.

(** X14.  [normalize] needs an identifier.  It raises KeyError('tx_id') exactly
    when the record set has no column that [str.lower] names tx_id, reference
    or id; on a record set whose cells are texts, integers, floats or None
    the only other exceptions are the ValueError of an amount that is not a
    number, the OverflowError of an integer amount beyond the range of a
    float, and the AttributeError of a status column that holds no text. *)
Theorem normalize_needs_identifier
    (P : platform) (r : ref) (name : string) (d : DataFrame) (w : world) :
  store w !! r = Some d →
  ((normalize P r name w).1 = Raise (KeyError "tx_id") ↔ ¬ has_identifier P d) ∧
  (∀ e, (normalize P r name w).1 = Raise e →
        e = KeyError "tx_id" ∨
        e = ValueError "could not convert string to float" ∨
        e = OverflowError "int too large to convert to float" ∨
        ∃ msg, e = AttributeError msg).
Proof.
  intros Hr. rewrite (normalize_run P r name d w Hr). cbv zeta.
  pose proof (key_column_iff P name d) as Hkey. cbv zeta in Hkey.
  set (d4 := set_scalar "source" (VStr name) _) in *.
  assert (Hsteps : ∀ d5, convert_column "tx_id" (astype_str P) d4 = Ok d5 →
    ∀ e, (match (if in_columns "amount" d5
                 then convert_column "amount" (astype_float P) d5 else Ok d5) with
          | Raise e => (Raise e, set_store (store w ++ [d5]) w)
          | Ok d6 =>
              match (if in_columns "status" d6
                     then str_lower_column P "status" d6 else Ok d6) with
              | Raise e => (Raise e, set_store (store w ++ [d6]) w)
              | Ok d7 => (Ok (length (store w)), set_store (store w ++ [d7]) w)
              end
          end).1 = Raise e →
         e = ValueError "could not convert string to float" ∨
         e = OverflowError "int too large to convert to float" ∨
         ∃ msg, e = AttributeError msg).
  { intros d5 _ e.
    destruct (in_columns "amount" d5) eqn:Ha.
    - destruct (convert_column "amount" (astype_float P) d5) as [d6|e6] eqn:H6.
      + destruct (in_columns "status" d6) eqn:Hs.
        * destruct (str_lower_column P "status" d6) as [d7|e7] eqn:H7; [discriminate|].
          simpl. intros [= ->].
          right; right. eapply str_lower_column_raise; eassumption.
        * discriminate.
      + simpl. intros [= ->].
        apply convert_column_raise in H6 as [[Hf _]|[v Hv]]; [congruence|].
        destruct (astype_float_raise _ _ _ Hv) as [->| ->]; [left|right; left];
          reflexivity.
    - destruct (in_columns "status" d5) eqn:Hs; [|discriminate].
      destruct (str_lower_column P "status" d5) as [d7|e7] eqn:H7; [discriminate|].
      simpl. intros [= ->].
      right; right. eapply str_lower_column_raise; eassumption. }
  destruct (convert_column "tx_id" (astype_str P) d4) as [d5|e5] eqn:H5.
  - assert (Hin : in_columns "tx_id" d4 = true).
    { unfold convert_column in H5. destruct (in_columns "tx_id" d4); [reflexivity|discriminate]. }
    split.
    + split.
      * intros Hraise.
        destruct (Hsteps d5 eq_refl _ Hraise) as [[=]|[[=]|[msg [=]]]].
      * intros Hno. exfalso. apply Hno, Hkey, Hin.
    + intros e He. right. apply (Hsteps d5 eq_refl e He).
  - apply convert_column_raise in H5 as [[Hin ->]|[v Hv]]; [|discriminate].
    split.
    + split; [|reflexivity]. intros _ Hid. apply Hkey in Hid. congruence.
    + simpl. intros e [= <-]. auto.
Qed.

(** ** Cells under the casts *)

Lemma mapM_zip_labels (g : string * value → result value) cols : ∀ r r',
  mapM g (zip cols r) = Ok r' →
  Forall2 (λ p q : string * value, q.1 = p.1 ∧ g p = Ok q.2)
          (zip cols r) (zip cols r').
Proof.
  induction cols as [|c cols IH]; intros r r' H.
  - simpl in H. injection H as <-. constructor.
  - destruct r as [|v r]; simpl in H.
    + injection H as <-. constructor.
    + destruct (g (c, v)) as [b|e] eqn:Hg; [|discriminate]. simpl in H.
      destruct (mapM g (zip cols r)) as [bs|e] eqn:Hrest; [|discriminate].
      simpl in H. injection H as <-. simpl. constructor; [auto|].
      apply IH, Hrest.
Qed.

Lemma Forall2_labelled (R : value → value → Prop) k (l l' : Series) :
  Forall2 (λ p q : string * value, q.1 = p.1 ∧ (p.1 = k → R p.2 q.2)) l l' →
  Forall2 R (labelled k l) (labelled k l').
Proof.
  induction 1 as [|p q l l' [Hl HR] Hrest IH]; [constructor|].
  rewrite !labelled_cons, Hl.
  destruct (decide (p.1 = k)); [constructor; auto|exact IH].
Qed.

Lemma cells_absent k d : in_columns k d = false → cells k d = [].
Proof.
  intros H. apply bool_decide_eq_false in H. unfold cells.
  induction (rows d) as [|r rs IH]; [reflexivity|].
  rewrite bind_cons, IH. unfold series_of.
  rewrite labelled_zip_absent by exact H. reflexivity.
Qed.

(** A cast applies its operation to the cells of its column, leaves the
    cells of every other column alone, and keeps the shape of the frame. *)
Lemma convert_column_cells k op d d' :
  convert_column k op d = Ok d' →
  columns d' = columns d ∧
  Forall2 (λ r r' : list value, length r' = length (series_of d r)) (rows d) (rows d') ∧
  Forall2 (λ v v', op v = Ok v') (cells k d) (cells k d') ∧
  (∀ k', k' ≠ k → cells k' d' = cells k' d).
Proof.
  unfold convert_column. destruct (in_columns k d); [|discriminate].
  destruct (mapM _ (rows d)) as [rs|e] eqn:Hrows; [|discriminate].
  intros [= <-]. simpl. apply mapM_ok_Forall2 in Hrows.
  split; [reflexivity|]. split; [|split].
  - eapply Forall2_impl; [exact Hrows|]. intros r r' Hr. simpl in Hr.
    apply mapM_ok_Forall2, Forall2_length in Hr. symmetry. exact Hr.
  - unfold cells. simpl. apply Forall2_bind.
    eapply Forall2_impl; [exact Hrows|]. intros r r' Hr. simpl in Hr.
    unfold series_of in *. simpl.
    apply Forall2_labelled. eapply Forall2_impl; [apply mapM_zip_labels, Hr|].
    intros p q [Hl Hg]. split; [exact Hl|]. intros Hk. simpl in Hg.
    rewrite bool_decide_eq_true_2 in Hg by exact Hk. exact Hg.
  - intros k' Hne. unfold cells. simpl. symmetry. apply list_eq_Forall2.
    apply Forall2_bind.
    eapply Forall2_impl; [exact Hrows|]. intros r r' Hr. simpl in Hr.
    unfold series_of in *. simpl.
    apply Forall2_labelled. eapply Forall2_impl; [apply mapM_zip_labels, Hr|].
    intros p q [Hl Hg]. split; [exact Hl|]. intros Hk. simpl in Hg.
    rewrite bool_decide_eq_false_2 in Hg by congruence. congruence.
Qed.

Lemma length_series_of d r :
  length r = length (columns d) → length (series_of d r) = length (columns d).
Proof. intros H. unfold series_of. rewrite length_zip_with. lia. Qed.

Lemma convert_column_frame_ok k op d d' :
  frame_ok d → convert_column k op d = Ok d' →
  frame_ok d' ∧ length (rows d') = length (rows d).
Proof.
  intros Hok H. destruct (convert_column_cells _ _ _ _ H) as (Hc & Hr & _ & _).
  split; [|symmetry; eapply Forall2_length, Hr].
  unfold frame_ok in *. rewrite Hc.
  eapply Forall2_Forall_r; [exact Hr|].
  eapply Forall_impl; [exact Hok|]. intros r Hlen r' Hr'. simpl in *.
  rewrite Hr'. apply length_series_of, Hlen.
Qed.

Lemma str_lower_column_cells P k d d' :
  str_lower_column P k d = Ok d' →
  columns d' = columns d ∧
  (frame_ok d → frame_ok d' ∧ length (rows d') = length (rows d)) ∧
  Forall (λ v, v = VNone ∨ v = NaN ∨ ∃ s, v = VStr (str_lower P s)) (cells k d') ∧
  (∀ k', k' ≠ k → cells k' d' = cells k' d).
Proof.
  unfold str_lower_column. destruct (count_label k d) as [|[|n]]; try discriminate.
  destruct (cells k d) as [|v vs] eqn:Hcells.
  - intros [= <-]. rewrite Hcells. repeat split; auto.
  - destruct (forallb is_numeric (v :: vs)); [discriminate|].
    intros H. pose proof (convert_column_cells _ _ _ _ H) as (Hc & _ & Hk & Hother).
    split; [exact Hc|]. split; [intros Hok; eapply convert_column_frame_ok; eauto|].
    split; [|exact Hother].
    eapply Forall2_Forall_r; [exact Hk|]. apply Forall_forall.
    intros x _ y [= <-].
    destruct x; [right; right; eauto|right; left; reflexivity
                |right; left; reflexivity|left; reflexivity].
Qed.

Lemma zip_map_labelled k (f : value → value) cols : ∀ r,
  Forall2 (λ p q : string * value,
             q.1 = p.1 ∧ q.2 = if bool_decide (p.1 = k) then f p.2 else p.2)
          (zip cols r) (zip cols (map_labelled k f cols r)).
Proof.
  unfold map_labelled.
  induction cols as [|c cols IH]; intros [|v r]; simpl; constructor; auto.
Qed.

Lemma cells_ext {V} k cols cols' (f : list V → list V) rs :
  (∀ r, r ∈ rs → labelled k (zip cols' (f r)) = labelled k (zip cols r)) →
  (f <$> rs) ≫= (λ r, labelled k (zip cols' r))
  = rs ≫= (λ r, labelled k (zip cols r)).
Proof.
  induction rs as [|r rs IH]; intros H; [reflexivity|].
  rewrite fmap_cons, !bind_cons, IH by (intros r' Hr'; apply H; right; exact Hr').
  rewrite (H r) by left. reflexivity.
Qed.

Lemma set_scalar_frame_ok k v d : frame_ok d → frame_ok (set_scalar k v d).
Proof.
  unfold frame_ok, set_scalar. intros Hok.
  destruct (in_columns k d); simpl; apply Forall_fmap;
    (eapply Forall_impl; [exact Hok|]); intros r Hr; simpl in *.
  - unfold map_labelled. rewrite length_zip_with. lia.
  - rewrite !length_app. simpl. lia.
Qed.

(** [df[k] = v] fills the column [k] with [v] and leaves the cells of every
    other column alone. *)
Lemma set_scalar_cells k v d :
  frame_ok d →
  Forall (λ x, x = v) (cells k (set_scalar k v d)) ∧
  (∀ k', k' ≠ k → cells k' (set_scalar k v d) = cells k' d) ∧
  length (rows (set_scalar k v d)) = length (rows d).
Proof.
  intros Hok. unfold set_scalar. destruct (in_columns k d) eqn:Hin.
  - split; [|split; [|simpl; apply length_fmap]].
    + unfold cells. simpl. rewrite Forall_bind. apply Forall_fmap.
      apply Forall_forall. intros r _. simpl. unfold series_of. simpl.
      assert (HF : Forall2 (λ _ y, y = v) (labelled k (zip (columns d) r))
                     (labelled k (zip (columns d)
                        (map_labelled k (λ _, v) (columns d) r)))).
      { apply Forall2_labelled.
        eapply Forall2_impl; [apply (zip_map_labelled k (λ _, v))|].
        intros p q [Hl Hq]. split; [exact Hl|]. intros Hk.
        rewrite bool_decide_eq_true_2 in Hq by exact Hk. exact Hq. }
      eapply Forall2_Forall_r; [exact HF|]. apply Forall_forall. auto.
    + intros k' Hne. unfold cells, series_of. simpl. apply cells_ext.
      intros r _. apply list_eq_Forall2, Forall2_flip.
      apply Forall2_labelled.
      eapply Forall2_impl; [apply (zip_map_labelled k (λ _, v))|].
      intros p q [Hl Hq]. split; [exact Hl|]. intros Hk.
      rewrite bool_decide_eq_false_2 in Hq by congruence. congruence.
  - apply bool_decide_eq_false in Hin.
    assert (Hrow : ∀ r, r ∈ rows d →
              series_of {| columns := columns d ++ [k];
                           rows := (λ r, r ++ [v]) <$> rows d |} (r ++ [v])
              = series_of d r ++ [(k, v)]).
    { intros r Hr. unfold frame_ok in Hok. rewrite Forall_forall in Hok.
      unfold series_of. simpl. rewrite zip_with_app by (symmetry; apply Hok, Hr).
      reflexivity. }
    split; [|split; [|simpl; apply length_fmap]].
    + unfold cells. simpl. rewrite Forall_bind. apply Forall_fmap.
      apply Forall_forall. intros r Hr. simpl. rewrite (Hrow r Hr).
      rewrite labelled_app. unfold series_of at 1.
      rewrite labelled_zip_absent by exact Hin. simpl.
      rewrite labelled_cons. simpl. rewrite decide_True by reflexivity.
      repeat constructor.
    + intros k' Hne. unfold cells. simpl.
      unfold series_of. simpl. apply cells_ext. intros r Hr.
      pose proof (Hrow r Hr) as Hz. unfold series_of in Hz. simpl in Hz.
      rewrite Hz, labelled_app, labelled_cons. simpl.
      rewrite decide_False by congruence. apply app_nil_r.
Qed.

Lemma rename_with_frame_ok f d : frame_ok d → frame_ok (rename_with f d).
Proof.
  unfold frame_ok, rename_with. simpl. intros H.
  eapply Forall_impl; [exact H|]. intros r Hr. simpl in *.
  rewrite length_fmap. exact Hr.
Qed.

Lemma astype_str_ok P v v' : astype_str P v = Ok v' → ∃ s, v' = VStr s.
Proof. intros [= <-]. eauto. Qed.

Lemma astype_float_ok P v v' : astype_float P v = Ok v' → ∃ f, v' = VFloat f.
Proof.
  destruct v as [s|z| |]; simpl.
  - destruct (float_of_str P s); [|discriminate]. intros [= <-]. eauto.
  - destruct (float_of_int z); try discriminate; intros [= <-]; eauto.
  - intros [= <-]. eauto.
  - intros [= <-]. unfold NaN. eauto.
Qed.

(** A frame with one [tx_id] column that holds text is ready for the
    join. *)
Lemma text_keys_are_keys d :
  frame_ok d → count_label "tx_id" d = 1 →
  Forall (λ v, ∃ s, v = VStr s) (cells "tx_id" d) →
  ∃ ks, keys_of d ks ∧ length ks = length (rows d).
Proof.
  intros Hok Hcount Hcells.
  assert (Hpos : ∃ i, key_position d = Ok i).
  { unfold key_position. rewrite Hcount.
    destruct (list_find (λ c, c = "tx_id") (columns d)) as [[i c]|] eqn:Hf; [eauto|].
    exfalso. unfold count_label in Hcount.
    destruct (filter (λ c, c = "tx_id") (columns d)) as [|c l] eqn:Hfil; [discriminate|].
    assert (Hc : c ∈ filter (λ c, c = "tx_id") (columns d)) by (rewrite Hfil; left).
    apply list_elem_of_filter in Hc as [-> Hc].
    apply list_find_None in Hf. rewrite Forall_forall in Hf. apply (Hf _ Hc). reflexivity. }
  destruct Hpos as [i Hpos].
  destruct (key_position_spec _ _ Hpos) as (Hone & Hfind & Hi).
  assert (Hkeyed : ∃ kr, keyed i d = Ok kr).
  { unfold keyed. apply mapM_total. intros r Hr.
    unfold frame_ok in Hok. rewrite Forall_forall in Hok.
    assert (Hlt : i < length r) by (rewrite (Hok r Hr); exact Hi).
    destruct (lookup_lt_is_Some_2 _ _ Hlt) as [v Hv].
    pose proof (labelled_zip_key "tx_id" (columns d) r i "tx_id" v Hone Hfind Hv) as Hlab.
    assert (Hin : v ∈ cells "tx_id" d).
    { unfold cells. apply list_elem_of_bind. exists r. split; [|exact Hr].
      unfold series_of. rewrite Hlab. left. }
    rewrite Forall_forall in Hcells. destruct (Hcells v Hin) as [s ->].
    unfold key_of. rewrite Hv. simpl. eauto. }
  destruct Hkeyed as [kr Hkr]. exists kr.*1. split.
  - exists i, kr. auto.
  - destruct (keyed_spec _ _ _ Hkr) as [Hrows _].
    rewrite <- Hrows, !length_fmap. reflexivity.
Qed.

(** X15.  What [normalize] hands to the join.  On a rectangular record set, a
    successful [normalize] returns a new object with the same number of
    records, a [tx_id] and a [source] column, in which every key is text,
    every [source] cell names the side, every amount is a float and every
    status is lower-case text or missing.  When the copy has a single
    [tx_id] column, it has the keys that the join reads. *)
Theorem normalize_postcondition
    (P : platform) (r : ref) (name : string) (d : DataFrame) (w : world)
    (r' : ref) (w' : world) :
  store w !! r = Some d → frame_ok d →
  normalize P r name w = (Ok r', w') →
  ∃ d',
    r' = length (store w) ∧ store w' !! r' = Some d' ∧ frame_ok d' ∧
    length (rows d') = length (rows d) ∧
    "tx_id" ∈ columns d' ∧ "source" ∈ columns d' ∧
    Forall (λ v, ∃ s, v = VStr s) (cells "tx_id" d') ∧
    Forall (λ v, v = VStr name) (cells "source" d') ∧
    Forall (λ v, ∃ f, v = VFloat f) (cells "amount" d') ∧
    Forall (λ v, v = VNone ∨ v = NaN ∨ ∃ s, v = VStr (str_lower P s))
           (cells "status" d') ∧
    (count_label "tx_id" d' = 1 →
     ∃ ks, keys_of d' ks ∧ length ks = length (rows d)).
Proof.
  intros Hr Hok. rewrite (normalize_run P r name d w Hr). cbv zeta.
  set (d1 := rename_with (str_lower P) d).
  set (d2 := if in_columns "reference" d1
             then rename_label "reference" "tx_id" d1 else d1).
  set (d3 := if in_columns "id" d2 then rename_label "id" "tx_id" d2 else d2).
  set (d4 := set_scalar "source" (VStr name) d3).
  assert (Hok3 : frame_ok d3 ∧ length (rows d3) = length (rows d)).
  { unfold d3, d2, d1.
    destruct (in_columns "reference" _); destruct (in_columns "id" _);
      split; try reflexivity; unfold rename_label;
      repeat apply rename_with_frame_ok; exact Hok. }
  destruct Hok3 as [Hok3 Hlen3].
  pose proof (set_scalar_frame_ok "source" (VStr name) d3 Hok3) as Hok4.
  destruct (set_scalar_cells "source" (VStr name) d3 Hok3) as (Hsrc4 & _ & Hlen4).
  fold d4 in Hok4, Hsrc4, Hlen4.
  assert (Hsource4 : "source" ∈ columns d4).
  { unfold d4. rewrite set_scalar_columns.
    destruct (in_columns "source" d3) eqn:E;
      [apply bool_decide_eq_true in E; exact E|set_solver]. }
  destruct (convert_column "tx_id" (astype_str P) d4) as [d5|e] eqn:H5; [|discriminate].
  assert (Hkey4 : "tx_id" ∈ columns d4).
  { unfold convert_column in H5. destruct (in_columns "tx_id" d4) eqn:E; [|discriminate].
    apply bool_decide_eq_true in E. exact E. }
  destruct (convert_column_cells _ _ _ _ H5) as (Hc5 & _ & Hk5 & Ho5).
  destruct (convert_column_frame_ok _ _ _ _ Hok4 H5) as [Hok5 Hlen5].
  assert (Hkeys5 : Forall (λ v, ∃ s, v = VStr s) (cells "tx_id" d5)).
  { eapply Forall2_Forall_r; [exact Hk5|]. apply Forall_forall.
    intros x _ y Hy. eapply astype_str_ok, Hy. }
  assert (Hsrc5 : Forall (λ v, v = VStr name) (cells "source" d5))
    by (rewrite Ho5 by discriminate; exact Hsrc4).
  destruct (if in_columns "amount" d5
            then convert_column "amount" (astype_float P) d5 else Ok d5)
    as [d6|e] eqn:H6; [|discriminate].
  assert (H6' : columns d6 = columns d5 ∧ frame_ok d6 ∧
                length (rows d6) = length (rows d5) ∧
                Forall (λ v, ∃ f, v = VFloat f) (cells "amount" d6) ∧
                (∀ k, k ≠ "amount" → cells k d6 = cells k d5)).
  { destruct (in_columns "amount" d5) eqn:Ea.
    - destruct (convert_column_cells _ _ _ _ H6) as (Hc6 & _ & Hk6 & Ho6).
      destruct (convert_column_frame_ok _ _ _ _ Hok5 H6) as [Hok6 Hlen6].
      repeat split; try assumption.
      eapply Forall2_Forall_r; [exact Hk6|]. apply Forall_forall.
      intros x _ y Hy. eapply astype_float_ok, Hy.
    - injection H6 as <-. repeat split; try assumption; try reflexivity.
      rewrite cells_absent by exact Ea. constructor. }
  destruct H6' as (Hc6 & Hok6 & Hlen6 & Hamt6 & Ho6).
  destruct (if in_columns "status" d6 then str_lower_column P "status" d6 else Ok d6)
    as [d7|e] eqn:H7; [|discriminate].
  assert (H7' : columns d7 = columns d6 ∧ frame_ok d7 ∧
                length (rows d7) = length (rows d6) ∧
                Forall (λ v, v = VNone ∨ v = NaN ∨ ∃ s, v = VStr (str_lower P s))
                       (cells "status" d7) ∧
                (∀ k, k ≠ "status" → cells k d7 = cells k d6)).
  { destruct (in_columns "status" d6) eqn:Es.
    - destruct (str_lower_column_cells _ _ _ _ H7) as (Hc7 & Hf7 & Hk7 & Ho7).
      destruct (Hf7 Hok6) as [Hok7 Hlen7]. repeat split; assumption.
    - injection H7 as <-. repeat split; try assumption; try reflexivity.
      rewrite cells_absent by exact Es. constructor. }
  destruct H7' as (Hc7 & Hok7 & Hlen7 & Hst7 & Ho7).
  intros [= <- <-]. exists d7.
  assert (Hkeys7 : Forall (λ v, ∃ s, v = VStr s) (cells "tx_id" d7))
    by (rewrite Ho7, Ho6 by discriminate; exact Hkeys5).
  assert (Hlen : length (rows d7) = length (rows d)) by congruence.
  split; [reflexivity|].
  split; [simpl; apply list_lookup_middle; reflexivity|].
  split; [exact Hok7|]. split; [exact Hlen|].
  split; [rewrite Hc7, Hc6, Hc5; exact Hkey4|].
  split; [rewrite Hc7, Hc6, Hc5; exact Hsource4|].
  split; [exact Hkeys7|].
  split; [rewrite Ho7, Ho6 by discriminate; exact Hsrc5|].
  split; [rewrite Ho7 by discriminate; exact Hamt6|].
  split; [exact Hst7|].
  intros Hone. rewrite <- Hlen. apply text_keys_are_keys; assumption.
Qed.

(** X15 at a record set with capitals in header and statuses. *)
Lemma normalize_postcondition_witness :
  ∃ d',
    2 = length (store (initial_world [raw_internal; gateway_csv])) ∧
    store (normalize ai_platform 0 "internal"
             (initial_world [raw_internal; gateway_csv])).2 !! 2 = Some d' ∧
    frame_ok d' ∧
    length (rows d') = length (rows raw_internal) ∧
    "tx_id" ∈ columns d' ∧ "source" ∈ columns d' ∧
    Forall (λ v, ∃ s, v = VStr s) (cells "tx_id" d') ∧
    Forall (λ v, v = VStr "internal") (cells "source" d') ∧
    Forall (λ v, ∃ f, v = VFloat f) (cells "amount" d') ∧
    Forall (λ v, v = VNone ∨ v = NaN ∨ ∃ s, v = VStr (str_lower ai_platform s))
           (cells "status" d') ∧
    (count_label "tx_id" d' = 1 →
     ∃ ks, keys_of d' ks ∧ length ks = length (rows raw_internal)).
Proof.
  apply (normalize_postcondition ai_platform 0 "internal" raw_internal
           (initial_world [raw_internal; gateway_csv])).
  - reflexivity.
  - unfold frame_ok. by_computation.
  - vm_compute. reflexivity.
Defined.

(** X14 at a record set headed Transaction, Amount. *)
Lemma normalize_needs_identifier_witness :
  ((normalize ai_platform 0 "gateway" (initial_world [unidentified_records])).1
   = Raise (KeyError "tx_id") ↔ ¬ has_identifier ai_platform unidentified_records) ∧
  (∀ e, (normalize ai_platform 0 "gateway"
           (initial_world [unidentified_records])).1 = Raise e →
        e = KeyError "tx_id" ∨
        e = ValueError "could not convert string to float" ∨
        e = OverflowError "int too large to convert to float" ∨
        ∃ msg, e = AttributeError msg).
Proof.
  apply (normalize_needs_identifier ai_platform 0 "gateway" unidentified_records
           (initial_world [unidentified_records])).
  reflexivity.
Defined.

(** ** The gateway API *)

Lemma hundredth_ok P v v' :
  hundredth P v = Ok v' →
  ∃ f, astype_float P v = Ok (VFloat f) ∧
       v' = VFloat (SFdiv prec64 emax64 f (float_of_int 100)).
Proof.
  unfold hundredth. destruct (astype_float P v) as [x|e] eqn:Hx; [|discriminate].
  destruct (astype_float_ok _ _ _ Hx) as [f ->]. simpl. intros [= <-]. eauto.
Qed.

(** X16.  Amounts from the gateway API come in minor units and are divided by 100
    exactly once.  When the Paystack or Stripe API answers 200 and the loader
    returns, the frame it returns is a new object that carries the columns of
    the response renamed by the mapping of the gateway; every cell of its
    amount column is the float of the delivered cell divided by 100, and the
    cells of every other column are as delivered. *)
Theorem gateway_amounts_are_divided
    (P : platform) (url secret name : string) (body : DataFrame)
    (w : world) (r : ref) (w' : world) :
  name ∈ ["paystack"; "stripe"] →
  requests_get P url ("Bearer " +:+ secret) = Ok (200%Z, body) →
  fetch_gateway P url secret name w = (Ok r, w') →
  ∃ d',
    store w' !! r = Some d' ∧ length (store w) < r ∧
    columns d' = columns (rename_by (gateway_mapping name) body) ∧
    Forall2 (λ v v', ∃ f, astype_float P v = Ok (VFloat f) ∧
                          v' = VFloat (SFdiv prec64 emax64 f (float_of_int 100)))
            (cells "amount" (rename_by (gateway_mapping name) body))
            (cells "amount" d') ∧
    (∀ k, k ≠ "amount" →
          cells k d' = cells k (rename_by (gateway_mapping name) body)).
Proof.
  intros Hname Hget. unfold fetch_gateway.
  unfold bind at 1. unfold lift at 1. rewrite Hget. cbv beta iota.
  change (negb ((200%Z, body).1 =? 200)%Z) with false. cbv iota.
  unfold bind at 1. rewrite new_frame_fresh. cbn [snd].
  set (w1 := set_store (store w ++ [body]) w).
  assert (Hnorm : normalize_gateway_data (length (store w)) name w1
                  = (Ok (length (store w1)),
                     set_store (store w1 ++ [rename_by (gateway_mapping name) body]) w1)).
  { unfold normalize_gateway_data. fold (gateway_mapping name).
    assert (Hmap : gateway_mapping name ≠ []).
    { repeat (apply elem_of_cons in Hname as [->|Hname]);
        [discriminate|discriminate|inversion Hname]. }
    destruct (gateway_mapping name) as [|p mapping]; [contradiction|].
    unfold bind. unfold w1. rewrite deref_fresh. reflexivity. }
  unfold bind at 1. rewrite Hnorm.
  set (d1 := rename_by (gateway_mapping name) body).
  unfold bind at 1. rewrite deref_fresh.
  unfold bind at 1. rewrite cond_modify_fresh.
  destruct (in_columns "amount" d1) eqn:Ha.
  - destruct (convert_column "amount" (hundredth P) d1) as [d2|e] eqn:Hc; [|discriminate].
    unfold ret. intros [= <- <-]. exists d2.
    destruct (convert_column_cells _ _ _ _ Hc) as (Hcols & _ & Hk & Hother).
    split; [simpl; apply list_lookup_middle; reflexivity|].
    split; [unfold w1; simpl; rewrite length_app; simpl; lia|].
    split; [exact Hcols|]. split; [|exact Hother].
    eapply Forall2_impl; [exact Hk|]. intros v v' Hv. apply hundredth_ok, Hv.
  - unfold ret. intros [= <- <-]. exists d1.
    split; [simpl; apply list_lookup_middle; reflexivity|].
    split; [unfold w1; simpl; rewrite length_app; simpl; lia|].
    split; [reflexivity|]. split; [|reflexivity].
    rewrite cells_absent by exact Ha. constructor.
Qed.

(** X16 at two Paystack charges. *)
Lemma gateway_amounts_are_divided_witness :
  ∃ d',
    store (fetch_gateway paystack_platform "https://api.paystack.co/transaction"
             "sk_test_dummy" "paystack" (initial_world [])).2 !! 1 = Some d' ∧
    length (store (initial_world [])) < 1 ∧
    columns d' = columns (rename_by (gateway_mapping "paystack") paystack_body) ∧
    Forall2 (λ v v', ∃ f, astype_float paystack_platform v = Ok (VFloat f) ∧
                          v' = VFloat (SFdiv prec64 emax64 f (float_of_int 100)))
            (cells "amount" (rename_by (gateway_mapping "paystack") paystack_body))
            (cells "amount" d') ∧
    (∀ k, k ≠ "amount" →
          cells k d' = cells k (rename_by (gateway_mapping "paystack") paystack_body)).
Proof.
  apply (gateway_amounts_are_divided paystack_platform
           "https://api.paystack.co/transaction" "sk_test_dummy" "paystack"
           paystack_body (initial_world [])).
  - by_computation.
  - reflexivity.
  - vm_compute. reflexivity.
Defined.

(** ** Provenance in the join *)

Lemma join_key_tagged iL iR nL nR SL SR k :
  side_ok iL nL SL → side_ok iR nR SR →
  NoDup SL.*1 → NoDup SR.*1 → iL < nL →
  k ∈ SL.*1 ∨ k ∈ SR.*1 →
  ∃ lpart rpart,
    join_key iL iR nL nR SL SR k
    = [lpart ++ rpart ++ [VStr (provenance SL.*1 SR.*1 k)]] ∧
    length lpart = nL ∧ length rpart = nR - 1 ∧ lpart !! iL = Some (VStr k).
Proof.
  intros HL HR HndL HndR Hi Hk. unfold join_key, provenance.
  destruct (labelled_unique k SL HndL) as [Hl|[l Hl]];
    destruct (labelled_unique k SR HndR) as [Hr|[r Hr]]; rewrite Hl, Hr.
  - exfalso. destruct Hk as [Hk|Hk];
      [apply (labelled_present _ _ Hk), Hl|apply (labelled_present _ _ Hk), Hr].
  - destruct (side_ok_labelled _ _ _ _ _ HR Hr) as [Hkey Hlen].
    rewrite bool_decide_eq_false_2.
    2:{ intros Hin. apply (labelled_present _ _ Hin), Hl. }
    eexists _, _. split; [reflexivity|]. repeat split.
    + rewrite length_insert, length_replicate. reflexivity.
    + rewrite length_delete by eauto. lia.
    + apply list_lookup_insert_eq. rewrite length_replicate. exact Hi.
  - destruct (side_ok_labelled _ _ _ _ _ HL Hl) as [Hkey Hlen].
    assert (HinL : k ∈ SL.*1).
    { apply list_elem_of_fmap. exists (k, l). split; [reflexivity|].
      apply labelled_elem. rewrite Hl. left. }
    rewrite (bool_decide_eq_true_2 _ HinL), bool_decide_eq_false_2.
    2:{ intros Hin. apply (labelled_present _ _ Hin), Hr. }
    eexists _, _. split; [reflexivity|]. repeat split; auto.
    apply length_replicate.
  - destruct (side_ok_labelled _ _ _ _ _ HL Hl) as [Hkey Hlen].
    destruct (side_ok_labelled _ _ _ _ _ HR Hr) as [Hkey' Hlen'].
    assert (HinL : k ∈ SL.*1).
    { apply list_elem_of_fmap. exists (k, l). split; [reflexivity|].
      apply labelled_elem. rewrite Hl. left. }
    assert (HinR : k ∈ SR.*1).
    { apply list_elem_of_fmap. exists (k, r). split; [reflexivity|].
      apply labelled_elem. rewrite Hr. left. }
    rewrite (bool_decide_eq_true_2 _ HinL), (bool_decide_eq_true_2 _ HinR).
    eexists _, _. split; [reflexivity|]. repeat split; auto.
    rewrite length_delete by eauto. lia.
Qed.

(** A suffix never produces the label of the provenance column. *)
Lemma suffixed_merge suffix others c :
  6 < String.length suffix → suffixed suffix others c = "_merge" → c = "_merge".
Proof.
  intros Hlen. unfold suffixed. destruct (bool_decide (c ∈ others)); [|auto].
  intros H. apply (f_equal String.length) in H.
  rewrite string_length_app in H. simpl in H. lia.
Qed.

(** In a joined row the [_merge] field is the last cell. *)
Lemma merged_row_tag (colsL colsR othersL othersR : list string)
    (lpart rpart : list value) tag :
  "_merge" ∉ colsL → "_merge" ∉ colsR →
  length lpart = length colsL → length rpart = length colsR →
  labelled "_merge"
    (zip ((suffixed "_internal" othersL <$> colsL)
          ++ (suffixed "_gateway" othersR <$> colsR) ++ ["_merge"])
         (lpart ++ rpart ++ [tag]))
  = [tag].
Proof.
  intros HL HR Hl Hr.
  rewrite zip_with_app by (rewrite length_fmap; lia).
  rewrite zip_with_app by (rewrite length_fmap; lia).
  rewrite !labelled_app.
  rewrite labelled_zip_absent.
  2:{ intros Hin. apply list_elem_of_fmap in Hin as (c & Hc & Hin).
      symmetry in Hc. apply suffixed_merge in Hc; [|simpl; lia]. congruence. }
  rewrite labelled_zip_absent.
  2:{ intros Hin. apply list_elem_of_fmap in Hin as (c & Hc & Hin).
      symmetry in Hc. apply suffixed_merge in Hc; [|simpl; lia]. congruence. }
  reflexivity.
Qed.

(** The joined rows, paired with the sorted keys of both sides, each with
    its key and its provenance. *)
Lemma merge_rows_tagged L R iL iR kL kR :
  frame_ok L → frame_ok R →
  key_position L = Ok iL → key_position R = Ok iR →
  keyed iL L = Ok kL → keyed iR R = Ok kR →
  NoDup kL.*1 → NoDup kR.*1 → mergeable L R →
  ∃ m, merge L R = Ok m ∧
       Forall2 (λ k r, has_key m k r ∧
                       field (series_of m r) "_merge"
                             (VStr (provenance kL.*1 kR.*1 k)))
               (merge_sort String.le (remove_dups (kL.*1 ++ kR.*1)))
               (rows m).
Proof.
  intros HokL HokR HposL HposR HkL HkR HndL HndR (Hres1 & Hres2 & Hres3 & Hcl1 & Hcl2).
  unfold other_columns in Hcl1, Hcl2. rewrite HposR in Hcl1, Hcl2.
  destruct (key_position_spec _ _ HposL) as (_ & _ & HiL).
  destruct (key_position_spec _ _ HposR) as (_ & _ & HiR).
  destruct (upcast_ints_side _ _ _ HokL HkL HiL) as [HsL HsL'].
  destruct (upcast_ints_side _ _ _ HokR HkR HiR) as [HsR HsR'].
  destruct (keyed_spec _ _ _ HkL) as [HrowsL _].
  destruct (keyed_spec _ _ _ HkR) as [HrowsR _].
  unfold merge. rewrite HposL. cbn [bind_result]. rewrite HposR. cbn [bind_result].
  rewrite HkL. cbn [bind_result]. rewrite HkR. cbn [bind_result].
  rewrite (bool_decide_eq_false_2 _ Hres1), (bool_decide_eq_false_2 _ Hres2),
    (bool_decide_eq_false_2 _ Hres3), Hcl1, Hcl2. simpl orb. cbv iota.
  eexists. split; [reflexivity|]. simpl rows.
  apply bind_singletons. intros k Hk.
  apply (elem_of_Permutation_proper _ _ _ (merge_sort_Permutation _ _)) in Hk.
  apply elem_of_remove_dups, elem_of_app in Hk.
  set (SL := zip kL.*1 (rows (if bool_decide (Exists (λ k, k ∉ kL.*1) kR.*1)
                              then upcast_ints L else L))).
  set (SR := zip kR.*1 (rows (if bool_decide (Exists (λ k, k ∉ kR.*1) kL.*1)
                              then upcast_ints R else R))).
  assert (HSL : side_ok iL (length (columns L)) SL)
    by (unfold SL; destruct (bool_decide (Exists _ kR.*1)); assumption).
  assert (HSR : side_ok iR (length (columns R)) SR)
    by (unfold SR; destruct (bool_decide (Exists _ kL.*1)); assumption).
  assert (HlenL : length kL.*1 = length (rows L))
    by (rewrite <- HrowsL, !length_fmap; reflexivity).
  assert (HlenR : length kR.*1 = length (rows R))
    by (rewrite <- HrowsR, !length_fmap; reflexivity).
  assert (HfstL : SL.*1 = kL.*1).
  { unfold SL. apply fst_zip. rewrite HlenL.
    destruct (bool_decide (Exists _ kR.*1)); simpl; rewrite ?length_fmap; lia. }
  assert (HfstR : SR.*1 = kR.*1).
  { unfold SR. apply fst_zip. rewrite HlenR.
    destruct (bool_decide (Exists _ kL.*1)); simpl; rewrite ?length_fmap; lia. }
  destruct (join_key_tagged iL iR (length (columns L)) (length (columns R)) SL SR k)
    as (lpart & rpart & Hjoin & Hl & Hr & Hkey);
    rewrite ?HfstL, ?HfstR; auto.
  rewrite HfstL, HfstR in Hjoin.
  eexists. split; [exact Hjoin|].
  unfold has_key, field, series_of. simpl columns. split.
  - apply (merged_row_key L R iL iR); assumption.
  - apply merged_row_tag; try assumption.
    + intros Hin. apply Hres3, elem_of_app. left. exact Hin.
    + intros Hin. apply Hres3, elem_of_app. right.
      eapply list_elem_of_delete_inv, Hin.
    + rewrite Hr, length_delete by (apply lookup_lt_is_Some_2, HiR). lia.
Qed.

(** X17.  A transaction that one side alone knows is reported as missing on the
    other side.  For two rectangular record sets whose keys are unique within
    each set, every record of the join carries the provenance of its key, and
    the classifier reads it: a key found in the internal set only is
    missing_in_gateway, a key found in the gateway set only is
    missing_in_internal, whatever the other fields hold, and only a key found
    in both sets reaches the comparison of amounts. *)
Theorem one_sided_keys_are_missing (L R : DataFrame) (ksL ksR : list string) :
  frame_ok L → frame_ok R →
  keys_of L ksL → keys_of R ksR →
  NoDup ksL → NoDup ksR →
  mergeable L R →
  ∃ m, merge L R = Ok m ∧
       ∀ k r, r ∈ rows m → has_key m k r →
         (k ∈ ksL ∨ k ∈ ksR) ∧
         (k ∉ ksR → classify (series_of m r) = Ok "missing_in_gateway") ∧
         (k ∉ ksL → classify (series_of m r) = Ok "missing_in_internal") ∧
         (k ∈ ksL → k ∈ ksR → both_sides (series_of m r)).
Proof.
  intros HokL HokR (iL & kL & HposL & HkL & <-) (iR & kR & HposR & HkR & <-)
    HndL HndR Hm.
  destruct (merge_rows_tagged L R iL iR kL kR) as (m & Hrun & Hpairs); auto.
  exists m. split; [exact Hrun|]. intros k r Hr Hkey.
  apply list_elem_of_lookup in Hr as [j Hj].
  destruct (Forall2_lookup_r _ _ _ _ _ Hpairs Hj) as (k' & Hk' & Hkey' & Htag).
  assert (k' = k) by (eapply has_key_functional; eassumption). subst k'.
  assert (Hin : k ∈ kL.*1 ∨ k ∈ kR.*1).
  { apply list_elem_of_lookup_2 in Hk'.
    apply (elem_of_Permutation_proper _ _ _ (merge_sort_Permutation _ _)) in Hk'.
    apply elem_of_remove_dups, elem_of_app in Hk'. exact Hk'. }
  split; [exact Hin|]. unfold provenance in Htag.
  destruct (bool_decide (k ∈ kL.*1)) eqn:EL;
    [apply bool_decide_eq_true in EL|apply bool_decide_eq_false in EL];
    (destruct (bool_decide (k ∈ kR.*1)) eqn:ER;
     [apply bool_decide_eq_true in ER|apply bool_decide_eq_false in ER]).
  - repeat split; [contradiction..|]. intros _ _. exact Htag.
  - split; [|split]; [|contradiction|contradiction].
    intros _. apply classify_internal_only, Htag.
  - split; [|split]; [contradiction| |contradiction].
    intros _. apply classify_gateway_only, Htag.
  - destruct Hin; contradiction.
Qed.

(** X17 at the keys B, A and C, A. *)
Lemma one_sided_keys_are_missing_witness :
  ∃ m, merge normalized_internal normalized_gateway = Ok m ∧
       ∀ k r, r ∈ rows m → has_key m k r →
         (k ∈ ["B"; "A"] ∨ k ∈ ["C"; "A"]) ∧
         (k ∉ ["C"; "A"] → classify (series_of m r) = Ok "missing_in_gateway") ∧
         (k ∉ ["B"; "A"] → classify (series_of m r) = Ok "missing_in_internal") ∧
         (k ∈ ["B"; "A"] → k ∈ ["C"; "A"] → both_sides (series_of m r)).
Proof.
  apply (one_sided_keys_are_missing normalized_internal normalized_gateway
           ["B"; "A"] ["C"; "A"]).
  - unfold frame_ok. by_computation.
  - unfold frame_ok. by_computation.
  - eexists _, _. split; [reflexivity|]. split; reflexivity.
  - eexists _, _. split; [reflexivity|]. split; reflexivity.
  - by_computation.
  - by_computation.
  - unfold mergeable. repeat split; try by_computation; reflexivity.
Defined.

(** ** The loaders and the entry point *)

Lemma unchanged_normalize_internal_data {X} (proj : world → X) df :
  store_blind proj → unchanged proj (normalize_internal_data df).
Proof. intros Hb. unfold normalize_internal_data. simpl. repeat unchanged_step. Qed.

(** Loading the internal data changes the object store only. *)
Lemma unchanged_load_internal_data {X} (proj : world → X) P :
  store_blind proj → unchanged proj (load_internal_data P).
Proof.
  intros Hb. unfold load_internal_data.
  repeat first [ apply unchanged_normalize_internal_data; assumption
               | unchanged_step ].
Qed.

Lemma store_blind_prompts : store_blind prompts.
Proof. intros s w. reflexivity. Qed.

(** In these cases the loader logs the error and returns a frame without
    columns. *)
Lemma load_gateway_data_unavailable P w :
  gateway_unavailable P → load_gateway_data P w = new_frame empty_frame w.
Proof.
  unfold load_gateway_data. intros [Hmode|[[Hmode Hcall]|[Hmode Hcall]]].
  - rewrite !bool_decide_eq_false_2; [reflexivity|..];
      intros Heq; apply Hmode; rewrite Heq; set_solver.
  - rewrite Hmode. simpl. destruct Hcall as (code & body & Hget & Hcode).
    unfold fetch_gateway, bind, lift. rewrite Hget. simpl.
    destruct (code =? 200)%Z eqn:E; [apply Z.eqb_eq in E; contradiction|].
    reflexivity.
  - rewrite Hmode. simpl. destruct Hcall as (code & body & Hget & Hcode).
    unfold fetch_gateway, bind, lift. rewrite Hget. simpl.
    destruct (code =? 200)%Z eqn:E; [apply Z.eqb_eq in E; contradiction|].
    reflexivity.
Qed.

(** X18.  Without gateway data the run aborts.  When the gateway mode is not
    supported, or the Paystack or Stripe API answers with a status other than
    200, the loader returns an empty frame instead of raising; the run then
    ends with the one-line error of [main], without a report and without an
    alert, and when the internal side loads and normalizes, the error is the
    KeyError that [normalize] raises on the missing [tx_id] column of the
    empty gateway frame. *)
Theorem unavailable_gateway_aborts (P : platform) (w : world) :
  gateway_unavailable P →
  ∃ e w',
    main P w = (Ok (Failed e), w') ∧
    files w' = files w ∧ uploads w' = uploads w ∧ posts w' = posts w ∧
    (∀ ri w1 r1 w2,
       load_internal_data P w = (Ok ri, w1) →
       normalize P ri "internal" (new_frame empty_frame w1).2 = (Ok r1, w2) →
       e = KeyError "tx_id").
Proof.
  intros Hgw.
  pose proof (unchanged_load_internal_data files P store_blind_files w) as Hf1.
  pose proof (unchanged_load_internal_data slack_calls P store_blind_slack_calls w) as Hs1.
  unfold main, try_except. unfold bind at 1.
  destruct (load_internal_data P w) as [[ri|e] w1] eqn:Hload; simpl in Hf1, Hs1.
  2:{ exists e, w1. injection Hs1 as Hu Hp. repeat split; try assumption.
      intros ri w1' r1 w2 [=]. }
  unfold bind at 1. rewrite (load_gateway_data_unavailable P w1 Hgw), new_frame_fresh.
  set (w2 := set_store (store w1 ++ [empty_frame]) w1).
  assert (Hn : S (length (store w1)) ≤ length (store w2))
    by (simpl; rewrite length_app; simpl; lia).
  pose proof (unchanged_normalize files P ri "internal" store_blind_files w2) as Hf2.
  pose proof (unchanged_normalize slack_calls P ri "internal"
                store_blind_slack_calls w2) as Hs2.
  destruct (keeps_normalize P _ ri "internal" w2 Hn) as [Htake _].
  unfold reconcile. unfold bind at 1 2.
  destruct (normalize P ri "internal" w2) as [[r1|e] w3] eqn:Hnorm;
    simpl in Hf2, Hs2, Htake.
  2:{ exists e, w3. injection Hs1 as Hu Hp. injection Hs2 as Hu2 Hp2.
      split; [reflexivity|]. split; [congruence|]. split; [congruence|].
      split; [congruence|].
      intros ri' w1' r1' w2' [= <- <-]. rewrite new_frame_fresh. simpl.
      fold w2. rewrite Hnorm. discriminate. }
  assert (Hempty : store w3 !! length (store w1) = Some empty_frame).
  { rewrite <- (lookup_take_lt _ (S (length (store w1)))) by lia.
    rewrite Htake. rewrite lookup_take_lt by lia.
    simpl. apply list_lookup_middle. reflexivity. }
  destruct (normalize_empty P _ "gateway" w3 Hempty) as [w4 Hnorm2].
  pose proof (unchanged_normalize files P (length (store w1)) "gateway"
                store_blind_files w3) as Hf3.
  pose proof (unchanged_normalize slack_calls P (length (store w1)) "gateway"
                store_blind_slack_calls w3) as Hs3.
  rewrite Hnorm2 in Hf3, Hs3. simpl in Hf3, Hs3.
  unfold bind at 1. rewrite Hnorm2.
  exists (KeyError "tx_id"), w4.
  injection Hs1 as Hu Hp. injection Hs2 as Hu2 Hp2. injection Hs3 as Hu3 Hp3.
  split; [reflexivity|]. split; [congruence|]. split; [congruence|].
  split; [congruence|]. intros; reflexivity.
Qed.

(** X18 at a Paystack call answered 401. *)
Lemma unavailable_gateway_aborts_witness :
  ∃ e w',
    main refused_paystack_platform (initial_world []) = (Ok (Failed e), w') ∧
    files w' = files (initial_world []) ∧
    uploads w' = uploads (initial_world []) ∧
    posts w' = posts (initial_world []) ∧
    (∀ ri w1 r1 w2,
       load_internal_data refused_paystack_platform (initial_world []) = (Ok ri, w1) →
       normalize refused_paystack_platform ri "internal"
         (new_frame empty_frame w1).2 = (Ok r1, w2) →
       e = KeyError "tx_id").
Proof.
  apply (unavailable_gateway_aborts refused_paystack_platform (initial_world [])).
  right; left. split; [reflexivity|].
  exists 401%Z, empty_frame. split; [reflexivity|discriminate].
Defined.

(** ** A run of [reconcile] that returns *)

Lemma normalize_returns P r name d w r' w' :
  store w !! r = Some d → normalize P r name w = (Ok r', w') →
  ∃ d', r' = length (store w) ∧ w' = set_store (store w ++ [d']) w.
Proof.
  intros Hr. rewrite (normalize_run P r name d w Hr). cbv zeta.
  destruct (convert_column _ _ _) as [d5|e]; [|discriminate].
  destruct (if in_columns "amount" d5 then _ else _) as [d6|e]; [|discriminate].
  destruct (if in_columns "status" d6 then _ else _) as [d7|e]; [|discriminate].
  intros [= <- <-]. eauto.
Qed.

Lemma unchanged_files_send_slack_alert P summary path :
  unchanged files (send_slack_alert P summary path).
Proof.
  intros w. unfold send_slack_alert.
  destruct (notifier_USE_SLACK P); [|reflexivity]. cbn [negb].
  destruct (truthy (getenv P "SLACK_BOT_TOKEN")); [|reflexivity]. cbn [negb].
  destruct (truthy (getenv P "SLACK_CHANNEL_ID")); [|reflexivity]. cbn [negb].
  unfold try_except, bind, read_file, lift, ret.
  destruct (files w !! path) as [[df|data]|]; try reflexivity.
  destruct (filter _ data) as [|item items]; [reflexivity|].
  unfold upload. destruct (files_upload_v2 P path); [reflexivity|].
  unfold post. match goal with |- context [chat_postMessage P ?b] =>
    destruct (chat_postMessage P b) end; reflexivity.
Qed.

(** A report that [save_report] has written is on disk under both names,
    and the record set it was given is still in place. *)
Lemma save_report_returns P r timestamp d w w' :
  store w !! r = Some d → save_report P r timestamp w = (Ok tt, w') →
  store w' !! r = Some d ∧
  is_Some (files w' !! csv_path timestamp) ∧
  is_Some (files w' !! json_path timestamp).
Proof.
  intros Hr Hrun. split.
  - pose proof (lookup_lt_Some _ _ _ Hr) as Hlt.
    destruct (keeps_save_report P (S r) r timestamp w Hlt) as [Htake Hlen].
    rewrite Hrun in Htake, Hlen. simpl in Htake, Hlen.
    rewrite <- (lookup_take_lt _ (S r)) by lia. rewrite Htake.
    rewrite lookup_take_lt by lia. exact Hr.
  - unfold save_report in Hrun. unfold bind at 1 in Hrun.
    destruct (enrich_with_analysis P r w) as [[r1|e] w1]; [|discriminate].
    unfold bind at 1 in Hrun. destruct (deref r1 w1) as [[d1|e] w2]; [|discriminate].
    unfold bind at 1 in Hrun. unfold write_file at 1 in Hrun.
    unfold bind at 1 in Hrun. unfold lift at 1 in Hrun.
    destruct (to_json_records d1) as [data|e]; [|discriminate].
    unfold write_file in Hrun. injection Hrun as <-. simpl. split.
    + rewrite lookup_insert_ne, lookup_insert_eq; [eauto|].
      unfold json_path, csv_path. intros H.
      apply (f_equal String.length) in H. rewrite !string_length_app in H.
      simpl in H. lia.
    + rewrite lookup_insert_eq. eauto.
Qed.

Lemma apply_classify_range m col :
  apply_classify m = Ok col →
  Forall (λ v, v ∈ [VStr "missing_in_gateway"; VStr "missing_in_internal";
                    VStr "amount_mismatch"; VStr "status_mismatch";
                    VStr "currency_mismatch"; VStr "matched"]) col ∧
  length col = length (rows m).
Proof.
  unfold apply_classify. destruct (rows m) as [|r rs] eqn:Hrows.
  - destruct (classify _); [|discriminate]. intros [= <-]. split; [constructor|reflexivity].
  - intros H. apply mapM_ok_Forall2 in H. split.
    + eapply Forall2_Forall_r; [exact H|]. apply Forall_forall.
      intros x _ v Hv. simpl in Hv.
      destruct (classify (series_of m x)) as [c|e] eqn:Hc; [|discriminate].
      injection Hv as <-. apply classify_range in Hc.
      repeat (apply elem_of_cons in Hc as [->|Hc]; [set_solver|]). inversion Hc.
    + symmetry. eapply Forall2_length, H.
Qed.

(** ** The shape of the joined frame *)

Lemma side_ok_length i n side k l :
  side_ok i n side → l ∈ labelled k side → length l = n.
Proof.
  intros Hside Hl. apply labelled_elem in Hl.
  unfold side_ok in Hside. rewrite Forall_forall in Hside.
  apply (Hside _ Hl).
Qed.

Lemma join_key_lengths iL iR nL nR SL SR k :
  side_ok iL nL SL → side_ok iR nR SR → iR < nR →
  Forall (λ row, length row = nL + (nR - 1) + 1) (join_key iL iR nL nR SL SR k).
Proof.
  intros HL HR Hi. unfold join_key.
  pose proof (λ l, side_ok_length iL nL SL k l HL) as HlenL.
  pose proof (λ r, side_ok_length iR nR SR k r HR) as HlenR.
  destruct (labelled k SL) as [|l ls]; [|destruct (labelled k SR) as [|r rs]].
  - apply Forall_fmap, Forall_forall. intros r Hr. simpl.
    rewrite !length_app, length_insert, length_replicate, length_delete; simpl.
    + rewrite (HlenR r Hr). lia.
    + apply lookup_lt_is_Some_2. rewrite (HlenR r Hr). exact Hi.
  - apply Forall_fmap, Forall_forall. intros l' Hl'. simpl.
    rewrite !length_app, length_replicate. simpl. rewrite (HlenL l' Hl'). lia.
  - apply Forall_bind, Forall_forall. intros l' Hl'. unfold compose.
    apply Forall_fmap, Forall_forall. intros r' Hr'. simpl.
    rewrite !length_app, length_delete; simpl.
    + rewrite (HlenL l' Hl'), (HlenR r' Hr'). lia.
    + apply lookup_lt_is_Some_2. rewrite (HlenR r' Hr'). exact Hi.
Qed.

(** The join of two rectangular frames is rectangular, and its last
    column is the provenance. *)
Lemma merge_frame_ok L R m :
  frame_ok L → frame_ok R → merge L R = Ok m →
  frame_ok m ∧ "_merge" ∈ columns m.
Proof.
  intros HokL HokR. unfold merge.
  destruct (key_position L) as [iL|e] eqn:HposL; [|discriminate]. cbn [bind_result].
  destruct (key_position R) as [iR|e] eqn:HposR; [|discriminate]. cbn [bind_result].
  destruct (keyed iL L) as [kL|e] eqn:HkL; [|discriminate]. cbn [bind_result].
  destruct (keyed iR R) as [kR|e] eqn:HkR; [|discriminate]. cbn [bind_result].
  destruct (_ || _); [discriminate|].
  destruct (bool_decide ("_merge" ∈ _)); [discriminate|].
  destruct (_ || _); [discriminate|].
  intros [= <-]. split; [|simpl; set_solver].
  destruct (key_position_spec _ _ HposL) as (_ & _ & HiL).
  destruct (key_position_spec _ _ HposR) as (_ & _ & HiR).
  destruct (upcast_ints_side _ _ _ HokL HkL HiL) as [HsL HsL'].
  destruct (upcast_ints_side _ _ _ HokR HkR HiR) as [HsR HsR'].
  unfold frame_ok. cbn [columns rows].
  rewrite !length_app, !length_fmap, length_delete
    by (apply lookup_lt_is_Some_2, HiR). simpl.
  apply Forall_bind, Forall_forall. intros k _. unfold compose.
  eapply Forall_impl;
    [apply (join_key_lengths iL iR (length (columns L)) (length (columns R)));
     [| |exact HiR]|].
  - destruct (bool_decide (Exists _ kR.*1)); assumption.
  - destruct (bool_decide (Exists _ kL.*1)); assumption.
  - intros row Hrow. simpl in *. lia.
Qed.

Lemma zip_with_map_labelled_cells (P : value → Prop) k cols :
  ∀ (rs : list (list value)) col,
  Forall P col →
  Forall P (zip_with (λ r v, map_labelled k (λ _, v) cols r) rs col
            ≫= (λ r, labelled k (zip cols r))).
Proof.
  induction rs as [|r rs IH]; intros [|v col] Hcol; try constructor.
  apply Forall_cons in Hcol as [Hv Hcol]. cbn [zip_with].
  rewrite bind_cons. apply Forall_app. split; [|apply IH, Hcol].
  assert (HF : Forall2 (λ _ y, y = v) (labelled k (zip cols r))
                 (labelled k (zip cols (map_labelled k (λ _, v) cols r)))).
  { apply Forall2_labelled.
    eapply Forall2_impl; [apply (zip_map_labelled k (λ _, v))|].
    intros p q [Hl Hq]. split; [exact Hl|]. intros Hk.
    rewrite bool_decide_eq_true_2 in Hq by exact Hk. exact Hq. }
  eapply Forall2_Forall_r; [exact HF|]. apply Forall_forall. intros x _ y ->. exact Hv.
Qed.

(** [df[k] = col] puts the values of [col] into the column [k]: every cell
    of the column is one of them. *)
Lemma set_column_cells (P : value → Prop) k col d :
  frame_ok d → Forall P col →
  Forall P (cells k (set_column k col d)) ∧
  k ∈ columns (set_column k col d) ∧
  (∀ c, c ∈ columns (set_column k col d) → c = k ∨ c ∈ columns d) ∧
  frame_ok (set_column k col d).
Proof.
  intros Hok Hcol. unfold set_column. destruct (in_columns k d) eqn:Hin.
  - apply bool_decide_eq_true in Hin. split; [|split; [|split]].
    + unfold cells, series_of. simpl. apply zip_with_map_labelled_cells, Hcol.
    + exact Hin.
    + auto.
    + unfold frame_ok in *. simpl. apply Forall_forall. intros r Hr.
      apply elem_of_lookup_zip_with in Hr as (j & r0 & v & -> & Hr0 & _).
      unfold map_labelled. rewrite length_zip_with.
      rewrite Forall_forall in Hok.
      rewrite (Hok r0) by (eapply list_elem_of_lookup_2, Hr0). lia.
  - apply bool_decide_eq_false in Hin. split; [|split; [|split]].
    + unfold cells, series_of. simpl.
      unfold frame_ok in Hok. revert col Hcol.
      induction Hok as [|r rs Hr Hrs IH]; intros [|v col] Hcol; try constructor.
      apply Forall_cons in Hcol as [Hv Hcol]. cbn [zip_with]. rewrite bind_cons.
      apply Forall_app. split; [|apply IH, Hcol].
      rewrite zip_with_app by (symmetry; exact Hr).
      rewrite labelled_app, labelled_zip_absent by exact Hin. simpl.
      rewrite labelled_cons. simpl. rewrite decide_True by reflexivity.
      repeat constructor. exact Hv.
    + simpl. set_solver.
    + simpl. intros c Hc. apply elem_of_app in Hc as [Hc|Hc]; [auto|].
      apply list_elem_of_singleton in Hc. auto.
    + unfold frame_ok in *. simpl. apply Forall_forall. intros r Hr.
      apply elem_of_lookup_zip_with in Hr as (j & r0 & v & -> & Hr0 & _).
      rewrite !length_app. simpl. rewrite Forall_forall in Hok.
      rewrite (Hok r0) by (eapply list_elem_of_lookup_2, Hr0). lia.
Qed.

Lemma filter_labels_fst (Q : string → Prop) `{∀ c, Decision (Q c)}
    (l : list (string * value)) :
  (filter (λ p, Q p.1) l).*1 = filter Q l.*1.
Proof.
  induction l as [|p l IH]; [reflexivity|].
  rewrite fmap_cons, !filter_cons.
  destruct (decide (Q p.1)); rewrite ?fmap_cons, IH; reflexivity.
Qed.

Lemma labelled_filter_ne k k' (l : Series) :
  k ≠ k' → labelled k (filter (λ p, p.1 ≠ k') l) = labelled k l.
Proof.
  intros Hne. induction l as [|p l IH]; [reflexivity|].
  rewrite filter_cons. destruct (decide (p.1 ≠ k')) as [Hp|Hp].
  - rewrite !labelled_cons, IH. reflexivity.
  - rewrite IH, labelled_cons. rewrite decide_False; [reflexivity|].
    intros Hk. apply Hp. congruence.
Qed.

(** Dropping a column leaves the cells of the others alone. *)
Lemma drop_column_cells k' d d' :
  frame_ok d → drop_column k' d = Ok d' →
  frame_ok d' ∧ k' ∉ columns d' ∧
  length (rows d') = length (rows d) ∧
  (∀ k, k ≠ k' → (k ∈ columns d' ↔ k ∈ columns d) ∧ cells k d' = cells k d).
Proof.
  intros Hok. unfold drop_column. destruct (in_columns k' d); [|discriminate].
  intros [= <-]. 
  assert (Hrow : ∀ r, r ∈ rows d →
            zip (filter (λ c, c ≠ k') (columns d))
                (filter (λ p : string * value, p.1 ≠ k') (series_of d r)).*2
            = filter (λ p : string * value, p.1 ≠ k') (series_of d r)).
  { intros r Hr. unfold frame_ok in Hok. rewrite Forall_forall in Hok.
    rewrite <- (series_of_labels d r (Hok r Hr)) at 1.
    rewrite <- (filter_labels_fst (λ c, c ≠ k')). apply zip_fst_snd. }
  split; [|split; [|split]].
  - unfold frame_ok. simpl. apply Forall_fmap, Forall_forall. intros r Hr. simpl.
    rewrite <- (Hrow r Hr) at 1. 
    unfold frame_ok in Hok. rewrite Forall_forall in Hok.
    rewrite length_fmap.
    rewrite <- (series_of_labels d r (Hok r Hr)) at 2.
    rewrite <- (filter_labels_fst (λ c, c ≠ k')), length_fmap. 
    rewrite Hrow by exact Hr. reflexivity.
  - simpl. intros Hin. apply list_elem_of_filter in Hin as [Hne _]. congruence.
  - simpl. apply length_fmap.
  - intros k Hne. split.
    + simpl. rewrite list_elem_of_filter. tauto.
    + unfold cells, series_of. simpl.
      generalize Hrow. unfold series_of. generalize (rows d).
      induction l as [|r rs IH]; intros Hrows; [reflexivity|].
      rewrite fmap_cons, !bind_cons, IH by (intros r' Hr'; apply Hrows; right; exact Hr').
      rewrite Hrows by left. rewrite labelled_filter_ne by exact Hne. reflexivity.
Qed.

(** [normalize] on a rectangular record set, as far as the store goes. *)
Lemma normalize_frame_ok P r name d w r' w' :
  store w !! r = Some d → frame_ok d →
  normalize P r name w = (Ok r', w') →
  ∃ d', r' = length (store w) ∧ w' = set_store (store w ++ [d']) w ∧ frame_ok d'.
Proof.
  intros Hr Hok. rewrite (normalize_run P r name d w Hr). cbv zeta.
  set (d1 := rename_with (str_lower P) d).
  set (d2 := if in_columns "reference" d1
             then rename_label "reference" "tx_id" d1 else d1).
  set (d3 := if in_columns "id" d2 then rename_label "id" "tx_id" d2 else d2).
  assert (Hok3 : frame_ok d3).
  { unfold d3, d2, d1.
    destruct (in_columns "reference" _); destruct (in_columns "id" _);
      unfold rename_label; repeat apply rename_with_frame_ok; exact Hok. }
  pose proof (set_scalar_frame_ok "source" (VStr name) d3 Hok3) as Hok4.
  destruct (convert_column "tx_id" (astype_str P) _) as [d5|e] eqn:H5; [|discriminate].
  destruct (convert_column_frame_ok _ _ _ _ Hok4 H5) as [Hok5 _].
  destruct (if in_columns "amount" d5 then _ else _) as [d6|e] eqn:H6; [|discriminate].
  assert (Hok6 : frame_ok d6).
  { destruct (in_columns "amount" d5);
      [eapply convert_column_frame_ok; eassumption|injection H6 as <-; exact Hok5]. }
  destruct (if in_columns "status" d6 then _ else _) as [d7|e] eqn:H7; [|discriminate].
  assert (Hok7 : frame_ok d7).
  { destruct (in_columns "status" d6); [|injection H7 as <-; exact Hok6].
    destruct (str_lower_column_cells _ _ _ _ H7) as (_ & Hf & _). apply Hf, Hok6. }
  intros [= <- <-]. eauto.
Qed.

Lemma alert_branch_keeps (c : bool) (lines : result (list string))
    (k : list string → M unit) w :
  (∀ ls w0, store (k ls w0).2 = store w0 ∧ files (k ls w0).2 = files w0) →
  store ((if c then bind (lift lines) k else ret tt) w).2 = store w ∧
  files ((if c then bind (lift lines) k else ret tt) w).2 = files w.
Proof.
  intros Hk. destruct c; simpl; [|split; reflexivity].
  unfold bind, lift. destruct lines as [ls|e]; simpl; [apply Hk|split; reflexivity].
Qed.

Lemma normalize_returns_fresh P r name w r' w' :
  normalize P r name w = (Ok r', w') →
  ∃ d d', store w !! r = Some d ∧ r' = length (store w) ∧
          w' = set_store (store w ++ [d']) w.
Proof.
  intros Hrun. destruct (store w !! r) as [d|] eqn:Hr.
  - destruct (normalize_returns P r name d w r' w' Hr Hrun) as (d' & -> & ->). eauto.
  - unfold normalize in Hrun. unfold bind at 1 in Hrun. unfold deref at 1 in Hrun.
    rewrite Hr in Hrun. discriminate.
Qed.

(** A run of [reconcile] that returns, step by step: the two copies, their
    join, the classification column, and the record set that is returned
    after the report was written. *)
Lemma reconcile_returns P a b w res w' :
  reconcile P a b w = (Ok res, w') →
  ∃ L R m col d,
    normalize P a "internal" w
    = (Ok (length (store w)), set_store (store w ++ [L]) w) ∧
    normalize P b "gateway" (set_store (store w ++ [L]) w)
    = (Ok (length (store w ++ [L])), set_store ((store w ++ [L]) ++ [R]) w) ∧
    merge L R = Ok m ∧ apply_classify m = Ok col ∧
    drop_column "_merge" (set_column "discrepancy_type" col m) = Ok d ∧
    store w' !! res = Some d ∧
    is_Some (files w' !! csv_path (now P)) ∧
    is_Some (files w' !! json_path (now P)).
Proof.
  intros Hrun. unfold reconcile in Hrun.
  unfold bind at 1 in Hrun.
  destruct (normalize P a "internal" w) as [[r1|e] w1] eqn:H1; [|discriminate].
  destruct (normalize_returns_fresh _ _ _ _ _ _ H1) as (da & L & Ha & -> & ->).
  unfold bind at 1 in Hrun.
  destruct (normalize P b "gateway" (set_store (store w ++ [L]) w))
    as [[r2|e] w2] eqn:H2; [|discriminate].
  destruct (normalize_returns_fresh _ _ _ _ _ _ H2) as (db & R & Hb & -> & ->).
  simpl store in *.
  unfold bind at 1 in Hrun. unfold deref at 1 in Hrun. simpl store in Hrun.
  rewrite lookup_app_l in Hrun by (rewrite length_app; simpl; lia).
  rewrite list_lookup_middle in Hrun by reflexivity.
  unfold bind at 1 in Hrun. unfold deref at 1 in Hrun. simpl store in Hrun.
  rewrite list_lookup_middle in Hrun by reflexivity.
  unfold bind at 1 in Hrun. unfold lift at 1 in Hrun.
  destruct (merge L R) as [m|e] eqn:Hm; [|discriminate].
  set (w2 := set_store ((store w ++ [L]) ++ [R])
               (set_store (store w ++ [L]) w)) in *.
  unfold bind at 1 in Hrun. rewrite new_frame_fresh in Hrun.
  unfold bind at 1 in Hrun. rewrite modify_fresh in Hrun.
  destruct (apply_classify m) as [col|e] eqn:Hcol; [|discriminate].
  cbn [bind_result] in Hrun.
  set (m' := set_column "discrepancy_type" col m) in *.
  unfold bind at 1 in Hrun. rewrite deref_fresh in Hrun.
  unfold bind at 1 in Hrun. unfold lift at 1 in Hrun.
  destruct (drop_column "_merge" m') as [d|e] eqn:Hdrop; [|discriminate].
  set (w3 := set_store (store w2 ++ [m']) w2) in *.
  unfold bind at 1 in Hrun. rewrite new_frame_fresh in Hrun.
  set (w4 := set_store (store w3 ++ [d]) w3) in *.
  assert (Hd4 : store w4 !! length (store w3) = Some d)
    by (simpl; apply list_lookup_middle; reflexivity).
  unfold bind at 1 in Hrun.
  destruct (save_report P (length (store w3)) (now P) w4) as [[[]|e] w5] eqn:Hsave;
    [|discriminate].
  destruct (save_report_returns _ _ _ _ _ _ Hd4 Hsave) as (Hd5 & Hcsv & Hjson).
  unfold bind at 1 in Hrun. unfold deref at 1 in Hrun. rewrite Hd5 in Hrun.
  unfold bind at 1 in Hrun. unfold lift at 1 in Hrun.
  destruct (select_ne "discrepancy_type" (VStr "matched") d) as [disc|e]; [|discriminate].
  unfold bind at 1 in Hrun. unfold new_frame at 1 in Hrun.
  set (w6 := {| store := store w5 ++ [disc]; prompts := prompts w5;
                uploads := uploads w5; posts := posts w5; files := files w5 |}) in *.
  unfold bind at 1 in Hrun.
  match type of Hrun with
  | context [(if ?c then bind (lift ?l) ?k else ret tt) w6] =>
      assert (Hkeep6 : store ((if c then bind (lift l) k else ret tt) w6).2 = store w6 ∧
                       files ((if c then bind (lift l) k else ret tt) w6).2 = files w6)
        by (apply alert_branch_keeps; intros ls w0;
            split; [apply send_slack_alert_returns
                   |apply unchanged_files_send_slack_alert]);
      destruct ((if c then bind (lift l) k else ret tt) w6) as [[[]|e] w7];
      [|discriminate]
  end.
  unfold ret in Hrun. injection Hrun as <- <-.
  destruct Hkeep6 as [Hst Hfi]. simpl in Hst, Hfi.
  exists L, R, m, col, d. split; [reflexivity|].
  split; [exact H2|]. split; [exact Hm|]. split; [exact Hcol|].
  split; [exact Hdrop|].
  split; [rewrite Hst; apply lookup_app_l_Some, Hd5|].
  rewrite Hfi. split; assumption.
Qed.

(** X19.  What [reconcile] returns.  When a run on two rectangular record sets
    returns, the record set it returns is the join of the two normalized
    copies, record for record, with the provenance column dropped and the
    discrepancy_type column in place; every cell of that column is one of the
    six category names; and the two report files of the run are on disk. *)
Theorem reconcile_postcondition
    (P : platform) (a b : ref) (da db : DataFrame) (w : world) (res : ref) (w' : world) :
  store w !! a = Some da → store w !! b = Some db →
  frame_ok da → frame_ok db →
  reconcile P a b w = (Ok res, w') →
  ∃ L R m d,
    normalize P a "internal" w
    = (Ok (length (store w)), set_store (store w ++ [L]) w) ∧
    normalize P b "gateway" (set_store (store w ++ [L]) w)
    = (Ok (S (length (store w))), set_store ((store w ++ [L]) ++ [R]) w) ∧
    merge L R = Ok m ∧
    store w' !! res = Some d ∧ frame_ok d ∧
    length (rows d) = length (rows m) ∧
    "discrepancy_type" ∈ columns d ∧ "_merge" ∉ columns d ∧
    Forall (λ v, v ∈ category_values) (cells "discrepancy_type" d) ∧
    is_Some (files w' !! csv_path (now P)) ∧
    is_Some (files w' !! json_path (now P)).
Proof.
  intros Ha Hb HokA HokB Hrun.
  destruct (reconcile_returns _ _ _ _ _ _ Hrun)
    as (L & R & m & col & d & H1 & H2 & Hm & Hcol & Hdrop & Hd & Hcsv & Hjson).
  destruct (normalize_frame_ok _ _ _ _ _ _ _ Ha HokA H1) as (L' & _ & HL & HokL).
  apply (f_equal store) in HL. simpl in HL. apply app_inj_tail in HL as [_ <-].
  assert (Hb1 : store (set_store (store w ++ [L]) w) !! b = Some db)
    by (simpl; apply lookup_app_l_Some, Hb).
  destruct (normalize_frame_ok _ _ _ _ _ _ _ Hb1 HokB H2) as (R' & _ & HR & HokR).
  apply (f_equal store) in HR. simpl in HR. apply app_inj_tail in HR as [_ <-].
  destruct (merge_frame_ok L R m HokL HokR Hm) as [Hokm Htag].
  destruct (apply_classify_range m col Hcol) as [Hrange Hlencol].
  fold category_values in Hrange.
  destruct (set_column_cells (λ v, v ∈ category_values) "discrepancy_type" col m
              Hokm Hrange) as (Hcells & Hin & Hcols & Hoks).
  destruct (drop_column_cells "_merge" _ d Hoks Hdrop)
    as (Hokd & Hnotag & Hlend & Hkeep).
  destruct (Hkeep "discrepancy_type" ltac:(discriminate)) as [Hind Hcd].
  exists L, R, m, d. split; [exact H1|].
  split; [rewrite H2; f_equal; f_equal; rewrite length_app; simpl; lia|].
  split; [exact Hm|]. split; [exact Hd|]. split; [exact Hokd|].
  split.
  { rewrite Hlend. unfold set_column.
    destruct (in_columns "discrepancy_type" m); simpl;
      rewrite length_zip_with; lia. }
  split; [apply Hind, Hin|]. split; [exact Hnotag|].
  split; [rewrite Hcd; exact Hcells|].
  split; assumption.
Qed.

(** X19 at one record on either side. *)
Lemma reconcile_postcondition_witness :
  ∃ L R m d,
    normalize slack_platform 0 "internal" (initial_world [usd_record; gateway_csv])
    = (Ok (length (store (initial_world [usd_record; gateway_csv]))),
       set_store (store (initial_world [usd_record; gateway_csv]) ++ [L])
         (initial_world [usd_record; gateway_csv])) ∧
    normalize slack_platform 1 "gateway"
      (set_store (store (initial_world [usd_record; gateway_csv]) ++ [L])
         (initial_world [usd_record; gateway_csv]))
    = (Ok (S (length (store (initial_world [usd_record; gateway_csv])))),
       set_store ((store (initial_world [usd_record; gateway_csv]) ++ [L]) ++ [R])
         (initial_world [usd_record; gateway_csv])) ∧
    merge L R = Ok m ∧
    store (reconcile slack_platform 0 1
             (initial_world [usd_record; gateway_csv])).2 !! 5 = Some d ∧
    frame_ok d ∧
    length (rows d) = length (rows m) ∧
    "discrepancy_type" ∈ columns d ∧ "_merge" ∉ columns d ∧
    Forall (λ v, v ∈ category_values) (cells "discrepancy_type" d) ∧
    is_Some (files (reconcile slack_platform 0 1
                      (initial_world [usd_record; gateway_csv])).2
             !! csv_path (now slack_platform)) ∧
    is_Some (files (reconcile slack_platform 0 1
                      (initial_world [usd_record; gateway_csv])).2
             !! json_path (now slack_platform)).
Proof.
  apply (reconcile_postcondition slack_platform 0 1 usd_record gateway_csv
           (initial_world [usd_record; gateway_csv])).
  - reflexivity.
  - reflexivity.
  - unfold frame_ok. by_computation.
  - unfold frame_ok. by_computation.
  - vm_compute. reflexivity.
Defined.

Lemma reconcile_result_has_category P a b w res w' :
  reconcile P a b w = (Ok res, w') →
  ∃ d, store w' !! res = Some d ∧ in_columns "discrepancy_type" d = true.
Proof.
  intros Hrun.
  destruct (reconcile_returns _ _ _ _ _ _ Hrun)
    as (L & R & m & col & d & _ & _ & _ & _ & Hdrop & Hd & _ & _).
  exists d. split; [exact Hd|].
  unfold drop_column in Hdrop. destruct (in_columns "_merge" _); [|discriminate].
  injection Hdrop as <-. unfold in_columns. simpl.
  apply bool_decide_eq_true, list_elem_of_filter. split; [discriminate|].
  unfold set_column. destruct (in_columns "discrepancy_type" m) eqn:E; simpl.
  - apply bool_decide_eq_true in E. exact E.
  - set_solver.
Qed.

(** X20.  [main] never raises and reports what the run did.  When a loader or
    [reconcile] raises, the run ends with that exception as its one-line
    error; when [reconcile] returns, [main] reports the number of records of
    the returned record set and, as mismatches, that number less the records
    classified matched.  The lookup of discrepancy_type in the result cannot
    fail. *)
Theorem main_reports_the_run (P : platform) (w : world) :
  match run_once P w with
  | (Raise e, w') => main P w = (Ok (Failed e), w')
  | (Ok res, w') =>
      ∃ d, store w' !! res = Some d ∧
           main P w
           = (Ok (Summary (length (rows d))
                    (length (rows d)
                     - length (filter (λ v, v = VStr "matched")
                                      (cells "discrepancy_type" d)))), w')
  end.
Proof.
  unfold run_once, main, try_except, bind.
  destruct (load_internal_data P w) as [[ri|e] w1]; [|reflexivity].
  destruct (load_gateway_data P w1) as [[rg|e] w2]; [|reflexivity].
  destruct (reconcile P ri rg w2) as [[res|e] w3] eqn:Hrun; [|reflexivity].
  destruct (reconcile_result_has_category _ _ _ _ _ _ Hrun) as (d & Hd & Hin).
  exists d. split; [exact Hd|].
  unfold deref. rewrite Hd, Hin. reflexivity.
Qed.

(** ** What the casts make of the delivered cells *)

Lemma cells_rename_label k old new d :
  k ≠ old → k ≠ new → cells k (rename_label old new d) = cells k d.
Proof.
  intros Ho Hn. unfold cells, rename_label, rename_with, series_of. simpl.
  apply list_bind_ext; [|reflexivity]. intros r.
  apply labelled_zip_rename. intros c _.
  destruct (bool_decide (c = old)) eqn:E.
  - apply bool_decide_eq_true in E. subst c. split; intros H; congruence.
  - reflexivity.
Qed.

Lemma str_lower_column_lowers P k d d' :
  str_lower_column P k d = Ok d' →
  Forall2 (λ v v', v' = lower_cell P v) (cells k d) (cells k d').
Proof.
  unfold str_lower_column. destruct (count_label k d) as [|[|n]]; try discriminate.
  destruct (cells k d) as [|v vs] eqn:Hcells.
  - intros [= <-]. rewrite Hcells. constructor.
  - destruct (forallb is_numeric (v :: vs)); [discriminate|].
    intros H. destruct (convert_column_cells _ _ _ _ H) as (_ & _ & Hk & _).
    rewrite Hcells in Hk. eapply Forall2_impl; [exact Hk|].
    intros x y [= <-]. destruct x; reflexivity.
Qed.

(** X21.  What [normalize] makes of the delivered cells.  When [normalize]
    returns, the new frame holds, row by row, the float cast of every cell
    of the delivered amount column and the lower-cased text of every cell of
    the delivered status column (a cell that is no text becomes NaN, a None
    stays None); when the delivery has neither a reference nor an id
    column, every key is the text of the delivered key; and every column
    other than the key, the source, the amount and the status holds the
    delivered cells unchanged.  Column names are compared in lower case. *)
Theorem normalize_casts_cells
    (P : platform) (r : ref) (name : string) (d : DataFrame) (w : world)
    (r' : ref) (w' : world) :
  store w !! r = Some d → frame_ok d →
  normalize P r name w = (Ok r', w') →
  ∃ d',
    store w' !! r' = Some d' ∧
    Forall2 (λ v v', astype_float P v = Ok v')
            (cells "amount" (rename_with (str_lower P) d)) (cells "amount" d') ∧
    Forall2 (λ v v', v' = lower_cell P v)
            (cells "status" (rename_with (str_lower P) d)) (cells "status" d') ∧
    ("reference" ∉ str_lower P <$> columns d → "id" ∉ str_lower P <$> columns d →
     Forall2 (λ v v', v' = VStr (py_str P (Scalar v)))
             (cells "tx_id" (rename_with (str_lower P) d)) (cells "tx_id" d')) ∧
    (∀ k, k ∉ ["tx_id"; "reference"; "id"; "source"; "amount"; "status"] →
          cells k d' = cells k (rename_with (str_lower P) d)).
Proof.
  intros Hr Hok. rewrite (normalize_run P r name d w Hr). cbv zeta.
  set (d1 := rename_with (str_lower P) d).
  set (d2 := if in_columns "reference" d1
             then rename_label "reference" "tx_id" d1 else d1).
  set (d3 := if in_columns "id" d2 then rename_label "id" "tx_id" d2 else d2).
  set (d4 := set_scalar "source" (VStr name) d3).
  assert (Hok3 : frame_ok d3).
  { unfold d3, d2, d1.
    destruct (in_columns "reference" _); destruct (in_columns "id" _);
      unfold rename_label; repeat apply rename_with_frame_ok; exact Hok. }
  assert (H31 : ∀ k, k ≠ "tx_id" → k ≠ "reference" → k ≠ "id" →
                     cells k d3 = cells k d1).
  { intros k H1 H2 H3. unfold d3, d2.
    destruct (in_columns "reference" d1); destruct (in_columns "id" _);
      rewrite ?cells_rename_label by congruence; reflexivity. }
  destruct (set_scalar_cells "source" (VStr name) d3 Hok3) as (_ & H43 & _).
  fold d4 in H43.
  destruct (convert_column "tx_id" (astype_str P) d4) as [d5|e] eqn:H5; [|discriminate].
  destruct (convert_column_cells _ _ _ _ H5) as (_ & _ & Hk5 & Ho5).
  destruct (if in_columns "amount" d5
            then convert_column "amount" (astype_float P) d5 else Ok d5)
    as [d6|e] eqn:H6; [|discriminate].
  assert (H6' : Forall2 (λ v v', astype_float P v = Ok v')
                        (cells "amount" d5) (cells "amount" d6) ∧
                (∀ k, k ≠ "amount" → cells k d6 = cells k d5)).
  { destruct (in_columns "amount" d5) eqn:Ea.
    - destruct (convert_column_cells _ _ _ _ H6) as (_ & _ & Hk6 & Ho6). auto.
    - injection H6 as <-. split; [|reflexivity].
      rewrite cells_absent by exact Ea. constructor. }
  destruct H6' as [Hamt6 Ho6].
  destruct (if in_columns "status" d6 then str_lower_column P "status" d6 else Ok d6)
    as [d7|e] eqn:H7; [|discriminate].
  assert (H7' : Forall2 (λ v v', v' = lower_cell P v)
                        (cells "status" d6) (cells "status" d7) ∧
                (∀ k, k ≠ "status" → cells k d7 = cells k d6)).
  { destruct (in_columns "status" d6) eqn:Es.
    - split; [eapply str_lower_column_lowers, H7|].
      apply (str_lower_column_cells _ _ _ _ H7).
    - injection H7 as <-. split; [|reflexivity].
      rewrite cells_absent by exact Es. constructor. }
  destruct H7' as [Hst7 Ho7].
  intros [= <- <-]. exists d7.
  split; [simpl; apply list_lookup_middle; reflexivity|].
  split; [|split; [|split]].
  - rewrite Ho7 by discriminate.
    rewrite <- H31, <- H43, <- Ho5 by discriminate. exact Hamt6.
  - rewrite <- H31, <- H43, <- Ho5, <- Ho6 by discriminate. exact Hst7.
  - intros Href Hid. rewrite Ho7, Ho6 by discriminate.
    assert (Hd3 : d3 = d1).
    { assert (E1 : in_columns "reference" d1 = false)
        by (apply bool_decide_eq_false; exact Href).
      assert (E2 : in_columns "id" d1 = false)
        by (apply bool_decide_eq_false; exact Hid).
      unfold d3, d2. rewrite E1, E2. reflexivity. }
    rewrite <- Hd3, <- H43 by discriminate.
    eapply Forall2_impl; [exact Hk5|]. intros v v' [= <-]. reflexivity.
  - intros k Hk. rewrite !not_elem_of_cons in Hk.
    destruct Hk as (H1 & H2 & H3 & H4 & H5' & H6'' & _).
    rewrite Ho7, Ho6, Ho5, H43, H31 by assumption. reflexivity.
Qed.

(** X21 at a delivery of one record with upper-case column names. *)
Lemma normalize_casts_cells_witness :
  ∃ d',
    store (normalize ai_platform 0 "internal"
             (initial_world [raw_internal; gateway_csv])).2 !! 2 = Some d' ∧
    Forall2 (λ v v', astype_float ai_platform v = Ok v')
            (cells "amount" (rename_with (str_lower ai_platform) raw_internal)) (cells "amount" d') ∧
    Forall2 (λ v v', v' = lower_cell ai_platform v)
            (cells "status" (rename_with (str_lower ai_platform) raw_internal)) (cells "status" d') ∧
    ("reference" ∉ str_lower ai_platform <$> columns raw_internal →
     "id" ∉ str_lower ai_platform <$> columns raw_internal →
     Forall2 (λ v v', v' = VStr (py_str ai_platform (Scalar v)))
             (cells "tx_id" (rename_with (str_lower ai_platform) raw_internal)) (cells "tx_id" d')) ∧
    (∀ k, k ∉ ["tx_id"; "reference"; "id"; "source"; "amount"; "status"] →
          cells k d' = cells k (rename_with (str_lower ai_platform) raw_internal)).
Proof.
  apply (normalize_casts_cells ai_platform 0 "internal" raw_internal
           (initial_world [raw_internal; gateway_csv])).
  - reflexivity.
  - unfold frame_ok. by_computation.
  - vm_compute. reflexivity.
Defined.

(** ** Both-sided keys in the join *)

(** ** The fields of a joined record *)

Lemma string_app_inj_tail (x y s t : string) :
  String.length s = String.length t → x +:+ s = y +:+ t → x = y ∧ s = t.
Proof.
  intros Hlen. revert y. induction x as [|a x IH]; intros [|b y] H.
  - auto.
  - apply (f_equal String.length) in H. rewrite !string_length_app in H.
    simpl in H. lia.
  - apply (f_equal String.length) in H. rewrite !string_length_app in H.
    simpl in H. lia.
  - change (String a (x +:+ s) = String b (y +:+ t)) in H.
    injection H as -> H. destruct (IH _ H) as [-> ->]. auto.
Qed.

Lemma string_app_inv_tail (x y s : string) : x +:+ s = y +:+ s → x = y.
Proof. intros H. apply (string_app_inj_tail x y s s eq_refl H). Qed.

Lemma string_app_assoc (x y z : string) : (x +:+ y) +:+ z = x +:+ (y +:+ z).
Proof.
  induction x as [|a x IH]; [reflexivity|].
  change (String a ((x +:+ y) +:+ z) = String a (x +:+ (y +:+ z))). f_equal. exact IH.
Qed.

(** The two suffixes never produce the same label. *)
Lemma suffixes_differ (x y : string) : x +:+ "_internal" ≠ y +:+ "_gateway".
Proof.
  intros H. change "_internal" with ("_" +:+ "internal") in H.
  rewrite <- string_app_assoc in H.
  apply string_app_inj_tail in H as [_ H]; [discriminate H|reflexivity].
Qed.

Lemma suffix_not_merge (x s : string) : 6 < String.length s → x +:+ s ≠ "_merge".
Proof.
  intros Hs H. apply (f_equal String.length) in H.
  rewrite string_length_app in H. simpl in H. lia.
Qed.

(** Relabelling that sends exactly the label [k] to [k']. *)
Lemma labelled_zip_relabel {V} k k' (f : string → string) cols (r : list V) :
  (∀ c, c ∈ cols → f c = k' ↔ c = k) →
  labelled k' (zip (f <$> cols) r) = labelled k (zip cols r).
Proof.
  revert r. induction cols as [|c cols IH]; intros r Hf; [reflexivity|].
  destruct r as [|v r]; [reflexivity|].
  rewrite fmap_cons. simpl. rewrite !labelled_cons. simpl.
  rewrite IH by (intros c' Hc'; apply Hf; right; exact Hc').
  pose proof (Hf c ltac:(left)) as Hc.
  destruct (decide (f c = k')), (decide (c = k)); tauto.
Qed.

(** The field [c] of the left record appears in the joined record under
    [c_internal], when both sides have a column [c]. *)
Lemma merged_field_internal c (Lc Rc : list string) (l rpart : list value) tag :
  c ∈ Rc → (c +:+ "_internal") ∉ Lc → (c +:+ "_internal") ∉ Rc →
  length l = length Lc → length rpart = length Rc →
  labelled (c +:+ "_internal")
    (zip ((suffixed "_internal" Rc <$> Lc)
          ++ (suffixed "_gateway" Lc <$> Rc) ++ ["_merge"])
         (l ++ rpart ++ [tag]))
  = labelled c (zip Lc l).
Proof.
  intros HcR HnL HnR Hl Hr.
  rewrite zip_with_app by (rewrite length_fmap; lia).
  rewrite zip_with_app by (rewrite length_fmap; lia).
  rewrite !labelled_app.
  rewrite (labelled_zip_relabel c (c +:+ "_internal")).
  2:{ intros c' Hc'. unfold suffixed. destruct (bool_decide (c' ∈ Rc)) eqn:E.
      - split; [apply string_app_inv_tail|intros ->; reflexivity].
      - apply bool_decide_eq_false in E. split.
        + intros ->. contradiction.
        + intros ->. contradiction. }
  rewrite (labelled_zip_absent (c +:+ "_internal") (suffixed "_gateway" Lc <$> Rc)).
  2:{ intros Hin. apply list_elem_of_fmap in Hin as (c' & Hc' & Hin).
      unfold suffixed in Hc'. destruct (bool_decide (c' ∈ Lc)).
      - apply (suffixes_differ _ _ Hc').
      - subst c'. contradiction. }
  simpl. rewrite labelled_cons. simpl.
  rewrite decide_False by (apply not_eq_sym, suffix_not_merge; simpl; lia).
  apply app_nil_r.
Qed.

(** The field [c] of the right record appears under [c_gateway]. *)
Lemma merged_field_gateway c (Lc Rc : list string) (l rpart : list value) tag :
  c ∈ Lc → (c +:+ "_gateway") ∉ Lc → (c +:+ "_gateway") ∉ Rc →
  length l = length Lc → length rpart = length Rc →
  labelled (c +:+ "_gateway")
    (zip ((suffixed "_internal" Rc <$> Lc)
          ++ (suffixed "_gateway" Lc <$> Rc) ++ ["_merge"])
         (l ++ rpart ++ [tag]))
  = labelled c (zip Rc rpart).
Proof.
  intros HcL HnL HnR Hl Hr.
  rewrite zip_with_app by (rewrite length_fmap; lia).
  rewrite zip_with_app by (rewrite length_fmap; lia).
  rewrite !labelled_app.
  rewrite (labelled_zip_absent (c +:+ "_gateway") (suffixed "_internal" Rc <$> Lc)).
  2:{ intros Hin. apply list_elem_of_fmap in Hin as (c' & Hc' & Hin).
      unfold suffixed in Hc'. destruct (bool_decide (c' ∈ Rc)).
      - symmetry in Hc'. apply (suffixes_differ _ _ Hc').
      - subst c'. contradiction. }
  rewrite (labelled_zip_relabel c (c +:+ "_gateway")).
  2:{ intros c' Hc'. unfold suffixed. destruct (bool_decide (c' ∈ Lc)) eqn:E.
      - split; [apply string_app_inv_tail|intros ->; reflexivity].
      - apply bool_decide_eq_false in E. split.
        + intros ->. contradiction.
        + intros ->. contradiction. }
  simpl. rewrite labelled_cons. simpl.
  rewrite decide_False by (apply not_eq_sym, suffix_not_merge; simpl; lia).
  rewrite app_nil_r. reflexivity.
Qed.

(** Taking the key column out of a row does not touch its other fields. *)
Lemma labelled_delete_key c i (cols : list string) (r : list value) :
  cols !! i = Some "tx_id" → c ≠ "tx_id" → length r = length cols →
  labelled c (zip (delete i cols) (delete i r)) = labelled c (zip cols r).
Proof.
  revert cols r. induction i as [|i IH]; intros [|c0 cols] [|v r] Hi Hc Hlen;
    try discriminate.
  - simpl in Hi. injection Hi as ->.
    change (labelled c (zip cols r) = labelled c (("tx_id", v) :: zip cols r)).
    rewrite labelled_cons. cbn [fst snd].
    rewrite decide_False by congruence. reflexivity.
  - change (labelled c ((c0, v) :: zip (delete i cols) (delete i r))
            = labelled c ((c0, v) :: zip cols r)).
    rewrite !labelled_cons. cbn [fst snd].
    rewrite IH; [reflexivity|exact Hi|exact Hc|]. simpl in Hlen. lia.
Qed.

Lemma zip_zip_with_labels (h : string → value → value) cols : ∀ r,
  Forall2 (λ p q : string * value, q.1 = p.1 ∧ q.2 = h p.1 p.2)
          (zip cols r) (zip cols (zip_with h cols r)).
Proof.
  induction cols as [|c cols IH]; intros [|v r]; simpl; constructor; auto.
Qed.

(** Turning integer columns into float columns leaves the other columns
    alone. *)
Lemma labelled_upcast c df r :
  int_column c df = false →
  labelled c (zip (columns df)
                  (zip_with (λ c v, if int_column c df then upcast v else v)
                            (columns df) r))
  = labelled c (zip (columns df) r).
Proof.
  intros Hc. symmetry. apply list_eq_Forall2, Forall2_labelled.
  eapply Forall2_impl; [apply zip_zip_with_labels|].
  intros p q [Hl Hq]. split; [exact Hl|]. intros Hp. simpl in Hq.
  rewrite Hp, Hc in Hq. congruence.
Qed.

(** The joined rows with what the join made them from: the rows of either
    side, integer columns turned into float columns where the join has to
    fill in missing cells. *)
Lemma merge_rows_joined L R iL iR kL kR :
  frame_ok L → frame_ok R →
  key_position L = Ok iL → key_position R = Ok iR →
  keyed iL L = Ok kL → keyed iR R = Ok kR →
  NoDup kL.*1 → NoDup kR.*1 → mergeable L R →
  ∃ m L' R',
    merge L R = Ok m ∧
    columns m = (suffixed "_internal" (delete iR (columns R)) <$> columns L)
                ++ (suffixed "_gateway" (columns L) <$> delete iR (columns R))
                ++ ["_merge"] ∧
    L' = (if bool_decide (Exists (λ k, k ∉ kL.*1) kR.*1) then upcast_ints L else L) ∧
    R' = (if bool_decide (Exists (λ k, k ∉ kR.*1) kL.*1) then upcast_ints R else R) ∧
    Forall2 (λ k row,
               join_key iL iR (length (columns L)) (length (columns R))
                        (zip kL.*1 (rows L')) (zip kR.*1 (rows R')) k = [row] ∧
               has_key m k row ∧
               field (series_of m row) "_merge"
                     (VStr (provenance kL.*1 kR.*1 k)))
            (merge_sort String.le (remove_dups (kL.*1 ++ kR.*1)))
            (rows m).
Proof.
  intros HokL HokR HposL HposR HkL HkR HndL HndR (Hres1 & Hres2 & Hres3 & Hcl1 & Hcl2).
  unfold other_columns in Hcl1, Hcl2. rewrite HposR in Hcl1, Hcl2.
  destruct (key_position_spec _ _ HposL) as (_ & _ & HiL).
  destruct (key_position_spec _ _ HposR) as (_ & _ & HiR).
  destruct (upcast_ints_side _ _ _ HokL HkL HiL) as [HsL HsL'].
  destruct (upcast_ints_side _ _ _ HokR HkR HiR) as [HsR HsR'].
  destruct (keyed_spec _ _ _ HkL) as [HrowsL _].
  destruct (keyed_spec _ _ _ HkR) as [HrowsR _].
  unfold merge. rewrite HposL. cbn [bind_result]. rewrite HposR. cbn [bind_result].
  rewrite HkL. cbn [bind_result]. rewrite HkR. cbn [bind_result].
  rewrite (bool_decide_eq_false_2 _ Hres1), (bool_decide_eq_false_2 _ Hres2),
    (bool_decide_eq_false_2 _ Hres3), Hcl1, Hcl2. simpl orb. cbv iota.
  set (L' := if bool_decide (Exists (λ k, k ∉ kL.*1) kR.*1) then upcast_ints L else L).
  set (R' := if bool_decide (Exists (λ k, k ∉ kR.*1) kL.*1) then upcast_ints R else R).
  eexists _, L', R'. split; [reflexivity|]. split; [reflexivity|].
  split; [reflexivity|]. split; [reflexivity|].
  simpl rows.
  apply bind_singletons. intros k Hk.
  apply (elem_of_Permutation_proper _ _ _ (merge_sort_Permutation _ _)) in Hk.
  apply elem_of_remove_dups, elem_of_app in Hk.
  set (SL := zip kL.*1 (rows L')).
  set (SR := zip kR.*1 (rows R')).
  assert (HSL : side_ok iL (length (columns L)) SL)
    by (unfold SL, L'; destruct (bool_decide (Exists _ kR.*1)); assumption).
  assert (HSR : side_ok iR (length (columns R)) SR)
    by (unfold SR, R'; destruct (bool_decide (Exists _ kL.*1)); assumption).
  assert (HlenL : length kL.*1 = length (rows L))
    by (rewrite <- HrowsL, !length_fmap; reflexivity).
  assert (HlenR : length kR.*1 = length (rows R))
    by (rewrite <- HrowsR, !length_fmap; reflexivity).
  assert (HfstL : SL.*1 = kL.*1).
  { unfold SL, L'. apply fst_zip. rewrite HlenL.
    destruct (bool_decide (Exists _ kR.*1)); simpl; rewrite ?length_fmap; lia. }
  assert (HfstR : SR.*1 = kR.*1).
  { unfold SR, R'. apply fst_zip. rewrite HlenR.
    destruct (bool_decide (Exists _ kL.*1)); simpl; rewrite ?length_fmap; lia. }
  destruct (join_key_tagged iL iR (length (columns L)) (length (columns R)) SL SR k)
    as (lpart & rpart & Hjoin & Hl & Hr & Hkey);
    rewrite ?HfstL, ?HfstR; auto.
  rewrite HfstL, HfstR in Hjoin.
  eexists. split; [exact Hjoin|]. split; [exact Hjoin|].
  unfold has_key, field, series_of. simpl columns. split.
  - apply (merged_row_key L R iL iR); assumption.
  - apply merged_row_tag; try assumption.
    + intros Hin. apply Hres3, elem_of_app. left. exact Hin.
    + intros Hin. apply Hres3, elem_of_app. right.
      eapply list_elem_of_delete_inv, Hin.
    + rewrite Hr, length_delete by (apply lookup_lt_is_Some_2, HiR). lia.
Qed.

Lemma labelled_fmap_snd {A B} (f : A → B) k (l : list (string * A)) :
  labelled k ((λ p, (p.1, f p.2)) <$> l) = f <$> labelled k l.
Proof.
  induction l as [|p l IH]; [reflexivity|].
  rewrite fmap_cons, !labelled_cons. simpl. rewrite IH.
  destruct (decide (p.1 = k)); reflexivity.
Qed.

Lemma zip_fst_fmap_snd {A B} (f : A → B) (l : list (string * A)) :
  zip l.*1 (f <$> l.*2) = (λ p, (p.1, f p.2)) <$> l.
Proof. induction l as [|p l IH]; [reflexivity|]. simpl. f_equal. exact IH. Qed.

(** The record of a key within one side, as the join finds it. *)
Lemma keyed_record df i kr k l (f : list value → list value) :
  key_position df = Ok i → keyed i df = Ok kr → NoDup kr.*1 →
  l ∈ rows df → has_key df k l →
  k ∈ kr.*1 ∧ labelled k (zip kr.*1 (f <$> rows df)) = [f l].
Proof.
  intros Hpos Hk Hnd Hl Hkey.
  destruct (key_position_spec _ _ Hpos) as (Hone & Hfind & Hi).
  destruct (keyed_spec _ _ _ Hk) as [Hrows Hkeys].
  rewrite <- Hrows in Hl. apply list_elem_of_fmap in Hl as ([k0 l0] & -> & Hin).
  rewrite Forall_forall in Hkeys. pose proof (Hkeys _ Hin) as Hk0. simpl in Hk0.
  unfold has_key, field, series_of in Hkey. simpl in Hkey.
  rewrite (labelled_zip_key "tx_id" (columns df) l0 i "tx_id" _ Hone Hfind Hk0) in Hkey.
  injection Hkey as ->.
  split; [apply list_elem_of_fmap; exists (k, l0); auto|].
  rewrite <- Hrows, zip_fst_fmap_snd, labelled_fmap_snd. simpl.
  destruct (labelled_unique k kr Hnd) as [Hno|[l1 Hone1]].
  - exfalso. apply (labelled_present k kr); [|exact Hno].
    apply list_elem_of_fmap. exists (k, l0). auto.
  - rewrite Hone1. simpl. f_equal. f_equal.
    assert (Hl0 : l0 ∈ labelled k kr).
    { unfold labelled. apply list_elem_of_fmap. exists (k, l0).
      split; [reflexivity|]. apply list_elem_of_filter. auto. }
    rewrite Hone1 in Hl0. apply list_elem_of_singleton in Hl0. congruence.
Qed.

Lemma elem_of_delete_ne {A} (x y : A) i (l : list A) :
  x ∈ l → l !! i = Some y → x ≠ y → x ∈ delete i l.
Proof.
  intros Hx Hi Hne. rewrite <- (take_drop_middle _ _ _ Hi) in Hx.
  rewrite delete_take_drop. rewrite elem_of_app, elem_of_cons in Hx.
  rewrite elem_of_app. tauto.
Qed.

(** How the join turns the rows of one side into the rows it joins: as
    they are, or with the integer columns cast to float. *)
Lemma joined_side df df' :
  frame_ok df → df' = df ∨ df' = upcast_ints df →
  ∃ f : list value → list value,
    rows df' = f <$> rows df ∧
    ∀ l, l ∈ rows df →
      length (f l) = length (columns df) ∧
      ∀ c, int_column c df = false →
           labelled c (zip (columns df) (f l)) = labelled c (zip (columns df) l).
Proof.
  intros Hok [->| ->].
  - exists id. split; [symmetry; apply list_fmap_id|].
    intros l Hl. unfold frame_ok in Hok. rewrite Forall_forall in Hok.
    split; [apply Hok, Hl|reflexivity].
  - eexists. split; [reflexivity|].
    intros l Hl. unfold frame_ok in Hok. rewrite Forall_forall in Hok.
    split; [rewrite length_zip_with, (Hok l Hl); lia|].
    intros c Hc. apply labelled_upcast, Hc.
Qed.

(** The records of the join for the keys that both sides have: each is
    tagged as present on both sides and carries, under the suffixed names,
    the fields of the two records it was made from. *)
Lemma joined_records L R ksL ksR :
  frame_ok L → frame_ok R →
  keys_of L ksL → keys_of R ksR →
  NoDup ksL → NoDup ksR →
  mergeable L R →
  ∃ m, merge L R = Ok m ∧
    columns m = (suffixed "_internal" (other_columns R) <$> columns L)
                ++ (suffixed "_gateway" (columns L) <$> other_columns R)
                ++ ["_merge"] ∧
    ∀ k l r row,
      l ∈ rows L → has_key L k l → r ∈ rows R → has_key R k r →
      row ∈ rows m → has_key m k row →
      both_sides (series_of m row) ∧
      ∀ c, comparable c L R →
        labelled (c +:+ "_internal") (series_of m row) = labelled c (series_of L l) ∧
        labelled (c +:+ "_gateway") (series_of m row) = labelled c (series_of R r).
Proof.
  intros HokL HokR (iL & kL & HposL & HkL & <-) (iR & kR & HposR & HkR & <-)
    HndL HndR Hm.
  destruct (merge_rows_joined L R iL iR kL kR)
    as (m & L' & R' & Hrun & Hcols & HL0 & HR0 & Hpairs); auto.
  assert (HL' : L' = L ∨ L' = upcast_ints L)
    by (destruct (bool_decide (Exists (λ k, k ∉ kL.*1) kR.*1)); auto).
  assert (HR' : R' = R ∨ R' = upcast_ints R)
    by (destruct (bool_decide (Exists (λ k, k ∉ kR.*1) kL.*1)); auto).
  clear HL0 HR0.
  exists m. split; [exact Hrun|].
  split; [unfold other_columns; rewrite HposR; exact Hcols|].
  destruct (joined_side L L' HokL HL') as (fL & HrowsL & HfL).
  destruct (joined_side R R' HokR HR') as (fR & HrowsR & HfR).
  destruct (key_position_spec _ _ HposL) as (_ & HfindL & HiL).
  destruct (key_position_spec _ _ HposR) as (_ & HfindR & HiR).
  apply list_find_Some in HfindR as (HkeyR & _ & _).
  intros k l r row Hl Hkl Hr Hkr Hrow Hkrow.
  destruct (keyed_record L iL kL k l fL HposL HkL HndL Hl Hkl) as [HinL HlabL].
  destruct (keyed_record R iR kR k r fR HposR HkR HndR Hr Hkr) as [HinR HlabR].
  apply list_elem_of_lookup in Hrow as [j Hj].
  destruct (Forall2_lookup_r _ _ _ _ _ Hpairs Hj) as (k' & Hk' & Hjoin & Hkey' & Htag).
  assert (k' = k) by (eapply has_key_functional; eassumption). subst k'.
  rewrite HrowsL, HrowsR in Hjoin. unfold join_key in Hjoin.
  rewrite HlabL, HlabR in Hjoin. simpl in Hjoin. injection Hjoin as Hrow.
  destruct (HfL l Hl) as [HlenL HsameL]. destruct (HfR r Hr) as [HlenR HsameR].
  split.
  - unfold both_sides. unfold provenance in Htag.
    rewrite (bool_decide_eq_true_2 _ HinL), (bool_decide_eq_true_2 _ HinR) in Htag.
    exact Htag.
  - intros c (Hc & HcL & HcR & Hi & Hg & HintL & HintR).
    rewrite elem_of_app in Hi, Hg.
    assert (HcR' : c ∈ delete iR (columns R))
      by (eapply elem_of_delete_ne; eassumption).
    assert (Hlend : length (delete iR (fR r)) = length (delete iR (columns R))).
    { rewrite !length_delete; [lia| |];
        apply lookup_lt_is_Some_2; [exact HiR|rewrite HlenR; exact HiR]. }
    unfold series_of at 1 3. rewrite Hcols, <- Hrow. split.
    + rewrite merged_field_internal; try assumption.
      * apply HsameL, HintL.
      * tauto.
      * intros Hin. apply list_elem_of_delete_inv in Hin. tauto.
    + rewrite merged_field_gateway; try assumption.
      * rewrite labelled_delete_key by assumption. apply HsameR, HintR.
      * tauto.
      * intros Hin. apply list_elem_of_delete_inv in Hin. tauto.
Qed.

Lemma classify_amount_status row ai ag si sg :
  both_sides row →
  field row "amount_internal" ai → field row "amount_gateway" ag →
  field row "status_internal" si → field row "status_gateway" sg →
  (classify row = Ok "amount_mismatch" ↔ py_ne ai ag = true) ∧
  (classify row = Ok "status_mismatch" ↔ py_ne ai ag = false ∧ py_ne si sg = true).
Proof.
  intros Hm Hai Hag Hsi Hsg. unfold classify.
  rewrite (getitem_field _ _ _ Hm), (getitem_field _ _ _ Hai),
    (getitem_field _ _ _ Hag), (getitem_field _ _ _ Hsi),
    (getitem_field _ _ _ Hsg).
  simpl. destruct (py_ne ai ag); [split; split; [auto|auto|discriminate|intros [[=] _]]|].
  destruct (py_ne si sg); [split; split; [discriminate|discriminate|auto|auto]|].
  destruct (test_ne _ _) as [[]|e]; simpl;
    (split; split; [discriminate|discriminate|discriminate|intros [_ [=]]]).
Qed.

(** A name that only one side has is not suffixed, so neither suffixed
    name is a column of the join. *)
Lemma unshared_not_suffixed c (Lc Rc : list string) :
  c ∉ Lc ∨ c ∉ Rc →
  (c +:+ "_internal") ∉ Lc ++ Rc → (c +:+ "_gateway") ∉ Lc ++ Rc →
  let cols := (suffixed "_internal" Rc <$> Lc)
              ++ (suffixed "_gateway" Lc <$> Rc) ++ ["_merge"] in
  (c +:+ "_internal") ∉ cols ∧ (c +:+ "_gateway") ∉ cols.
Proof.
  intros Hc Hi Hg cols. rewrite elem_of_app in Hi, Hg. subst cols.
  split; intros Hin; rewrite !elem_of_app in Hin;
    destruct Hin as [Hin|[Hin|Hin]].
  - apply list_elem_of_fmap in Hin as (x & Hx & Hin). unfold suffixed in Hx.
    destruct (bool_decide (x ∈ Rc)) eqn:E.
    + apply bool_decide_eq_true in E. apply string_app_inv_tail in Hx.
      subst x. tauto.
    + rewrite Hx in Hi. tauto.
  - apply list_elem_of_fmap in Hin as (x & Hx & Hin). unfold suffixed in Hx.
    destruct (bool_decide (x ∈ Lc)).
    + exact (suffixes_differ _ _ Hx).
    + rewrite Hx in Hi. tauto.
  - apply list_elem_of_singleton in Hin.
    revert Hin. apply suffix_not_merge. simpl. lia.
  - apply list_elem_of_fmap in Hin as (x & Hx & Hin). unfold suffixed in Hx.
    destruct (bool_decide (x ∈ Rc)).
    + symmetry in Hx. exact (suffixes_differ _ _ Hx).
    + rewrite Hx in Hg. tauto.
  - apply list_elem_of_fmap in Hin as (x & Hx & Hin). unfold suffixed in Hx.
    destruct (bool_decide (x ∈ Lc)) eqn:E.
    + apply bool_decide_eq_true in E. apply string_app_inv_tail in Hx.
      subst x. tauto.
    + rewrite Hx in Hg. tauto.
  - apply list_elem_of_singleton in Hin.
    revert Hin. apply suffix_not_merge. simpl. lia.
Qed.

Lemma get_zip_absent k cols (r : list value) :
  k ∉ cols → get (zip cols r) k VNone = Scalar VNone.
Proof.
  intros Hk. unfold get, getitem. rewrite labelled_zip_absent by exact Hk.
  reflexivity.
Qed.

(** X22.  A transaction that both sides know is compared field by field.
    For two rectangular record sets with unique keys whose amount and status
    columns can be compared, the record of the join for a key that both
    sides carry is classified from the fields of the two records with that
    key: amount_mismatch exactly when the amounts differ, status_mismatch
    exactly when the amounts agree and the statuses differ; with a currency
    column on both sides the currencies are compared last, and with a
    currency column on one side at most no currency is compared. *)
Theorem both_sided_keys_are_compared (L R : DataFrame) (ksL ksR : list string) :
  frame_ok L → frame_ok R →
  keys_of L ksL → keys_of R ksR →
  NoDup ksL → NoDup ksR →
  mergeable L R →
  comparable "amount" L R → comparable "status" L R →
  ∃ m, merge L R = Ok m ∧
    ∀ k l r row a b s t,
      l ∈ rows L → has_key L k l → r ∈ rows R → has_key R k r →
      row ∈ rows m → has_key m k row →
      field (series_of L l) "amount" a → field (series_of R r) "amount" b →
      field (series_of L l) "status" s → field (series_of R r) "status" t →
      (classify (series_of m row) = Ok "amount_mismatch" ↔ py_ne a b = true) ∧
      (classify (series_of m row) = Ok "status_mismatch"
         ↔ py_ne a b = false ∧ py_ne s t = true) ∧
      (comparable "currency" L R →
       ∀ c d, field (series_of L l) "currency" c →
              field (series_of R r) "currency" d →
         classify (series_of m row) =
           Ok (if py_ne a b then "amount_mismatch"
               else if py_ne s t then "status_mismatch"
               else if py_ne c d then "currency_mismatch"
               else "matched")) ∧
      ("currency" ∉ columns L ∨ "currency" ∉ columns R →
       "currency_internal" ∉ columns L ++ columns R →
       "currency_gateway" ∉ columns L ++ columns R →
       classify (series_of m row) =
         Ok (if py_ne a b then "amount_mismatch"
             else if py_ne s t then "status_mismatch"
             else "matched")).
Proof.
  intros HokL HokR HkL HkR HndL HndR Hm Hamt Hst.
  destruct (joined_records L R ksL ksR) as (m & Hrun & Hcols & Hrec); auto.
  exists m. split; [exact Hrun|].
  intros k l r row a b s t Hl Hkl Hr Hkr Hrow Hkrow Ha Hb Hs Ht.
  destruct (Hrec k l r row Hl Hkl Hr Hkr Hrow Hkrow) as [Hboth Hfields].
  destruct (Hfields "amount" Hamt) as [Hai Hag].
  destruct (Hfields "status" Hst) as [Hsi Hsg].
  assert (Fai : field (series_of m row) "amount_internal" a)
    by (unfold field; change "amount_internal" with ("amount" +:+ "_internal"); rewrite Hai; exact Ha).
  assert (Fag : field (series_of m row) "amount_gateway" b)
    by (unfold field; change "amount_gateway" with ("amount" +:+ "_gateway"); rewrite Hag; exact Hb).
  assert (Fsi : field (series_of m row) "status_internal" s)
    by (unfold field; change "status_internal" with ("status" +:+ "_internal"); rewrite Hsi; exact Hs).
  assert (Fsg : field (series_of m row) "status_gateway" t)
    by (unfold field; change "status_gateway" with ("status" +:+ "_gateway"); rewrite Hsg; exact Ht).
  destruct (classify_amount_status _ _ _ _ _ Hboth Fai Fag Fsi Fsg) as [H1 H2].
  split; [exact H1|]. split; [exact H2|]. split.
  - intros Hcur c d Hc Hd.
    destruct (Hfields "currency" Hcur) as [Hci Hcg].
    apply (classify_both _ a b s t c d); try assumption.
    + unfold get, getitem. change "currency_internal" with ("currency" +:+ "_internal").
      rewrite Hci, Hc. reflexivity.
    + unfold get, getitem. change "currency_gateway" with ("currency" +:+ "_gateway").
      rewrite Hcg, Hd. reflexivity.
  - intros Habs Hi Hg.
    assert (Habs' : "currency" ∉ columns L ∨ "currency" ∉ other_columns R).
    { destruct Habs as [H|H]; [left; exact H|right]. intros Hin. apply H.
      unfold other_columns in Hin. destruct (key_position R); [|exact Hin].
      apply list_elem_of_delete_inv in Hin. exact Hin. }
    assert (Hi' : "currency_internal" ∉ columns L ++ other_columns R).
    { intros Hin. apply Hi. rewrite elem_of_app in Hin. rewrite elem_of_app.
      destruct Hin as [Hin|Hin]; [left; exact Hin|right].
      unfold other_columns in Hin. destruct (key_position R); [|exact Hin].
      apply list_elem_of_delete_inv in Hin. exact Hin. }
    assert (Hg' : "currency_gateway" ∉ columns L ++ other_columns R).
    { intros Hin. apply Hg. rewrite elem_of_app in Hin. rewrite elem_of_app.
      destruct Hin as [Hin|Hin]; [left; exact Hin|right].
      unfold other_columns in Hin. destruct (key_position R); [|exact Hin].
      apply list_elem_of_delete_inv in Hin. exact Hin. }
    destruct (unshared_not_suffixed "currency" _ _ Habs' Hi' Hg') as [Hni Hng].
    rewrite <- Hcols in Hni, Hng.
    rewrite (classify_both _ a b s t VNone VNone); try assumption.
    + destruct (py_ne a b), (py_ne s t); reflexivity.
    + apply get_zip_absent, Hni.
    + apply get_zip_absent, Hng.
Qed.

(** X22 at the keys B, A and C, A: the key A is on both sides. *)
Lemma both_sided_keys_are_compared_witness :
  ∃ m, merge normalized_internal normalized_gateway = Ok m ∧
    ∀ k l r row a b s t,
      l ∈ rows normalized_internal → has_key normalized_internal k l →
      r ∈ rows normalized_gateway → has_key normalized_gateway k r →
      row ∈ rows m → has_key m k row →
      field (series_of normalized_internal l) "amount" a →
      field (series_of normalized_gateway r) "amount" b →
      field (series_of normalized_internal l) "status" s →
      field (series_of normalized_gateway r) "status" t →
      (classify (series_of m row) = Ok "amount_mismatch" ↔ py_ne a b = true) ∧
      (classify (series_of m row) = Ok "status_mismatch"
         ↔ py_ne a b = false ∧ py_ne s t = true) ∧
      (comparable "currency" normalized_internal normalized_gateway →
       ∀ c d, field (series_of normalized_internal l) "currency" c →
              field (series_of normalized_gateway r) "currency" d →
         classify (series_of m row) =
           Ok (if py_ne a b then "amount_mismatch"
               else if py_ne s t then "status_mismatch"
               else if py_ne c d then "currency_mismatch"
               else "matched")) ∧
      ("currency" ∉ columns normalized_internal
         ∨ "currency" ∉ columns normalized_gateway →
       "currency_internal" ∉ columns normalized_internal ++ columns normalized_gateway →
       "currency_gateway" ∉ columns normalized_internal ++ columns normalized_gateway →
       classify (series_of m row) =
         Ok (if py_ne a b then "amount_mismatch"
             else if py_ne s t then "status_mismatch"
             else "matched")).
Proof.
  apply (both_sided_keys_are_compared normalized_internal normalized_gateway
           ["B"; "A"] ["C"; "A"]).
  - unfold frame_ok. by_computation.
  - unfold frame_ok. by_computation.
  - eexists _, _. split; [reflexivity|]. split; reflexivity.
  - eexists _, _. split; [reflexivity|]. split; reflexivity.
  - by_computation.
  - by_computation.
  - unfold mergeable. repeat split; try by_computation; reflexivity.
  - unfold comparable. repeat split; try by_computation; reflexivity.
  - unfold comparable. repeat split; try by_computation; reflexivity.
Defined.

(** * The classifier, the Enricher and the run, case by case *)

(** ** Records without an amount or a status *)

(** The precedence list of the specification selects a category for every
    record that is present on both sides, whatever fields it has. *)
Lemma classified_both_sides row :
  NoDup row.*1 → both_sides row → ∃ c, classified row c.
Proof.
  intros Hnd Hb.
  destruct (get_scalar row "amount_internal" VNone Hnd) as [ai Hai].
  destruct (get_scalar row "amount_gateway" VNone Hnd) as [ag Hag].
  destruct (get_scalar row "status_internal" VNone Hnd) as [si Hsi].
  destruct (get_scalar row "status_gateway" VNone Hnd) as [sg Hsg].
  destruct (get_scalar row "currency_internal" VNone Hnd) as [ci Hci].
  destruct (get_scalar row "currency_gateway" VNone Hnd) as [cg Hcg].
  pose proof (disagree_iff row "amount" ai ag Hai Hag) as Ha.
  pose proof (disagree_iff row "status" si sg Hsi Hsg) as Hs.
  pose proof (disagree_iff row "currency" ci cg Hci Hcg) as Hc.
  destruct (py_ne ai ag) eqn:Ea.
  { exists AmountMismatch. constructor; [exact Hb|]. apply Ha. reflexivity. }
  assert (Hna : ¬ disagree row "amount") by (rewrite Ha; discriminate).
  destruct (py_ne si sg) eqn:Es.
  { exists StatusMismatch. constructor; [exact Hb|exact Hna|]. apply Hs. reflexivity. }
  assert (Hns : ¬ disagree row "status") by (rewrite Hs; discriminate).
  destruct (py_ne ci cg) eqn:Ec.
  { exists CurrencyMismatch. constructor; [exact Hb|exact Hna|exact Hns|].
    apply Hc. reflexivity. }
  exists Matched. constructor; [exact Hb|exact Hna|exact Hns|].
  rewrite Hc. discriminate.
Qed.

Lemma getitem_absent row k : k ∉ row.*1 → getitem row k = Raise (KeyError k).
Proof. intros H. unfold getitem. rewrite labelled_absent by exact H. reflexivity. Qed.

(** C1 fails on the code.  The precedence list selects a category for every
    record present on both sides, a field that the record lacks counting as
    absent; [classify] indexes the amount and the status of both sides
    directly, so on a record present on both sides it raises KeyError, and
    assigns no category, as soon as the comparison it has reached lacks a
    field: the internal amount, then the gateway amount, and when the amounts
    agree the internal status, then the gateway status.  Only the currency
    is read with [get], although [normalize] provides for record sets
    without an amount or a status column and the rule tables read both with
    [get]. *)
Theorem classify_needs_amount_and_status (row : Series) :
  NoDup row.*1 → both_sides row →
  (∃ c, classified row c) ∧
  ("amount_internal" ∉ row.*1 →
   classify row = Raise (KeyError "amount_internal")) ∧
  (has_field row "amount_internal" → "amount_gateway" ∉ row.*1 →
   classify row = Raise (KeyError "amount_gateway")) ∧
  (∀ a b, field row "amount_internal" a → field row "amount_gateway" b →
     (py_ne a b = true → classify row = Ok "amount_mismatch") ∧
     (py_ne a b = false →
      ("status_internal" ∉ row.*1 →
       classify row = Raise (KeyError "status_internal")) ∧
      (has_field row "status_internal" → "status_gateway" ∉ row.*1 →
       classify row = Raise (KeyError "status_gateway")))).
Proof.
  intros Hnd Hb. split; [apply classified_both_sides; assumption|].
  unfold classify. rewrite (getitem_field _ _ _ Hb). simpl.
  split; [|split].
  - intros Habs. rewrite (getitem_absent _ _ Habs). reflexivity.
  - intros [a Ha] Habs.
    rewrite (getitem_field _ _ _ Ha), (getitem_absent _ _ Habs). reflexivity.
  - intros a b Ha Hb'.
    rewrite (getitem_field _ _ _ Ha), (getitem_field _ _ _ Hb'). simpl.
    split; [intros ->; reflexivity|]. intros ->. split.
    + intros Habs. rewrite (getitem_absent _ _ Habs). reflexivity.
    + intros [s Hs] Habs.
      rewrite (getitem_field _ _ _ Hs), (getitem_absent _ _ Habs). reflexivity.
Qed.

(** C1 at a record of two record sets without an amount column. *)
Lemma classify_needs_amount_and_status_witness :
  (∃ c, classified row_lacking_amounts c) ∧
  ("amount_internal" ∉ row_lacking_amounts.*1 →
   classify row_lacking_amounts = Raise (KeyError "amount_internal")) ∧
  (has_field row_lacking_amounts "amount_internal" →
   "amount_gateway" ∉ row_lacking_amounts.*1 →
   classify row_lacking_amounts = Raise (KeyError "amount_gateway")) ∧
  (∀ a b, field row_lacking_amounts "amount_internal" a →
          field row_lacking_amounts "amount_gateway" b →
     (py_ne a b = true → classify row_lacking_amounts = Ok "amount_mismatch") ∧
     (py_ne a b = false →
      ("status_internal" ∉ row_lacking_amounts.*1 →
       classify row_lacking_amounts = Raise (KeyError "status_internal")) ∧
      (has_field row_lacking_amounts "status_internal" →
       "status_gateway" ∉ row_lacking_amounts.*1 →
       classify row_lacking_amounts = Raise (KeyError "status_gateway")))).
Proof.
  apply (classify_needs_amount_and_status row_lacking_amounts).
  - by_computation.
  - reflexivity.
Defined.

(** The run on two record sets without an amount column: the join has one
    record, present on both sides, and [reconcile] ends with the KeyError of
    [classify]; no report is written and [main] reports the error. *)
Lemma reconcile_without_amounts_aborts :
  (reconcile slack_platform 0 1 (initial_world [status_only; status_only])).1
  = Raise (KeyError "amount_internal") ∧
  files (reconcile slack_platform 0 1 (initial_world [status_only; status_only])).2
  = ∅.
Proof. split; vm_compute; reflexivity. Qed.

(** ** Repeated field names in the Enricher *)

Lemma setitem_NoDup_inv row k v : NoDup (setitem row k v).*1 → NoDup row.*1.
Proof.
  rewrite setitem_labels. destruct (bool_decide (k ∈ row.*1)); [auto|].
  intros H. apply NoDup_app in H as [H _]. exact H.
Qed.

(** The loop body keeps the field names of the record, repeated ones
    included. *)
Lemma enrich_row_NoDup_inv P i row w row' w' :
  enrich_row P i row w = (Ok row', w') → NoDup row'.*1 → NoDup row.*1.
Proof.
  unfold enrich_row, bind, lift.
  destruct (rule_based_reason P row) as [reason|e]; [|discriminate].
  destruct (suggested_action _) as [action|e]; [|discriminate].
  destruct (negb (use_ai P)).
  { intros [= <- _] H. do 3 apply setitem_NoDup_inv in H. exact H. }
  destruct (ai_limit <=? i).
  { intros [= <- _] H. do 3 apply setitem_NoDup_inv in H. exact H. }
  destruct (try_except _ _ w) as [[text|e] w1]; [|discriminate].
  intros [= <- _] H. do 3 apply setitem_NoDup_inv in H. exact H.
Qed.

(** On a record set with records and a repeated field name the Enricher
    raises: in the rule tables when the repeated name is one they compare,
    and otherwise when the result frame is built. *)
Lemma enrich_with_analysis_repeated_labels P df d w :
  store w !! df = Some d → frame_ok d →
  rows d ≠ [] → ¬ NoDup (columns d) →
  ∃ e w', enrich_with_analysis P df w = (Raise e, w').
Proof.
  intros Hdf Hok Hrows Hdup. unfold enrich_with_analysis, bind, deref. rewrite Hdf.
  destruct (rows d) as [|r rs] eqn:Hr; [contradiction|].
  rewrite fmap_cons. cbn [enrich_rows]. unfold bind.
  destruct (enrich_row P 0 (series_of d r) w) as [[row'|e] w1] eqn:H1; [|eauto].
  destruct (enrich_rows P 1 (series_of d <$> rs) w1) as [[rest|e] w2]; [|eauto].
  unfold ret, lift, frame_of_series.
  rewrite bool_decide_eq_false_2; [eauto|].
  intros Hnd. apply Hdup.
  apply (enrich_row_NoDup_inv _ _ _ _ _ _ H1) in Hnd.
  rewrite series_of_labels in Hnd; [exact Hnd|].
  unfold frame_ok in Hok. rewrite Hr in Hok. apply Forall_cons in Hok as [Hlen _].
  exact Hlen.
Qed.

(** C8, as stated, fails: on a record set with a repeated field name the
    Enricher raises.  Such a record set is within reach of a run:
    [normalize] gives the columns Note and note one name, the join lets them
    pass, and [reconcile] ends with the exception of the Enricher, without a
    report. *)
Lemma enricher_raises_on_repeated_labels :
  (∃ e, (enrich_with_analysis ai_platform 0 (initial_world [repeated_note])).1
        = Raise e) ∧
  (∃ e, (save_report slack_platform 0 "2025-01-01_0000"
           (initial_world [repeated_note])).1 = Raise e) ∧
  (∃ e, (reconcile slack_platform 0 1
           (initial_world [mixed_case_notes; gateway_csv])).1 = Raise e) ∧
  files (reconcile slack_platform 0 1
           (initial_world [mixed_case_notes; gateway_csv])).2 = ∅.
Proof.
  split; [eexists; vm_compute; reflexivity|].
  split; [eexists; vm_compute; reflexivity|].
  split; [eexists; vm_compute; reflexivity|].
  vm_compute. reflexivity.
Qed.

(** C8, amended.  On a record set whose field names are distinct the
    Enricher does not raise: it returns a record set of the same size in
    which every record has probable_reason, suggested_action and
    ai_explanation populated.  The run is described by [enriched]: a record
    whose call of the text-generation collaborator fails (the call raises, or
    the response has no choice or no content) receives the fixed
    unavailability placeholder, and the loop goes on with the next record.  So
    every ai_explanation is a fixed message or the stripped text of an
    answer, and with a collaborator that never answers it is a fixed message
    on every record.  On a record set with records and a repeated field name
    the Enricher raises: only the call of the collaborator is guarded. *)
Theorem enricher_contains_call_failures
    (P : platform) (df : ref) (d : DataFrame) (w : world) :
  store w !! df = Some d → frame_ok d →
  (NoDup (columns d) →
   ∃ r e w' ps,
    enrich_with_analysis P df w = (Ok r, w') ∧ store w' !! r = Some e ∧
    length (rows e) = length (rows d) ∧
    enriched P 0 (series_of d <$> rows d) (prompts w) (series_of e <$> rows e) ps ∧
    prompts w' = prompts w ++ ps ∧
    (∀ row, row ∈ series_of e <$> rows e →
       ∃ reason action text,
         field row "probable_reason" (VStr reason) ∧
         field row "suggested_action" (VStr action) ∧
         field row "ai_explanation" (VStr text) ∧
         (text ∈ [ai_skipped; ai_limit_reached; ai_consistent; ai_unavailable] ∨
          ∃ history prompt t,
            chat_create P history prompt = Content t ∧ text = str_strip P t)) ∧
    ((∀ history prompt t, chat_create P history prompt ≠ Content t) →
     ∀ row, row ∈ series_of e <$> rows e →
       ∃ text, field row "ai_explanation" (VStr text) ∧
               text ∈ [ai_skipped; ai_limit_reached; ai_consistent; ai_unavailable])) ∧
  (rows d ≠ [] → ¬ NoDup (columns d) →
   ∃ e w', enrich_with_analysis P df w = (Raise e, w')).
Proof.
  intros Hdf Hok. split;
    [|intros; eapply enrich_with_analysis_repeated_labels; eassumption].
  intros Hnd.
  destruct (enrich_with_analysis_spec P df d w Hdf Hok Hnd)
    as (rs' & ps & e & Hrun & Hrel & Hrows & Hlen).
  exists (length (store w)), e, (new_frame e (add_prompts w ps)).2, ps.
  rewrite Hrun. unfold new_frame at 1. simpl.
  pose proof (enriched_populated P _ _ _ _ _ Hrel (distinct_rows d Hok Hnd)) as Hpop.
  rewrite Forall_forall in Hpop. rewrite Hrows.
  split; [reflexivity|]. split; [apply list_lookup_middle; reflexivity|].
  split; [exact Hlen|]. split; [exact Hrel|]. split; [reflexivity|]. split.
  - intros row Hrow. apply Hpop, Hrow.
  - intros Hdown row Hrow.
    destruct (Hpop row Hrow) as (reason & action & text & _ & _ & Hf & Hkind).
    exists text. split; [exact Hf|].
    destruct Hkind as [Hfixed|(h & p & t & Hc & _)]; [exact Hfixed|].
    exfalso. apply (Hdown h p t Hc).
Qed.

(** C8 with a collaborator that is down, on three records of which the
    first and the third are sent to it. *)
Lemma enricher_contains_call_failures_witness :
  (∃ r e w' ps,
    enrich_with_analysis failing_ai_platform 0
      (initial_world [mismatches_first]) = (Ok r, w') ∧
    store w' !! r = Some e ∧
    length (rows e) = length (rows mismatches_first) ∧
    enriched failing_ai_platform 0
      (series_of mismatches_first <$> rows mismatches_first)
      (prompts (initial_world [mismatches_first]))
      (series_of e <$> rows e) ps ∧
    prompts w' = prompts (initial_world [mismatches_first]) ++ ps ∧
    (∀ row, row ∈ series_of e <$> rows e →
       ∃ reason action text,
         field row "probable_reason" (VStr reason) ∧
         field row "suggested_action" (VStr action) ∧
         field row "ai_explanation" (VStr text) ∧
         (text ∈ [ai_skipped; ai_limit_reached; ai_consistent; ai_unavailable] ∨
          ∃ history prompt t,
            chat_create failing_ai_platform history prompt = Content t ∧
            text = str_strip failing_ai_platform t)) ∧
    ((∀ history prompt t, chat_create failing_ai_platform history prompt ≠ Content t) →
     ∀ row, row ∈ series_of e <$> rows e →
       ∃ text, field row "ai_explanation" (VStr text) ∧
               text ∈ [ai_skipped; ai_limit_reached; ai_consistent; ai_unavailable])) ∧
  (rows mismatches_first ≠ [] → ¬ NoDup (columns mismatches_first) →
   ∃ e w', enrich_with_analysis failing_ai_platform 0
             (initial_world [mismatches_first]) = (Raise e, w')).
Proof.
  assert (Hok : frame_ok mismatches_first) by (unfold frame_ok; by_computation).
  destruct (enricher_contains_call_failures failing_ai_platform 0 mismatches_first
              (initial_world [mismatches_first]) eq_refl Hok) as [Hret Hraise].
  split; [apply Hret; by_computation|exact Hraise].
Defined.

(** The run of that witness: two prompts are sent, both calls fail, and
    the two records take the unavailability placeholder while the matched
    record between them takes the consistent message. *)
Lemma failed_calls_are_replaced :
  let run := enrich_with_analysis failing_ai_platform 0
               (initial_world [mismatches_first]) in
  run.1 = Ok 1 ∧ length (prompts run.2) = 2 ∧
  cells "ai_explanation" <$> store run.2 !! 1
  = Some [VStr ai_unavailable; VStr ai_consistent; VStr ai_unavailable].
Proof. vm_compute. repeat split; reflexivity. Qed.

(** ** Two copies of one record set *)










(** What a join that returns has checked. *)
Lemma merge_ok_inv L R m :
  merge L R = Ok m →
  ∃ iL iR kL kR,
    key_position L = Ok iL ∧ key_position R = Ok iR ∧
    keyed iL L = Ok kL ∧ keyed iR R = Ok kR ∧ mergeable L R.
Proof.
  unfold merge, mergeable, other_columns.
  destruct (key_position L) as [iL|e] eqn:H1; [|discriminate]. cbn [bind_result].
  destruct (key_position R) as [iR|e] eqn:H2; [|discriminate]. cbn [bind_result].
  destruct (keyed iL L) as [kL|e] eqn:H3; [|discriminate]. cbn [bind_result].
  destruct (keyed iR R) as [kR|e] eqn:H4; [|discriminate]. cbn [bind_result].
  destruct (bool_decide ("_left_indicator" ∈ _)) eqn:E1; [discriminate|].
  destruct (bool_decide ("_right_indicator" ∈ _)) eqn:E2; [discriminate|].
  cbn [orb].
  destruct (bool_decide ("_merge" ∈ _)) eqn:E3; [discriminate|].
  destruct (suffix_clash (columns L) _) eqn:E4; [discriminate|].
  destruct (suffix_clash (delete iR (columns R)) _) eqn:E5; [discriminate|].
  intros _. exists iL, iR, kL, kR.
  apply bool_decide_eq_false in E1, E2, E3.
  split; [reflexivity|]. split; [reflexivity|]. split; [exact H3|].
  split; [exact H4|]. split; [exact E1|]. split; [exact E2|].
  split; [exact E3|]. split; reflexivity.
Qed.











(** ** The records of the result, key by key *)

Lemma labelled_map_labelled_ne k k0 (f : value → value) cols : ∀ r,
  k ≠ k0 → labelled k (zip cols (map_labelled k0 f cols r)) = labelled k (zip cols r).
Proof.
  unfold map_labelled.
  induction cols as [|c cols IH]; intros [|v r] Hk; try reflexivity.
  change (labelled k ((c, if bool_decide (c = k0) then f v else v)
                      :: zip cols (zip_with (λ c v, if bool_decide (c = k0) then f v else v) cols r))
          = labelled k ((c, v) :: zip cols r)).
  rewrite !labelled_cons, IH by exact Hk. cbn [fst snd].
  destruct (decide (c = k)) as [->|]; [|reflexivity].
  rewrite bool_decide_eq_false_2 by exact Hk. reflexivity.
Qed.

(** Writing a column leaves the other fields of every record alone. *)
Lemma set_column_rows k0 col m :
  frame_ok m → length col = length (rows m) →
  Forall2 (λ r r', ∀ k, k ≠ k0 →
             labelled k (series_of (set_column k0 col m) r') = labelled k (series_of m r))
          (rows m) (rows (set_column k0 col m)).
Proof.
  intros Hok Hlen. unfold frame_ok in Hok. rewrite Forall_forall in Hok.
  apply Forall2_same_length_lookup. split.
  - unfold set_column. destruct (in_columns k0 m); simpl;
      rewrite length_zip_with; lia.
  - intros j r r' Hr Hr' k Hk. unfold set_column in *.
    pose proof (Hok r (list_elem_of_lookup_2 _ _ _ Hr)) as Hlenr.
    destruct (in_columns k0 m); simpl in *; unfold series_of; simpl;
      rewrite lookup_zip_with, Hr in Hr'; simpl in Hr';
      destruct (col !! j) as [v|]; try discriminate; simpl in Hr';
      injection Hr' as <-.
    + apply labelled_map_labelled_ne, Hk.
    + rewrite zip_with_app by (symmetry; exact Hlenr).
      rewrite labelled_app. simpl. rewrite labelled_cons. simpl.
      rewrite decide_False by congruence. apply app_nil_r.
Qed.

(** Dropping a column leaves the other fields of every record alone. *)
Lemma drop_column_rows k0 m d :
  frame_ok m → drop_column k0 m = Ok d →
  Forall2 (λ r r', ∀ k, k ≠ k0 →
             labelled k (series_of d r') = labelled k (series_of m r))
          (rows m) (rows d).
Proof.
  intros Hok. unfold drop_column. destruct (in_columns k0 m); [|discriminate].
  intros [= <-]. simpl. apply Forall2_fmap_r, Forall_Forall2_diag.
  eapply Forall_impl; [exact Hok|]. intros r Hr k Hk. simpl in Hr.
  unfold series_of at 1. simpl.
  rewrite <- (series_of_labels m r Hr) at 1.
  rewrite <- (filter_labels_fst (λ c, c ≠ k0)), zip_fst_snd.
  apply labelled_filter_ne, Hk.
Qed.

(** One record per key, from records and distinct keys that are paired
    up. *)
Lemma paired_keys_complete d keys (ksL ksR : list string) :
  Forall2 (has_key d) keys (rows d) →
  keys ≡ₚ remove_dups (ksL ++ ksR) →
  (∀ k, k ∈ ksL ∨ k ∈ ksR → length (filter (has_key d k) (rows d)) = 1) ∧
  Forall (λ r, ∃ k, (k ∈ ksL ∨ k ∈ ksR) ∧ has_key d k r) (rows d) ∧
  length (rows d) = size (list_to_set ksL ∪ list_to_set ksR : gset string).
Proof.
  intros Hpairs Hperm.
  assert (Hnd : NoDup keys) by (rewrite Hperm; apply NoDup_remove_dups).
  assert (Hin : ∀ k, k ∈ keys ↔ k ∈ ksL ∨ k ∈ ksR).
  { intros k. rewrite Hperm, elem_of_remove_dups, elem_of_app. reflexivity. }
  split; [|split].
  - intros k Hk. eapply one_record_per_key; eauto using has_key_functional.
    apply Hin, Hk.
  - apply Forall_forall. intros r Hr. apply list_elem_of_lookup in Hr as [j Hj].
    destruct (Forall2_lookup_r _ _ _ _ _ Hpairs Hj) as (k & Hk & Hq).
    exists k. split; [|exact Hq]. apply Hin. eapply list_elem_of_lookup_2, Hk.
  - rewrite <- (Forall2_length _ _ _ Hpairs), Hperm.
    rewrite <- (size_list_to_set (C := gset string)) by apply NoDup_remove_dups.
    f_equal. apply set_eq. intros k.
    rewrite elem_of_list_to_set, elem_of_remove_dups, elem_of_app, elem_of_union,
      !elem_of_list_to_set. reflexivity.
Qed.

Lemma mapM_some_raise {A B} (f : A → result B) l e :
  Forall (λ a, (∃ b, f a = Ok b) ∨ f a = Raise e) l →
  Exists (λ a, f a = Raise e) l →
  mapM f l = Raise e.
Proof.
  induction l as [|a l IH]; intros Hall Hex; [inversion Hex|].
  apply Forall_cons in Hall as [Ha Hall]. simpl.
  destruct Ha as [[b Hb]|Ha]; [|rewrite Ha; reflexivity].
  rewrite Hb. simpl. apply Exists_cons in Hex as [Hex|Hex]; [congruence|].
  rewrite (IH Hall Hex). reflexivity.
Qed.

(** A join without an amount_internal column that holds a key of both
    sides: [classify] raises on the record of that key, and on no record
    anything else. *)
Lemma apply_classify_without_amounts L R m ksL ksR k :
  frame_ok L → frame_ok R → merge L R = Ok m →
  keys_of L ksL → keys_of R ksR → NoDup ksL → NoDup ksR →
  k ∈ ksL → k ∈ ksR → "amount_internal" ∉ columns m →
  apply_classify m = Raise (KeyError "amount_internal").
Proof.
  intros HokL HokR Hm (iL & kL & HposL & HkL & <-) (iR & kR & HposR & HkR & <-)
    HndL HndR HinL HinR Habs.
  destruct (merge_ok_inv _ _ _ Hm) as (iL' & iR' & kL' & kR' & _ & _ & _ & _ & Hmg).
  destruct (merge_rows_tagged L R iL iR kL kR) as (m' & Hrun & Hpairs); auto.
  rewrite Hm in Hrun. injection Hrun as <-.
  set (keys := merge_sort String.le (remove_dups (kL.*1 ++ kR.*1))) in *.
  assert (Hk : k ∈ keys).
  { apply (elem_of_Permutation_proper _ _ _ (merge_sort_Permutation _ _)).
    apply elem_of_remove_dups, elem_of_app. auto. }
  assert (Hrow : ∀ row, "amount_internal" ∉ (series_of m row).*1).
  { intros row Hin. apply Habs. unfold series_of in Hin.
    apply list_elem_of_fmap in Hin as ([c v] & -> & Hin).
    apply elem_of_zip_l in Hin. exact Hin. }
  assert (Hall : Forall (λ row, (∃ b, (let* c := classify (series_of m row) in
                                       Ok (VStr c)) = Ok b)
                                ∨ (let* c := classify (series_of m row) in
                                   Ok (VStr c)) = Raise (KeyError "amount_internal"))
                        (rows m)).
  { eapply Forall2_Forall_r; [exact Hpairs|]. apply Forall_forall.
    intros k0 _ row [_ Htag]. unfold provenance in Htag.
    destruct (bool_decide (k0 ∈ kL.*1)); [destruct (bool_decide (k0 ∈ kR.*1))|].
    - right. unfold classify. rewrite (getitem_field _ _ _ Htag). simpl.
      rewrite (getitem_absent _ _ (Hrow row)). reflexivity.
    - left. rewrite (classify_internal_only _ Htag). eauto.
    - left. rewrite (classify_gateway_only _ Htag). eauto. }
  assert (Hex : Exists (λ row, (let* c := classify (series_of m row) in
                                Ok (VStr c)) = Raise (KeyError "amount_internal"))
                       (rows m)).
  { apply list_elem_of_lookup in Hk as [j Hj].
    destruct (Forall2_lookup_l _ _ _ _ _ Hpairs Hj) as (row & Hrj & _ & Htag).
    apply Exists_exists. exists row. split; [eapply list_elem_of_lookup_2, Hrj|].
    unfold provenance in Htag.
    rewrite (bool_decide_eq_true_2 _ HinL), (bool_decide_eq_true_2 _ HinR) in Htag.
    unfold classify. rewrite (getitem_field _ _ _ Htag). simpl.
    rewrite (getitem_absent _ _ (Hrow row)). reflexivity. }
  unfold apply_classify. destruct (rows m) as [|r0 rs] eqn:Hr; [inversion Hex|].
  apply mapM_some_raise; assumption.
Qed.

(** C2 fails on the code.  Whenever a run on two rectangular record sets
    returns, the record set it returns has, for the two normalized copies
    that the run made and when the key is unique within each copy, exactly
    one record for each [tx_id] that appears in either copy and no other
    record, so that the record count is the size of the union of the two key
    sets.  But the run does not return for every such pair: when the
    normalized copies have no amount column and share a key, the join holds
    the record of that key, [classify] raises KeyError on it, and [reconcile]
    ends with that exception; no record set is returned. *)
Theorem reconcile_join_complete
    (P : platform) (a b : ref) (da db : DataFrame) (w : world) :
  store w !! a = Some da → store w !! b = Some db →
  frame_ok da → frame_ok db →
  (∀ res w', reconcile P a b w = (Ok res, w') →
   ∃ L R d ksL ksR,
    normalize P a "internal" w
    = (Ok (length (store w)), set_store (store w ++ [L]) w) ∧
    normalize P b "gateway" (set_store (store w ++ [L]) w)
    = (Ok (S (length (store w))), set_store ((store w ++ [L]) ++ [R]) w) ∧
    keys_of L ksL ∧ keys_of R ksR ∧
    store w' !! res = Some d ∧
    (NoDup ksL → NoDup ksR →
     (∀ k, k ∈ ksL ∨ k ∈ ksR → length (filter (has_key d k) (rows d)) = 1) ∧
     Forall (λ r, ∃ k, (k ∈ ksL ∨ k ∈ ksR) ∧ has_key d k r) (rows d) ∧
     length (rows d) = size (list_to_set ksL ∪ list_to_set ksR : gset string))) ∧
  (∀ L R m ksL ksR k,
     normalize P a "internal" w
     = (Ok (length (store w)), set_store (store w ++ [L]) w) →
     normalize P b "gateway" (set_store (store w ++ [L]) w)
     = (Ok (S (length (store w))), set_store ((store w ++ [L]) ++ [R]) w) →
     merge L R = Ok m →
     keys_of L ksL → keys_of R ksR → NoDup ksL → NoDup ksR →
     k ∈ ksL → k ∈ ksR → "amount_internal" ∉ columns m →
     (reconcile P a b w).1 = Raise (KeyError "amount_internal")).
Proof.
  intros Ha Hb HokA HokB. split.
  - intros res w' Hrun.
    destruct (reconcile_returns _ _ _ _ _ _ Hrun)
      as (L & R & m & col & d & H1 & H2 & Hm & Hcol & Hdrop & Hd & _ & _).
    destruct (normalize_frame_ok _ _ _ _ _ _ _ Ha HokA H1) as (L' & _ & HL & HokL).
    apply (f_equal store) in HL. simpl in HL. apply app_inj_tail in HL as [_ <-].
    assert (Hb1 : store (set_store (store w ++ [L]) w) !! b = Some db)
      by (simpl; apply lookup_app_l_Some, Hb).
    destruct (normalize_frame_ok _ _ _ _ _ _ _ Hb1 HokB H2) as (R' & _ & HR & HokR).
    apply (f_equal store) in HR. simpl in HR. apply app_inj_tail in HR as [_ <-].
    destruct (merge_ok_inv _ _ _ Hm)
      as (iL & iR & kL & kR & HposL & HposR & HkL & HkR & Hmg).
    exists L, R, d, kL.*1, kR.*1. split; [exact H1|].
    split; [rewrite H2; f_equal; f_equal; rewrite length_app; simpl; lia|].
    split; [exists iL, kL; auto|]. split; [exists iR, kR; auto|].
    split; [exact Hd|]. intros HndL HndR.
    destruct (merge_rows L R iL iR kL kR) as (m' & Hrun' & Hpairs); auto.
    rewrite Hm in Hrun'. injection Hrun' as <-.
    destruct (merge_frame_ok L R m HokL HokR Hm) as [Hokm _].
    destruct (apply_classify_range m col Hcol) as [Hrange Hlencol].
    fold category_values in Hrange.
    destruct (set_column_cells (λ v, v ∈ category_values) "discrepancy_type" col m
                Hokm Hrange) as (_ & _ & _ & Hoks).
    pose proof (set_column_rows "discrepancy_type" col m Hokm Hlencol) as Hset.
    pose proof (drop_column_rows "_merge" _ d Hoks Hdrop) as Hdropped.
    apply (paired_keys_complete d (merge_sort String.le (remove_dups (kL.*1 ++ kR.*1))));
      [|apply merge_sort_Permutation].
    apply Forall2_same_length_lookup. split.
    + rewrite (Forall2_length _ _ _ Hpairs), (Forall2_length _ _ _ Hset).
      eapply Forall2_length, Hdropped.
    + intros j k rd Hk Hrd.
      destruct (Forall2_lookup_l _ _ _ _ _ Hpairs Hk) as (rm & Hrm & Hkey).
      destruct (Forall2_lookup_l _ _ _ _ _ Hset Hrm) as (rs & Hrs & Hs).
      destruct (Forall2_lookup_l _ _ _ _ _ Hdropped Hrs) as (rd' & Hrd' & Hdr).
      rewrite Hrd in Hrd'. injection Hrd' as <-.
      unfold has_key, field in *.
      rewrite Hdr by discriminate. rewrite Hs by discriminate. exact Hkey.
  - intros L R m ksL ksR k H1 H2 Hm HkL HkR HndL HndR HinL HinR Habs.
    destruct (normalize_frame_ok _ _ _ _ _ _ _ Ha HokA H1) as (L' & _ & HL & HokL).
    apply (f_equal store) in HL. simpl in HL. apply app_inj_tail in HL as [_ <-].
    assert (Hb1 : store (set_store (store w ++ [L]) w) !! b = Some db)
      by (simpl; apply lookup_app_l_Some, Hb).
    destruct (normalize_frame_ok _ _ _ _ _ _ _ Hb1 HokB H2) as (R' & _ & HR & HokR).
    apply (f_equal store) in HR. simpl in HR. apply app_inj_tail in HR as [_ <-].
    pose proof (apply_classify_without_amounts L R m ksL ksR k HokL HokR Hm
                  HkL HkR HndL HndR HinL HinR Habs) as Hcol.
    unfold reconcile. unfold bind at 1. rewrite H1.
    unfold bind at 1. rewrite H2.
    unfold bind at 1. unfold deref at 1. simpl store.
    rewrite lookup_app_l by (rewrite length_app; simpl; lia).
    rewrite list_lookup_middle by reflexivity.
    unfold bind at 1. unfold deref at 1. simpl store.
    rewrite list_lookup_middle by (rewrite length_app; simpl; lia).
    unfold bind at 1. unfold lift at 1. rewrite Hm.
    set (w2 := set_store ((store w ++ [L]) ++ [R]) w).
    unfold bind at 1. rewrite new_frame_fresh.
    unfold bind at 1. rewrite modify_fresh. rewrite Hcol. reflexivity.
Qed.

(** C2 at two record sets with the key A and no amount column. *)
Lemma reconcile_join_complete_witness :
  (∀ res w', reconcile slack_platform 0 1 (initial_world [status_only; status_only])
             = (Ok res, w') →
   ∃ L R d ksL ksR,
    normalize slack_platform 0 "internal" (initial_world [status_only; status_only])
    = (Ok (length (store (initial_world [status_only; status_only]))),
       set_store (store (initial_world [status_only; status_only]) ++ [L])
         (initial_world [status_only; status_only])) ∧
    normalize slack_platform 1 "gateway"
      (set_store (store (initial_world [status_only; status_only]) ++ [L])
         (initial_world [status_only; status_only]))
    = (Ok (S (length (store (initial_world [status_only; status_only])))),
       set_store ((store (initial_world [status_only; status_only]) ++ [L]) ++ [R])
         (initial_world [status_only; status_only])) ∧
    keys_of L ksL ∧ keys_of R ksR ∧
    store w' !! res = Some d ∧
    (NoDup ksL → NoDup ksR →
     (∀ k, k ∈ ksL ∨ k ∈ ksR → length (filter (has_key d k) (rows d)) = 1) ∧
     Forall (λ r, ∃ k, (k ∈ ksL ∨ k ∈ ksR) ∧ has_key d k r) (rows d) ∧
     length (rows d) = size (list_to_set ksL ∪ list_to_set ksR : gset string))) ∧
  (∀ L R m ksL ksR k,
     normalize slack_platform 0 "internal" (initial_world [status_only; status_only])
     = (Ok (length (store (initial_world [status_only; status_only]))),
        set_store (store (initial_world [status_only; status_only]) ++ [L])
          (initial_world [status_only; status_only])) →
     normalize slack_platform 1 "gateway"
       (set_store (store (initial_world [status_only; status_only]) ++ [L])
          (initial_world [status_only; status_only]))
     = (Ok (S (length (store (initial_world [status_only; status_only])))),
        set_store ((store (initial_world [status_only; status_only]) ++ [L]) ++ [R])
          (initial_world [status_only; status_only])) →
     merge L R = Ok m →
     keys_of L ksL → keys_of R ksR → NoDup ksL → NoDup ksR →
     k ∈ ksL → k ∈ ksR → "amount_internal" ∉ columns m →
     (reconcile slack_platform 0 1 (initial_world [status_only; status_only])).1
     = Raise (KeyError "amount_internal")).
Proof.
  apply (reconcile_join_complete slack_platform 0 1 status_only status_only
           (initial_world [status_only; status_only])).
  - reflexivity.
  - reflexivity.
  - unfold frame_ok. by_computation.
  - unfold frame_ok. by_computation.
Defined.

(** A run that returns: three keys, A on both sides, B and C on one side
    each, and three records in key order. *)
Lemma three_keys_three_records :
  let run := reconcile slack_platform 0 1
               (initial_world [normalized_internal; normalized_gateway]) in
  run.1 = Ok 5 ∧
  (cells "tx_id" <$> store run.2 !! 5) = Some [VStr "A"; VStr "B"; VStr "C"] ∧
  (cells "discrepancy_type" <$> store run.2 !! 5)
  = Some [VStr "status_mismatch"; VStr "missing_in_gateway";
          VStr "missing_in_internal"].
Proof. vm_compute. repeat split; reflexivity. Qed.
